(** * mp: the request client and the paginated fetch loop

    A shallow embedding of the Go sources of [mp]:
    - [internal/client] (URL table, [ResolveURL], [ValidRegion], [New],
      [Client.do] with its 429 retry, [backoff]);
    - [cmd] ([newClient], the region check of [rootCmd.PersistentPreRunE],
      the auto-pagination loops of [runProfilesQuery] and
      [runProfilesGroups]).

    Go strings are byte strings ([string]); [int] and [time.Duration] are
    64-bit two's complement integers ([Z] with the wrap-around written out,
    [int] being 64 bits wide as on amd64 and arm64); Go maps are [gmap]s;
    a Go [(T, error)] result is a sum [error + T]. *)

From Stdlib Require Import ZArith String Ascii List Lia.
From stdpp Require Import gmap strings list pretty sorting.

Local Open Scope string_scope.
Local Open Scope Z_scope.

(** ** Errors

    One constructor per [fmt.Errorf] site of the modelled code; the
    arguments are the values the message is formatted from. *)
Inductive error : Type :=
| ErrUnknownFamily (family : string)      (* "unknown API family %q; ..." *)
| ErrUnknownRegion (region : string)      (* "unknown region %q; ..." *)
| ErrInvalidRegion (region : string)      (* "invalid region %q; must be one of: us, eu, in" *)
| ErrMissingCredentials                   (* "service_account and service_secret must be configured; ..." *)
| ErrCreatingRequest (cause : string)     (* "creating request: %w" *)
| ErrExecutingRequest (cause : string)    (* "executing request: %w" *)
| ErrTokenFormat                          (* "MP_TOKEN must be in the format `user:secret`" *)
| ErrProjectIDRequired                    (* "project ID is required; ..." *)
| ErrPageSize                             (* "`--page-size` must be between 1 and 1000" *)
| ErrReadingBody (cause : string)         (* "reading response body: %w" *)
| ErrAPI (statusCode : Z) (body : string) (* "API error (HTTP %d): %s" *)
| ErrQuerying (what : string) (page : Z) (cause : error)
                                          (* "querying profiles (page %d): %w" *)
| ErrParsing (what : string)              (* "parsing profiles response: %w" *)
| ErrEngageStatus (status : string)       (* "engage API returned status %q" *)
| ErrUnknownKey (key : string)            (* "unknown config key %q; valid keys: %s" *)
| ErrNilResponse.                         (* the panic on reading a nil *http.Response *)

(** ** 64-bit integers *)
Module Int64.
Definition min_int : Z := - 2 ^ 63.
Definition max_int : Z := 2 ^ 63 - 1.

(** The value of a two's complement 64-bit result. *)
Definition wrap (z : Z) : Z := (z + 2 ^ 63) mod 2 ^ 64 - 2 ^ 63.

Definition mul (a b : Z) : Z := wrap (a * b).

Definition in_range (z : Z) : bool := (min_int <=? z) && (z <=? max_int).
End Int64.

(** ** [strconv.Atoi] (Go standard library)

    An optional sign followed by one or more decimal digits; a value that
    does not fit [int] is a range error. Both errors are [None]. *)
Module Strconv.
Definition digit (c : ascii) : option Z :=
  let n := Z.of_N (N_of_ascii c) in
  if (48 <=? n) && (n <=? 57) then Some (n - 48) else None.

Fixpoint digits (acc : Z) (s : string) : option Z :=
  match s with
  | EmptyString => Some acc
  | String c s' =>
      match digit c with
      | Some d => digits (acc * 10 + d) s'
      | None => None
      end
  end.

Definition unsigned (s : string) : option Z :=
  match s with
  | EmptyString => None
  | _ => digits 0 s
  end.

Definition Atoi (s : string) : option Z :=
  let signed :=
    match s with
    | String "-" s' => option_map Z.opp (unsigned s')
    | String "+" s' => unsigned s'
    | _ => unsigned s
    end in
  match signed with
  | Some n => if Int64.in_range n then Some n else None
  | None => None
  end.
End Strconv.

(** ** [time.Duration]: a count of nanoseconds in an [int64] *)
Module Time.
Definition Second : Z := 1000000000.

(** [time.Duration(x) * time.Second] *)
Definition seconds (x : Z) : Z := Int64.mul x Second.
End Time.

(** ** Endpoint resolver (package [client], URL table) *)
Module Urls.
Definition APIFamilyQuery := "query".
Definition APIFamilyExport := "export".
Definition APIFamilyApp := "app".
Definition APIFamilyIngestion := "ingestion".

Definition RegionUS := "us".
Definition RegionEU := "eu".
Definition RegionIN := "in".

Definition baseURLs : gmap string (gmap string string) :=
  list_to_map [
    (APIFamilyQuery, list_to_map [
       (RegionUS, "https://mixpanel.com/api/query");
       (RegionEU, "https://eu.mixpanel.com/api/query");
       (RegionIN, "https://in.mixpanel.com/api/query") ]);
    (APIFamilyExport, list_to_map [
       (RegionUS, "https://data.mixpanel.com/api/2.0");
       (RegionEU, "https://data-eu.mixpanel.com/api/2.0");
       (RegionIN, "https://data-in.mixpanel.com/api/2.0") ]);
    (APIFamilyApp, list_to_map [
       (RegionUS, "https://mixpanel.com/api/app");
       (RegionEU, "https://eu.mixpanel.com/api/app");
       (RegionIN, "https://in.mixpanel.com/api/app") ]);
    (APIFamilyIngestion, list_to_map [
       (RegionUS, "https://api.mixpanel.com");
       (RegionEU, "https://api-eu.mixpanel.com");
       (RegionIN, "https://api-in.mixpanel.com") ]) ].

Definition ResolveURL (family region : string) : error + string :=
  match baseURLs !! family with
  | None => inl (ErrUnknownFamily family)
  | Some regions =>
      match regions !! region with
      | None => inl (ErrUnknownRegion region)
      | Some url => inr url
      end
  end.

Definition ValidRegion (r : string) : bool :=
  bool_decide (r = RegionUS) || bool_decide (r = RegionEU)
  || bool_decide (r = RegionIN).

(** The rows and columns of the table, as the spec counts them. *)
Definition families : list string :=
  [APIFamilyQuery; APIFamilyExport; APIFamilyApp; APIFamilyIngestion].
Definition regions : list string := [RegionUS; RegionEU; RegionIN].
End Urls.

(** ** The world the client acts on

    [net/http] is outside the repository: a request is what [http.NewRequest]
    and the [Header.Set] calls of [Client.do] build, a response carries what
    the code reads from it, and the server is a function [roundTrip] of the
    number of exchanges already made and of the request. *)
Module Http.
Definition StatusTooManyRequests : Z := 429.
Definition MethodGet := "GET".
Definition MethodPost := "POST".

(** [http.Header] and [url.Values]: [map[string][]string] *)
Abbreviation Header := (gmap string (list string)).
Abbreviation Values := (gmap string (list string)).

(** [Header.Get]: the first value of the key, or the empty string. *)
Definition Get (h : Header) (key : string) : string :=
  match h !! key with
  | Some (v :: _) => v
  | _ => ""
  end.

(** [Header.Set] and [Values.Set] *)
Definition Set_ (h : Header) (key value : string) : Header :=
  <[key := [value]]> h.

(** [len(v) > 0], which for a map also excludes nil *)
Definition nonempty (v : Values) : bool := negb (bool_decide (v = ∅)).

Record Request : Type := mkRequest {
  Method : string;
  URL : string;
  ReqHeader : Header;
  ReqBody : option string  (* what the body reader still holds; None: no body *)
}.

Record Response : Type := mkResponse {
  StatusCode : Z;
  Status : string;
  RespHeader : Header;
  Body : string + string  (* inr: the bytes [io.ReadAll] returns; inl: its error *)
}.

(** A line [debugf] prints to standard error. *)
Inductive DebugLine : Type :=
| DbgSend (method url : string)       (* "--> %s %s" *)
| DbgRecv (code : Z) (status : string) (* "<-- %d %s" *)
| DbgRetry (wait : Z).                (* "    rate limited, retrying in %v" *)

Record World : Type := mkWorld {
  wire : list Request;      (* requests sent so far, oldest first *)
  slept : list Z;           (* durations passed to [time.Sleep], oldest first *)
  stderr : list DebugLine   (* debug output, oldest first *)
}.

Definition World0 : World := mkWorld [] [] [].
End Http.

(** ** A state monad over [World] *)
Definition M (A : Type) : Type := Http.World -> A * Http.World.

Definition ret {A} (a : A) : M A := fun w => (a, w).

Definition bind {A B} (m : M A) (k : A -> M B) : M B :=
  fun w => let (a, w') := m w in k a w'.

Notation "'let*' x ':=' m 'in' k" := (bind m (fun x => k))
  (at level 10, x name, m at level 100, k at level 200, only parsing).
Notation "m '>>' k" := (bind m (fun _ => k))
  (at level 90, right associativity, only parsing).

(** ** Package [client]: the request client *)
Module Client.
Import Http.

Definition maxRetries : Z := 1.
Definition baseBackoffSec : Z := 1.

Record Client : Type := mkClient {
  auth : string;       (* base64-encoded "user:secret" *)
  region : string;     (* us, eu, in *)
  projectID : string;
  debug : bool;
  timeout : Z          (* of the http.Client, a time.Duration *)
}.

(** [time.Duration(math.Pow(2, float64(attempt)) * baseBackoffSec)]:
    for [0 <= attempt < 63] the power is an exact float64 that fits int64;
    for a negative [attempt] it lies in [0, 1) and is truncated to 0; from
    63 on the conversion overflows, where Go leaves the result to the
    implementation (amd64 gives the least int64). *)
Definition pow2Duration (attempt : Z) : Z :=
  if attempt <? 0 then 0
  else if attempt <? 63 then 2 ^ attempt * baseBackoffSec
  else Int64.min_int.

Definition backoff (attempt : Z) (resp : Response) : Z :=
  let ra := Get (RespHeader resp) "Retry-After" in
  let exponential := Int64.mul (pow2Duration attempt) Time.Second in
  if bool_decide (ra = "") then exponential
  else
    match Strconv.Atoi ra with
    | Some secs => if 0 <? secs then Int64.mul secs Time.Second else exponential
    | None => exponential
    end.

Section WithNet.
(** [base64.StdEncoding.EncodeToString] *)
Variable b64 : string -> string.
(** [url.Values.Encode] *)
Variable encode : Values -> string.
(** [http.NewRequest]: the error it reports for a method and URL, if any *)
Variable newRequestErr : string -> string -> option string.
(** [http.Client.Do]: the answer to the n-th exchange *)
Variable roundTrip : nat -> Request -> string + Response.

Definition New (serviceAccount serviceSecret region projectID : string)
    (debug : bool) : error + Client :=
  if negb (Urls.ValidRegion region) then inl (ErrInvalidRegion region)
  else if bool_decide (serviceAccount = "") || bool_decide (serviceSecret = "")
  then inl ErrMissingCredentials
  else
    inr {| auth := b64 (serviceAccount ++ ":" ++ serviceSecret);
           region := region;
           projectID := projectID;
           debug := debug;
           timeout := Int64.mul 120 Time.Second |}.

Definition debugf (c : Client) (line : DebugLine) : M unit :=
  fun w =>
    if debug c
    then (tt, mkWorld (wire w) (slept w) (stderr w ++ [line])%list)
    else (tt, w).

Definition Sleep (d : Z) : M unit :=
  fun w => (tt, mkWorld (wire w) (slept w ++ [d])%list (stderr w)).

Definition Do (req : Request) : M (string + Response) :=
  fun w =>
    (roundTrip (length (wire w)) req,
     mkWorld (wire w ++ [req])%list (slept w) (stderr w)).

(** The reader of a request body after it was sent: read to its end. *)
Definition drained (body : option string) : option string :=
  option_map (fun _ => "") body.

Definition buildRequest (c : Client) (method fullURL contentType : string)
    (body : option string) : Request :=
  let h := Set_ ∅ "Authorization" ("Basic " ++ auth c) in
  let h := Set_ h "Accept-Encoding" "gzip" in
  let h := Set_ h "Accept" "application/json" in
  let h := if bool_decide (contentType = "") then h
           else Set_ h "Content-Type" contentType in
  mkRequest method fullURL h body.

(** The loop [for attempt := 0; attempt <= maxRetries; attempt++] of
    [Client.do]; [resp] is the variable declared before the loop (nil
    at first). [fuel] bounds the iterations and [do] gives enough. *)
Fixpoint doLoop (fuel : nat) (c : Client) (method fullURL contentType : string)
    (form : Values) (attempt : Z) (body : option string)
    (resp : option Response) : M (error + option Response) :=
  match fuel with
  | O => ret (inr resp)
  | S fuel' =>
      if negb (attempt <=? maxRetries) then ret (inr resp)
      else
        match newRequestErr method fullURL with
        | Some cause => ret (inl (ErrCreatingRequest cause))
        | None =>
            let req := buildRequest c method fullURL contentType body in
            debugf c (DbgSend method fullURL) >>
            let* r := Do req in
            match r with
            | inl cause => ret (inl (ErrExecutingRequest cause))
            | inr resp' =>
                debugf c (DbgRecv (StatusCode resp') (Status resp')) >>
                if negb (StatusCode resp' =? StatusTooManyRequests)
                then ret (inr (Some resp'))
                else if attempt <? maxRetries
                then
                  let wait := backoff attempt resp' in
                  debugf c (DbgRetry wait) >>
                  Sleep wait >>
                  let body' := if nonempty form then Some (encode form)
                               else drained body in
                  doLoop fuel' c method fullURL contentType form
                    (attempt + 1) body' (Some resp')
                else
                  doLoop fuel' c method fullURL contentType form
                    (attempt + 1) (drained body) (Some resp')
            end
        end
  end.

Definition do (c : Client) (method apiFamily path : string)
    (query form : Values) : M (error + option Response) :=
  match Urls.ResolveURL apiFamily (region c) with
  | inl err => ret (inl err)
  | inr base =>
      let fullURL :=
        if nonempty query then base ++ path ++ "?" ++ encode query
        else base ++ path in
      let body := if nonempty form then Some (encode form) else None in
      let contentType :=
        if nonempty form then "application/x-www-form-urlencoded" else "" in
      doLoop (Z.to_nat (maxRetries + 2)) c method fullURL contentType form
        0 body None
  end.

Definition Get (c : Client) (apiFamily path : string) (params : Values)
    : M (error + option Response) :=
  do c MethodGet apiFamily path params ∅.

Definition Post (c : Client) (apiFamily path : string) (params : Values)
    : M (error + option Response) :=
  do c MethodPost apiFamily path ∅ params.

Definition ProjectID (c : Client) : string := projectID c.
End WithNet.
End Client.

(** ** [strings] (Go standard library) *)
Module Strings.
(** [strings.ToLower]. A string whose bytes are all below 0x80
    ([utf8.RuneSelf]) has its letters A-Z mapped to a-z; any other string
    is handed to [Map(unicode.ToLower, s)], which decodes the runes and
    maps them by the case tables of the library. *)
Definition lowerByte (c : ascii) : ascii :=
  let n := N_of_ascii c in
  if ((65 <=? n) && (n <=? 90))%N then ascii_of_N (n + 32) else c.

Fixpoint lowerASCII (s : string) : string :=
  match s with
  | EmptyString => EmptyString
  | String c s' => String (lowerByte c) (lowerASCII s')
  end.

Fixpoint isASCII (s : string) : bool :=
  match s with
  | EmptyString => true
  | String c s' => (N_of_ascii c <? 128)%N && isASCII s'
  end.

Section WithUnicode.
(** [Map(unicode.ToLower, s)] *)
Variable mapLower : string -> string.

Definition ToLower (s : string) : string :=
  if isASCII s then lowerASCII s else mapLower s.
End WithUnicode.

(** [strings.Cut] at a one-byte separator: the text before and after its
    first occurrence. *)
Fixpoint cut (sep : ascii) (s : string) : option (string * string) :=
  match s with
  | EmptyString => None
  | String c s' =>
      if bool_decide (c = sep) then Some (EmptyString, s')
      else
        match cut sep s' with
        | Some (before, after) => Some (String c before, after)
        | None => None
        end
  end.

(** [strings.SplitN(s, sep, 2)] for a one-byte separator. *)
Definition SplitN2 (s : string) (sep : ascii) : list string :=
  match cut sep s with
  | Some (before, after) => [before; after]
  | None => [s]
  end.
End Strings.

(** ** Package [config]: [Config.Set]

    The store is the key-value view of the configuration file; the write
    to disk that ends [Config.Set] is added in [ConfigView.Set_]. *)
Module Config.
Definition KeyProjectID := "project_id".
Definition KeyRegion := "region".
Definition KeyServiceAccount := "service_account".
Definition KeyServiceSecret := "service_secret".

Definition knownKeys : gmap string string :=
  list_to_map [
    (KeyProjectID, "Mixpanel project ID");
    (KeyRegion, "API region (us, eu, in)");
    (KeyServiceAccount, "Service account username");
    (KeyServiceSecret, "Service account secret") ].

Definition Set_ (mapLower : string -> string)
    (store : gmap string string) (key value : string)
    : error + gmap string string :=
  match knownKeys !! key with
  | None => inl (ErrUnknownKey key)
  | Some _ =>
      if bool_decide (key = KeyRegion) then
        let value := Strings.ToLower mapLower value in
        if negb (bool_decide (value = "us")) && negb (bool_decide (value = "eu"))
           && negb (bool_decide (value = "in"))
        then inl (ErrInvalidRegion value)
        else inr (<[key := value]> store)
      else inr (<[key := value]> store)
  end.
End Config.

(** ** Package [cmd] *)
Module Cmd.
Import Http.

(** What the process reads its configuration from: [viper] is the view
    [viper.GetString] gives (flags, MP_-prefixed environment variables and
    the configuration file, already merged), [environ] the environment
    [os.Getenv] reads. *)
Record Env : Type := mkEnv {
  viper : gmap string string;
  environ : gmap string string
}.

Definition GetString (env : Env) (key : string) : string :=
  default "" (viper env !! key).

Definition Getenv (env : Env) (key : string) : string :=
  default "" (environ env !! key).

Definition isDebug (env : Env) : bool :=
  bool_decide (Getenv env "MP_DEBUG" = "1").

(** The region check of [rootCmd.PersistentPreRunE]; [None] is a nil
    error. The lower-cased region is a local variable of the hook. *)
Definition PersistentPreRunE (mapLower : string -> string) (env : Env)
    : option error :=
  let region := GetString env "region" in
  if negb (bool_decide (region = "")) then
    let region := Strings.ToLower mapLower region in
    if negb (bool_decide (region = "us")) && negb (bool_decide (region = "eu"))
       && negb (bool_decide (region = "in"))
    then Some (ErrInvalidRegion region)
    else None
  else None.

Definition requireProjectID (env : Env) : error + string :=
  let pid := GetString env "project_id" in
  if bool_decide (pid = "") then inl ErrProjectIDRequired else inr pid.

Definition addProjectID (env : Env) (params : Values) : error + Values :=
  match requireProjectID env with
  | inl err => inl err
  | inr pid => inr (Set_ params "project_id" pid)
  end.

Definition readResponseBody (body : string + string) (statusCode : Z)
    : error + string :=
  match body with
  | inl cause => inl (ErrReadingBody cause)
  | inr bytes =>
      (* the message holds strings.TrimSpace of the body *)
      if 400 <=? statusCode then inl (ErrAPI statusCode bytes)
      else inr bytes
  end.

Section WithNet.
Variable b64 : string -> string.
Variable encode : Values -> string.
Variable newRequestErr : string -> string -> option string.
Variable roundTrip : nat -> Request -> string + Response.

Definition newClient (env : Env) : error + Client.Client :=
  let sa := GetString env "service_account" in
  let ss := GetString env "service_secret" in
  let token := Getenv env "MP_TOKEN" in
  let creds :=
    if negb (bool_decide (token = "")) then
      match Strings.SplitN2 token ":" with
      | [account; secret] =>
          if bool_decide (account = "") || bool_decide (secret = "")
          then inl ErrTokenFormat
          else inr (account, secret)
      | _ => inl ErrTokenFormat
      end
    else inr (sa, ss) in
  match creds with
  | inl err => inl err
  | inr (sa, ss) =>
      let region := GetString env "region" in
      let region := if bool_decide (region = "") then Urls.RegionUS else region in
      let projectID := GetString env "project_id" in
      Client.New b64 sa ss region projectID (isDebug env)
  end.

(** *** Auto-pagination over the Engage API *)

(** A profile is a [map[string]any]; the loop only counts and slices. *)
Variable Profile : Type.

Record engageResponse : Type := mkEngage {
  Page : Z;
  PageSize : Z;
  SessionID : string;
  EStatus : string;
  Total : Z;
  Results : list Profile
}.

(** [json.Unmarshal] into an [engageResponse]; [None] is its error. *)
Variable unmarshal : string -> option engageResponse.
(** [toJSONArray (splitCSV s)] *)
Variable csvToJSONArray : string -> string.
(** [json.Marshal(map[string]int{"id": cohortID})] *)
Variable cohortToJSON : Z -> string.

(** The variables of the loop. *)
Record PageState : Type := mkState {
  allResults : list Profile;
  sessionID : string;
  page : Z;
  totalFromAPI : Z
}.

Definition initState : PageState := mkState [] "" 0 (-1).

(** What the command hands to its renderer: total and results. *)
Definition Combined : Type := (Z * list Profile)%type.

Definition pageParams (baseParams : Values) (st : PageState) : Values :=
  let params := Set_ baseParams "page" (pretty (page st)) in
  if negb (bool_decide (sessionID st = "")) then
    Set_ params "session_id" (sessionID st)
  else params.

Definition len (l : list Profile) : Z := Z.of_nat (length l).

(** The [for { ... }] loop shared, line for line, by [runProfilesQuery]
    and [runProfilesGroups]; [what] is the one word their messages
    differ in. [None]: the fuel ran out with the loop still going. *)
Fixpoint paginate (fuel : nat) (c : Client.Client) (what : string)
    (baseParams : Values) (limit pageSize : Z) (st : PageState)
    : M (option (error + Combined)) :=
  match fuel with
  | O => ret None
  | S fuel' =>
      let params := pageParams baseParams st in
      let* r := Client.Post encode newRequestErr roundTrip c
                  Urls.APIFamilyQuery "/engage" params in
      match r with
      | inl err => ret (Some (inl (ErrQuerying what (page st) err)))
      | inr None => ret (Some (inl ErrNilResponse))
      | inr (Some resp) =>
          match readResponseBody (Body resp) (StatusCode resp) with
          | inl err => ret (Some (inl err))
          | inr body =>
              match unmarshal body with
              | None => ret (Some (inl (ErrParsing what)))
              | Some pageResp =>
                  if negb (bool_decide (EStatus pageResp = "ok"))
                     && negb (bool_decide (EStatus pageResp = ""))
                  then ret (Some (inl (ErrEngageStatus (EStatus pageResp))))
                  else
                    let all := (allResults st ++ Results pageResp)%list in
                    let sid := SessionID pageResp in
                    let total := if totalFromAPI st <? 0 then Total pageResp
                                 else totalFromAPI st in
                    if (0 <? limit) && (limit <=? len all)
                    then ret (Some (inr (total, take (Z.to_nat limit) all)))
                    else if total <=? len all
                    then ret (Some (inr (total, all)))
                    else if len (Results pageResp) <? pageSize
                    then ret (Some (inr (total, all)))
                    else paginate fuel' c what baseParams limit pageSize
                           (mkState all sid (page st + 1) total)
              end
          end
      end
  end.

Definition setIf (cond : bool) (params : Values) (key value : string) : Values :=
  if cond then Set_ params key value else params.

Definition runProfilesQuery (fuel : nat) (env : Env)
    (where_ distinctID distinctIDs properties : string)
    (cohortID limit pageSize : Z) : M (option (error + Combined)) :=
  if (pageSize <? 1) || (1000 <? pageSize) then ret (Some (inl ErrPageSize))
  else
    match newClient env with
    | inl err => ret (Some (inl err))
    | inr c =>
        match addProjectID env ∅ with
        | inl err => ret (Some (inl err))
        | inr baseParams =>
            let baseParams :=
              setIf (negb (bool_decide (where_ = ""))) baseParams "where" where_ in
            let baseParams :=
              setIf (negb (bool_decide (distinctID = ""))) baseParams
                "distinct_id" distinctID in
            let baseParams :=
              setIf (negb (bool_decide (distinctIDs = ""))) baseParams
                "distinct_ids" (csvToJSONArray distinctIDs) in
            let baseParams :=
              setIf (negb (bool_decide (properties = ""))) baseParams
                "output_properties" (csvToJSONArray properties) in
            let baseParams :=
              setIf (0 <? cohortID) baseParams
                "filter_by_cohort" (cohortToJSON cohortID) in
            let baseParams := Set_ baseParams "page_size" (pretty pageSize) in
            paginate fuel c "profiles" baseParams limit pageSize initState
        end
    end.

Definition runProfilesGroups (fuel : nat) (env : Env)
    (groupKey where_ properties : string) (limit pageSize : Z)
    : M (option (error + Combined)) :=
  if (pageSize <? 1) || (1000 <? pageSize) then ret (Some (inl ErrPageSize))
  else
    match newClient env with
    | inl err => ret (Some (inl err))
    | inr c =>
        match addProjectID env ∅ with
        | inl err => ret (Some (inl err))
        | inr baseParams =>
            let baseParams := Set_ baseParams "data_group_id" groupKey in
            let baseParams :=
              setIf (negb (bool_decide (where_ = ""))) baseParams "where" where_ in
            let baseParams :=
              setIf (negb (bool_decide (properties = ""))) baseParams
                "output_properties" (csvToJSONArray properties) in
            let baseParams := Set_ baseParams "page_size" (pretty pageSize) in
            paginate fuel c "group profiles" baseParams limit pageSize initState
        end
    end.
End WithNet.

Arguments mkEngage {Profile}.
Arguments Page {Profile}.
Arguments PageSize {Profile}.
Arguments SessionID {Profile}.
Arguments EStatus {Profile}.
Arguments Total {Profile}.
Arguments Results {Profile}.
Arguments mkState {Profile}.
Arguments allResults {Profile}.
Arguments sessionID {Profile}.
Arguments page {Profile}.
Arguments totalFromAPI {Profile}.
Arguments initState {Profile}.
Arguments pageParams {Profile}.
Arguments len {Profile}.
End Cmd.

(** ** Vocabulary for the MP_TOKEN override *)
Module Token.
Fixpoint occurs (c : ascii) (s : string) : bool :=
  match s with
  | EmptyString => false
  | String c' s' => bool_decide (c' = c) || occurs c s'
  end.

(** No colon at all, nothing before the first colon, or nothing after it. *)
Definition malformed (token : string) : Prop :=
  occurs ":" token = false \/
  (exists secret, token = String ":" secret) \/
  (exists account, occurs ":" account = false /\ token = account ++ ":").

(** [account], without colon, then a colon, then [secret]; neither empty. *)
Definition wellFormed (token account secret : string) : Prop :=
  token = account ++ String ":" secret /\
  occurs ":" account = false /\ account <> "" /\ secret <> "".

(** Credentials are at hand: MP_TOKEN is empty or unset and the configured
    service_account and service_secret are both set, or MP_TOKEN is well
    formed and they are its two parts. *)
Definition credentials (env : Cmd.Env) (account secret : string) : Prop :=
  (Cmd.Getenv env "MP_TOKEN" = "" /\
   account = Cmd.GetString env "service_account" /\
   secret = Cmd.GetString env "service_secret" /\
   account <> "" /\ secret <> "") \/
  wellFormed (Cmd.Getenv env "MP_TOKEN") account secret.
End Token.

(** ** Vocabulary for the runs of the pagination loop

    These definitions describe what one turn of the loop of [Cmd.paginate]
    meets; they are tied to the loop by the lemmas [paginate_on_page] and
    [paginate_after_pages] below. *)
Module Paging.
Import Http Cmd.

Section WithNet.
Variable encode : Values -> string.
Variable newRequestErr : string -> string -> option string.
Variable roundTrip : nat -> Request -> string + Response.
Variable Profile : Type.
Variable unmarshal : string -> option (engageResponse Profile).
Variable c : Client.Client.
Variable baseParams : Values.
Variable limit pageSize : Z.

(** The turn taken in state [st] and world [w] sends its request,
    reads a body with a status below 400 and decodes it to the
    envelope [e]; [w1] is the world once [Client.Post] has returned. *)
Definition fetched (st : PageState Profile) (w : World)
    (e : engageResponse Profile) (w1 : World) : Prop :=
  exists resp body,
    Client.Post encode newRequestErr roundTrip c Urls.APIFamilyQuery
      "/engage" (pageParams baseParams st) w = (inr (Some resp), w1) /\
    readResponseBody (Body resp) (StatusCode resp) = inr body /\
    unmarshal body = Some e.

Definition statusOK (e : engageResponse Profile) : Prop :=
  EStatus e = "ok" \/ EStatus e = "".

(** The accumulator and the total once the page [e] is appended. *)
Definition appended (st : PageState Profile) (e : engageResponse Profile)
    : list Profile :=
  (allResults st ++ Results e)%list.

Definition totalAfter (st : PageState Profile) (e : engageResponse Profile) : Z :=
  if totalFromAPI st <? 0 then Total e else totalFromAPI st.

Definition nextState (st : PageState Profile) (e : engageResponse Profile)
    : PageState Profile :=
  mkState (appended st e) (SessionID e) (page st + 1) (totalAfter st e).

(** None of the three stop conditions holds after the page [e]. *)
Definition goesOn (st : PageState Profile) (e : engageResponse Profile) : Prop :=
  ~ (0 < limit /\ limit <= len (appended st e)) /\
  len (appended st e) < totalAfter st e /\
  pageSize <= len (Results e).

(** [pagesSeen n st w st' w']: starting in state [st] and world [w], the
    loop takes [n] turns, each on a page with an accepted status after
    which it goes on, and stands in state [st'] and world [w']. *)
Inductive pagesSeen : nat -> PageState Profile -> World ->
    PageState Profile -> World -> Prop :=
| seen_none st w : pagesSeen 0 st w st w
| seen_more n st w e w1 st' w' :
    fetched st w e w1 -> statusOK e -> goesOn st e ->
    pagesSeen n (nextState st e) w1 st' w' ->
    pagesSeen (S n) st w st' w'.

(** From the exchange numbered [k] on, every page the server serves
    holds fewer records than the page size. *)
Definition shortPagesFrom (k : nat) : Prop :=
  forall i req resp body e,
    (k <= i)%nat -> roundTrip i req = inr resp ->
    readResponseBody (Body resp) (StatusCode resp) = inr body ->
    unmarshal body = Some e ->
    len (Results e) < pageSize.
End WithNet.

Arguments fetched encode newRequestErr roundTrip {Profile}.
Arguments statusOK {Profile}.
Arguments appended {Profile}.
Arguments totalAfter {Profile}.
Arguments nextState {Profile}.
Arguments goesOn {Profile}.
Arguments pagesSeen encode newRequestErr roundTrip {Profile}.
Arguments shortPagesFrom roundTrip {Profile}.
End Paging.

(** ** Concrete inputs used by the examples below *)
Module Samples.
Import Http.

(** A 429 response with the given [Retry-After] values. *)
Definition throttled (retryAfter : list string) : Response :=
  mkResponse 429 "429 Too Many Requests"
    (match retryAfter with
     | [] => ∅
     | _ => {[ "Retry-After" := retryAfter ]}
     end)
    (inr "").

Definition ok200 (body : string) : Response :=
  mkResponse 200 "200 OK" ∅ (inr body).

(** A client as [New] builds it for the account "svc", secret "s3cret". *)
Definition client : Client.Client :=
  Client.mkClient "svc:s3cret" "us" "42" false (Int64.mul 120 Time.Second).

(** Stand-ins for the library functions: no base64 and no escaping. *)
Definition b64 (s : string) : string := s.

Definition encode (v : Values) : string :=
  String.concat "&"
    (map (fun kv => fst kv ++ "=" ++ String.concat "," (snd kv)) (map_to_list v)).

Definition anyRequest (method url : string) : option string := None.

(** A server that throttles every request. *)
Definition alwaysThrottled (i : nat) (req : Request) : string + Response :=
  inr (throttled ["1"]).

(** A server that answers the i-th request with the i-th body, status 200,
    and refuses the connection afterwards. *)
Definition script (bodies : list string) (i : nat) (req : Request)
    : string + Response :=
  match nth_error bodies i with
  | Some body => inr (ok200 body)
  | None => inl "connection refused"
  end.

(** Pages of profiles, here plain numbers. *)
Definition pageOf (n : nat) (total : Z) (status : string)
    : Cmd.engageResponse nat :=
  Cmd.mkEngage 0 100 "s1" status total (seq 0 n).

Definition unmarshal (body : string) : option (Cmd.engageResponse nat) :=
  if bool_decide (body = "full") then Some (pageOf 100 250 "ok")
  else if bool_decide (body = "short") then Some (pageOf 50 250 "ok")
  else if bool_decide (body = "lonely") then Some (pageOf 50 0 "ok")
  else if bool_decide (body = "failed") then Some (pageOf 0 250 "error")
  else None.

Definition baseParams : Values :=
  Set_ (Set_ ∅ "project_id" "42") "page_size" "100".

(** Configurations. *)
Definition configured (region token : string) : Cmd.Env :=
  Cmd.mkEnv
    (list_to_map [("service_account", "svc"); ("service_secret", "s3cret");
                  ("project_id", "42"); ("region", region)])
    (list_to_map [("MP_TOKEN", token)]).
End Samples.

(** ** Byte strings: slicing, [strings.Split], [strings.Join],
    [strings.TrimSpace] *)
Module Str.
(** [s[:n]] and [s[n:]] for [n] up to the length of [s] *)
Fixpoint take (n : nat) (s : string) : string :=
  match n, s with
  | S n', String c s' => String c (take n' s')
  | _, _ => EmptyString
  end.

Fixpoint drop (n : nat) (s : string) : string :=
  match n, s with
  | S n', String _ s' => drop n' s'
  | _, _ => s
  end.

Fixpoint rev (s : string) : string :=
  match s with
  | EmptyString => EmptyString
  | String c s' => rev s' ++ String c EmptyString
  end.

(** [strings.CutPrefix] and [strings.CutSuffix]: what is left of [s]
    without the prefix (suffix) [p], if [s] has it. *)
Fixpoint stripPrefix (p s : string) : option string :=
  match p, s with
  | EmptyString, _ => Some s
  | String a p', String b s' =>
      if bool_decide (a = b) then stripPrefix p' s' else None
  | String _ _, EmptyString => None
  end.

Definition stripSuffix (p s : string) : option string :=
  option_map rev (stripPrefix (rev p) (rev s)).

(** [strings.Split(s, sep)] for a one-byte separator; the empty string
    gives one empty part. *)
Fixpoint Split (sep : ascii) (s : string) : list string :=
  match s with
  | EmptyString => [EmptyString]
  | String c s' =>
      if bool_decide (c = sep) then EmptyString :: Split sep s'
      else
        match Split sep s' with
        | part :: parts => String c part :: parts
        | [] => [String c EmptyString]
        end
  end.

(** [strings.Join(parts, sep)] *)
Definition Join (parts : list string) (sep : string) : string :=
  String.concat sep parts.

Definition bytes (codes : list N) : string :=
  string_of_list_ascii (map ascii_of_N codes).

(** The UTF-8 encodings of the code points [unicode.IsSpace] accepts:
    tab, line feed, vertical tab, form feed, carriage return, space,
    U+0085, U+00A0, U+1680, U+2000 to U+200A, U+2028, U+2029, U+202F,
    U+205F and U+3000. *)
Definition spaces : list string :=
  map bytes
    [ [9]; [10]; [11]; [12]; [13]; [32];
      [194; 133]; [194; 160]; [225; 154; 128];
      [226; 128; 128]; [226; 128; 129]; [226; 128; 130]; [226; 128; 131];
      [226; 128; 132]; [226; 128; 133]; [226; 128; 134]; [226; 128; 135];
      [226; 128; 136]; [226; 128; 137]; [226; 128; 138];
      [226; 128; 168]; [226; 128; 169]; [226; 128; 175];
      [226; 129; 159]; [227; 128; 128] ]%N.

(** The first of the results [f p] that is defined. *)
Fixpoint firstOf {A} (f : string -> option A) (ps : list string) : option A :=
  match ps with
  | [] => None
  | p :: ps' => match f p with Some a => Some a | None => firstOf f ps' end
  end.

(** [s] without one leading (trailing) white space rune, if it has one. *)
Definition leadingSpace (s : string) : option string :=
  firstOf (fun sp => stripPrefix sp s) spaces.

Definition trailingSpace (s : string) : option string :=
  firstOf (fun sp => stripSuffix sp s) spaces.

Fixpoint trimLeftN (fuel : nat) (s : string) : string :=
  match fuel with
  | O => s
  | S fuel' =>
      match leadingSpace s with
      | Some rest => trimLeftN fuel' rest
      | None => s
      end
  end.

Fixpoint trimRightN (fuel : nat) (s : string) : string :=
  match fuel with
  | O => s
  | S fuel' =>
      match trailingSpace s with
      | Some rest => trimRightN fuel' rest
      | None => s
      end
  end.

(** [strings.TrimSpace]: every rune removed takes at least one byte, so
    the length of the string is fuel enough. *)
Definition TrimSpace (s : string) : string :=
  let s := trimLeftN (String.length s) s in
  trimRightN (String.length s) s.
End Str.

(** ** [stringReaderType]: the body reader of [Client.do] *)
Module Reader.
(** [Read] on a reader holding [s], with a buffer of [room] bytes: the
    bytes copied into the buffer, whether [io.EOF] is returned, and what
    the reader holds afterwards. The count returned is the number of bytes
    copied. *)
Definition Read (s : string) (room : nat) : string * bool * string :=
  let n := Nat.min room (String.length s) in
  let rest := Str.drop n s in
  (Str.take n s, bool_decide (String.length rest = 0%nat), rest).

(** Reads with buffers of the given sizes, one after the other, until
    [io.EOF] is returned or the sizes are used up: the bytes gathered,
    whether [io.EOF] was seen, and what the reader still holds. *)
Fixpoint readWith (rooms : list nat) (s : string) : string * bool * string :=
  match rooms with
  | [] => (EmptyString, false, s)
  | room :: rooms' =>
      match Read s room with
      | (chunk, true, rest) => (chunk, true, rest)
      | (chunk, false, rest) =>
          match readWith rooms' rest with
          | (more, eof, rest') => (chunk ++ more, eof, rest')
          end
      end
  end.
End Reader.

(** ** Package [config]: reading and listing *)
Module ConfigView.
Definition sensitiveKeys : gmap string bool :=
  list_to_map [(Config.KeyServiceSecret, true)].

(** [KnownKeyNames] *)
Definition KnownKeyNames : list string :=
  [Config.KeyProjectID; Config.KeyRegion; Config.KeyServiceAccount;
   Config.KeyServiceSecret].

(** [Config.Get]: the value viper holds, the empty string when unset.
    viper folds the case of a key and reads a dot in it as a path; the
    keys of the package are lower-case and have no dot, and the map is
    meant for these. *)
Definition Get (store : gmap string string) (key : string) : string :=
  default "" (store !! key).

(** How [Config.Set] fails: refused by its checks, or in [c.write()] with
    the error of [viper.WriteConfigAs]. *)
Inductive setError : Type :=
| Refused (err : error)
| WriteFailed (cause : string).

(** [Config.Set] with its last line, [return c.write()]: [write] is what
    writing the settings to the file gives, [None] for success. The value
    is set in viper before the file is written, and it stays set when the
    write fails. *)
Definition Set_ (mapLower : string -> string)
    (write : gmap string string -> option string)
    (store : gmap string string) (key value : string)
    : option setError * gmap string string :=
  match Config.Set_ mapLower store key value with
  | inl err => (Some (Refused err), store)
  | inr store' => (option_map WriteFailed (write store'), store')
  end.

(** [mask]: the first four bytes followed by four stars. *)
Definition mask (s : string) : string :=
  if (String.length s <=? 4)%nat then "****"
  else Str.take 4 s ++ "****".

Record Entry : Type := mkEntry { Key : string; Value : string }.

(** [Config.List]: the body of its loop for one key, then the loop. *)
Definition listKey (store : gmap string string) (key : string) : list Entry :=
  let val := Get store key in
  if bool_decide (val = "") then []
  else
    let val := if default false (sensitiveKeys !! key) then mask val else val in
    [mkEntry key val].

Definition List (store : gmap string string) : list Entry :=
  flat_map (listKey store) KnownKeyNames.
End ConfigView.

(** ** Package [output]: field filters *)
Module Output.
Section WithValues.
(** The values of a decoded JSON object. *)
Variable V : Type.

(** The loop [for _, f := range fields] over a fresh map. *)
Definition pick (data : gmap string V) (fields : list string) : gmap string V :=
  foldl (fun filtered f =>
           match data !! f with
           | Some val => <[f := val]> filtered
           | None => filtered
           end) ∅ fields.

Definition FilterFieldsSingle (data : gmap string V) (fields : list string)
    : gmap string V :=
  match fields with
  | [] => data
  | _ => pick data fields
  end.

Definition FilterFields (data : list (gmap string V)) (fields : list string)
    : list (gmap string V) :=
  match fields with
  | [] => data
  | _ => map (fun item => pick item fields) data
  end.
End WithValues.

Arguments pick {V}.
Arguments FilterFieldsSingle {V}.
Arguments FilterFields {V}.
End Output.

(** ** Package [cmd]: [splitCSV] and the activity command *)
Module CmdMore.
Import Http.

Definition splitCSV (s : string) : list string :=
  if bool_decide (s = "") then []
  else filter (fun p => p <> "") (map Str.TrimSpace (Str.Split "," s)).

(** The errors of [runActivity]: its own, and those it passes on. *)
Inductive activityError : Type :=
| ActNoIDs                         (* "`--distinct-ids` must specify at least one ID" *)
| ActQuerying (cause : error)      (* "querying activity stream: %w" *)
| ActParsing                       (* "parsing activity response: %w" *)
| ActNilResponse                   (* the panic on reading a nil *http.Response *)
| ActPassed (err : error).         (* returned as it came *)

Section WithNet.
Variable b64 : string -> string.
Variable encode : Values -> string.
Variable newRequestErr : string -> string -> option string.
Variable roundTrip : nat -> Request -> string + Response.
(** [toJSONArray], that is [json.Marshal] of a string slice *)
Variable toJSONArray : list string -> string.
(** What [json.Unmarshal] makes of the body; [None] is its error. *)
Variable Result : Type.
Variable unmarshal : string -> option Result.

(** [runActivity] up to the value it hands to its renderer. *)
Definition runActivity (env : Cmd.Env) (distinctIDs from to : string)
    : M (activityError + Result) :=
  match Cmd.newClient b64 env with
  | inl err => ret (inl (ActPassed err))
  | inr c =>
      let ids := splitCSV distinctIDs in
      if bool_decide (length ids = 0%nat) then ret (inl ActNoIDs)
      else
        match Cmd.addProjectID env ∅ with
        | inl err => ret (inl (ActPassed err))
        | inr params =>
            let params := Set_ params "distinct_ids" (toJSONArray ids) in
            let params := Set_ params "from_date" from in
            let params := Set_ params "to_date" to in
            let* r := Client.Get encode newRequestErr roundTrip c
                        Urls.APIFamilyQuery "/stream/query" params in
            match r with
            | inl err => ret (inl (ActQuerying err))
            | inr None => ret (inl ActNilResponse)
            | inr (Some resp) =>
                match Cmd.readResponseBody (Body resp) (StatusCode resp) with
                | inl err => ret (inl (ActPassed err))
                | inr body =>
                    match unmarshal body with
                    | None => ret (inl ActParsing)
                    | Some result => ret (inr result)
                    end
                end
            end
        end
  end.
End WithNet.
End CmdMore.

(** ** Vocabulary for comma-separated lists *)
Module Csv.
(** A part as [splitCSV] returns them: not empty, without comma, without
    white space at either end. *)
Definition clean (p : string) : Prop :=
  p <> "" /\ Token.occurs "," p = false /\
  Str.leadingSpace p = None /\ Str.trailingSpace p = None.

(** A comma or one of the six ASCII white space bytes. *)
Definition asciiSpace (c : ascii) : bool :=
  bool_decide (c ∈ map ascii_of_N [9; 10; 11; 12; 13; 32]%N).

Definition blankByte (c : ascii) : bool :=
  bool_decide (c = ","%char) || asciiSpace c.

Fixpoint allBytes (ok : ascii -> bool) (s : string) : bool :=
  match s with
  | EmptyString => true
  | String c s' => ok c && allBytes ok s'
  end.

(** Made of commas and ASCII white space only. *)
Definition blank (s : string) : bool := allBytes blankByte s.
End Csv.

(** ** More concrete inputs *)
Module MoreSamples.
Import Http.

(** A server that throttles the first request and answers the others. *)
Definition throttledOnce (i : nat) (req : Request) : string + Response :=
  match i with
  | O => inr (Samples.throttled ["3"])
  | S _ => inr (Samples.ok200 "done")
  end.

(** A server that answers every request with the status given. *)
Definition answering (status : Z) (i : nat) (req : Request) : string + Response :=
  inr (mkResponse status "" ∅ (inr "sorry")).

Definition store : gmap string string :=
  list_to_map [("project_id", "42"); ("service_account", "svc");
               ("service_secret", "s3cr3t-value")].

(** A rune mapping for the samples. On a capital I with dot above
    (U+0130, the bytes C4 B0) followed by ASCII it gives what
    [Map(unicode.ToLower, s)] gives: "i", then the rest in lower case.
    The samples hand it no other string that is not ASCII. *)
Definition dottedI (s : string) : string :=
  match Str.stripPrefix (Str.bytes [196; 176]%N) s with
  | Some rest => String "i" (Strings.lowerASCII rest)
  | None => s
  end.
End MoreSamples.

(** ** Package [output]: tab-separated tables *)
Module Table.
Definition tab : ascii := ascii_of_N 9.
Definition newline : ascii := ascii_of_N 10.

(** [fmt.Fprintln(w, strings.Join(cells, "\t"))]: the bytes written *)
Definition line (cells : list string) : string :=
  Str.Join cells (String tab "") ++ String newline "".

(** [printTSV]: the bytes written, the header line first. *)
Definition printTSV (headers : list string) (rows : list (list string)) : string :=
  line headers ++ String.concat "" (map line rows).

(** [PrintTable]: tab-separated values unless the output is a terminal,
    where the table writer of the library, [render], lays the table out. *)
Definition PrintTable (render : list string -> list (list string) -> string)
    (headers : list string) (rows : list (list string)) (isTTY : bool) : string :=
  if negb isTTY then printTSV headers rows else render headers rows.

(** A row that tab-separated text can carry: at least one cell, and no
    tab or line feed inside a cell. *)
Definition plain (cells : list string) : Prop :=
  cells <> [] /\
  forall cell, cell ∈ cells ->
    Token.occurs tab cell = false /\ Token.occurs newline cell = false.
End Table.

(** ** Package [cmd]: [discoverKeyProperties] of the activity command *)
Module Activity.
Section WithNumbers.
(** JSON numbers are decoded to float64; nothing here looks into them. *)
Variable number : Type.

(** What [json.Unmarshal] puts into an [any]. *)
Inductive json : Type :=
| JNull
| JBool (b : bool)
| JNumber (x : number)
| JString (s : string)
| JArray (items : list json)
| JObject (fields : gmap string json).

Definition exclude : gmap string bool :=
  list_to_map [("time", true); ("distinct_id", true); ("$distinct_id", true);
               ("$import", true); ("$insert_id", true);
               ("mp_processing_time_ms", true)].

(** [exclude[k]] *)
Definition excluded (k : string) : bool := default false (exclude !! k).

(** The two type assertions on an event: it is an object whose
    "properties" is an object. *)
Definition properties (ev : json) : option (gmap string json) :=
  match ev with
  | JObject fields =>
      match fields !! "properties" with
      | Some (JObject props) => Some props
      | _ => None
      end
  | _ => None
  end.

(** [for k := range props { if !exclude[k] { propCount[k]++ } }] *)
Definition countProps (props : gmap string json) (propCount : gmap string nat)
    : gmap string nat :=
  map_fold (fun k _ acc =>
              if excluded k then acc
              else <[k := S (default 0%nat (acc !! k))]> acc)
           propCount props.

(** The loop over the first 20 events. *)
Definition scan (events : list json) : gmap string nat :=
  foldl (fun propCount ev =>
           match properties ev with
           | Some props => countProps props propCount
           | None => propCount
           end) ∅ (take 20 events).

(** The comparison handed to [sort.Slice]: the higher count first, and
    for equal counts the smaller name first. *)
Definition less (a b : string * nat) : bool :=
  if negb (a.2 =? b.2)%nat then (b.2 <? a.2)%nat else String.ltb a.1 b.1.

(** [a] may stand before [b] in the sorted slice. *)
Definition before (a b : string * nat) : Prop := less b a = false.

Global Instance before_dec (a b : string * nat) : Decision (before a b).
Proof. unfold before. apply _. Defined.

(** The names of a map are distinct, so that [less] orders the slice
    strictly and the sorted slice is the same for every sorting method. *)
Definition freqs (events : list json) : list (string * nat) :=
  merge_sort before (map_to_list (scan events)).

Definition discoverKeyProperties (events : list json) : list string :=
  map fst (take 5 (freqs events)).

(** Whether the event has the property, and in how many of the events
    scanned it is found. *)
Definition hasProperty (name : string) (ev : json) : bool :=
  match properties ev with
  | Some props => bool_decide (is_Some (props !! name))
  | None => false
  end.

Definition frequency (name : string) (events : list json) : nat :=
  length (filter (fun ev => hasProperty name ev = true) (take 20 events)).
End WithNumbers.

Arguments JNull {number}.
Arguments JBool {number}.
Arguments JNumber {number}.
Arguments JString {number}.
Arguments JArray {number}.
Arguments JObject {number}.
Arguments properties {number}.
Arguments countProps {number}.
Arguments scan {number}.
Arguments freqs {number}.
Arguments discoverKeyProperties {number}.
Arguments hasProperty {number}.
Arguments frequency {number}.

(** An event with the given property names. *)
Definition event (names : list string) : json Z :=
  JObject {[ "event" := JString "Page View";
             "properties" := JObject (list_to_map (map (fun n => (n, JNull)) names)) ]}.
End Activity.

(** * Properties *)

(** Refutes a hypothesis [H : x ∈ l] for a closed list [l] without [x]. *)
Ltac not_listed H :=
  repeat (apply elem_of_cons in H as [H | H]; [discriminate H |]);
  by apply elem_of_nil in H.

(** ** The definitions on a few inputs *)

Example ResolveURL_samples :
  Urls.ResolveURL "query" "eu" = inr "https://eu.mixpanel.com/api/query" /\
  Urls.ResolveURL "ingestion" "in" = inr "https://api-in.mixpanel.com" /\
  Urls.ResolveURL "billing" "us" = inl (ErrUnknownFamily "billing") /\
  Urls.ResolveURL "export" "US" = inl (ErrUnknownRegion "US").
Proof. vm_compute. auto. Qed.

Example Atoi_samples :
  Strconv.Atoi "5" = Some 5 /\ Strconv.Atoi "+12" = Some 12 /\
  Strconv.Atoi "-3" = Some (-3) /\ Strconv.Atoi "007" = Some 7 /\
  Strconv.Atoi "" = None /\ Strconv.Atoi "+" = None /\
  Strconv.Atoi "1s" = None /\ Strconv.Atoi " 5" = None /\
  Strconv.Atoi "9223372036854775807" = Some 9223372036854775807 /\
  Strconv.Atoi "9223372036854775808" = None.
Proof. vm_compute. repeat split; reflexivity. Qed.

Example strings_samples :
  (forall mapLower, Strings.ToLower mapLower "US" = "us") /\
  (forall mapLower, Strings.ToLower mapLower "Eu-1" = "eu-1") /\
  (forall mapLower,
     Strings.ToLower mapLower (Str.bytes [196; 176; 78]%N)
     = mapLower (Str.bytes [196; 176; 78]%N)) /\
  Strings.SplitN2 "svc:s3:cret" ":" = ["svc"; "s3:cret"] /\
  Strings.SplitN2 "svc" ":" = ["svc"] /\
  Strings.SplitN2 ":" ":" = [""; ""].
Proof. repeat split; intros; vm_compute; reflexivity. Qed.

Example backoff_samples :
  Client.backoff 0 (Samples.throttled ["5"]) = 5000000000 /\
  Client.backoff 0 (Samples.throttled []) = 1000000000 /\
  Client.backoff 1 (Samples.throttled []) = 2000000000 /\
  Client.backoff 0 (Samples.throttled ["0"]) = 1000000000 /\
  Client.backoff 0 (Samples.throttled ["-7"]) = 1000000000.
Proof. vm_compute. repeat split; reflexivity. Qed.

(** A single page of 50 records, through the whole command. *)
Example runProfilesQuery_sample :
  fst (Cmd.runProfilesQuery Samples.b64 Samples.encode Samples.anyRequest
         (Samples.script ["lonely"]) nat Samples.unmarshal (fun s => s)
         (fun _ => "") 1 (Samples.configured "" "") "" "" "" "" 0 0 100
         Http.World0)
  = Some (inr (0, seq 0 50)).
Proof. vm_compute. reflexivity. Qed.

(** ** 64-bit arithmetic *)

Lemma wrap_in_range (z : Z) :
  Int64.min_int <= z <= Int64.max_int -> Int64.wrap z = z.
Proof.
  unfold Int64.min_int, Int64.max_int, Int64.wrap. intros Hz.
  rewrite Z.mod_small; lia.
Qed.

Lemma seconds_exact (n : Z) :
  0 <= n <= 9223372036 -> Int64.mul n Time.Second = n * Time.Second.
Proof.
  intros Hn. unfold Int64.mul. apply wrap_in_range.
  unfold Int64.min_int, Int64.max_int, Time.Second. lia.
Qed.

(** ** Endpoint resolver *)

Lemma baseURLs_unknown_family (family : string) :
  family ∉ Urls.families -> Urls.baseURLs !! family = None.
Proof.
  intros Hf. unfold Urls.baseURLs.
  apply not_elem_of_list_to_map_1. exact Hf.
Qed.

Lemma baseURLs_rows (family : string) (row : gmap string string) :
  Urls.baseURLs !! family = Some row ->
  forall region, region ∉ Urls.regions -> row !! region = None.
Proof.
  unfold Urls.baseURLs. intros Hrow region Hr.
  apply elem_of_list_to_map_2 in Hrow.
  repeat (apply elem_of_cons in Hrow as [Heq | Hrow];
          [ apply (f_equal snd) in Heq; cbn [snd] in Heq; subst row;
            apply not_elem_of_list_to_map_1; exact Hr | ]).
  by apply elem_of_nil in Hrow.
Qed.

(** Every pair of the table resolves to a URL: the table has all of its
    4 x 3 entries. *)
Lemma ResolveURL_inside_table (family region : string) :
  family ∈ Urls.families -> region ∈ Urls.regions ->
  exists url, Urls.ResolveURL family region = inr url.
Proof.
  unfold Urls.families, Urls.regions. intros Hf Hr.
  repeat (apply elem_of_cons in Hf as [-> | Hf]);
    try (by apply elem_of_nil in Hf);
    repeat (apply elem_of_cons in Hr as [-> | Hr]);
    try (by apply elem_of_nil in Hr);
    eexists; vm_compute; reflexivity.
Qed.

(** C7: a (family, region) pair outside the table of four families and
    three regions is answered by the unknown-family or the unknown-region
    error, never by a URL. *)
Theorem ResolveURL_rejects_outside_table (family region : string) :
  ~ (family ∈ Urls.families /\ region ∈ Urls.regions) ->
  Urls.ResolveURL family region = inl (ErrUnknownFamily family) \/
  Urls.ResolveURL family region = inl (ErrUnknownRegion region).
Proof.
  intros Hout.
  destruct (decide (family ∈ Urls.families)) as [Hf | Hf].
  - right. unfold Urls.ResolveURL.
    destruct (Urls.baseURLs !! family) as [row|] eqn:Hrow.
    + rewrite (baseURLs_rows family row Hrow region); [reflexivity|].
      intros Hr. apply Hout. split; assumption.
    + exfalso. destruct (ResolveURL_inside_table family Urls.RegionUS Hf) as [url Hu].
      { unfold Urls.regions. apply elem_of_cons. by left. }
      unfold Urls.ResolveURL in Hu. rewrite Hrow in Hu. discriminate.
  - left. unfold Urls.ResolveURL.
    rewrite (baseURLs_unknown_family family Hf). reflexivity.
Qed.

Lemma ResolveURL_rejects_outside_table_witness :
  (Urls.ResolveURL "billing" "us" = inl (ErrUnknownFamily "billing") \/
   Urls.ResolveURL "billing" "us" = inl (ErrUnknownRegion "us")) /\
  (Urls.ResolveURL "query" "mars" = inl (ErrUnknownFamily "query") \/
   Urls.ResolveURL "query" "mars" = inl (ErrUnknownRegion "mars")).
Proof.
  split.
  - apply (ResolveURL_rejects_outside_table "billing" "us").
    intros [Hf _]. not_listed Hf.
  - apply (ResolveURL_rejects_outside_table "query" "mars").
    intros [_ Hr]. not_listed Hr.
Defined.

(** ** Client construction *)

(** C8: with an empty account or an empty secret, [New] returns an error
    and no client, whatever the region is: the invalid-region error for a
    region that is not valid, the missing-credentials error otherwise. *)
Theorem New_fails_without_credentials
    (b64 : string -> string) (account secret region projectID : string)
    (debug : bool) :
  account = "" \/ secret = "" ->
  Client.New b64 account secret region projectID debug =
    inl (if Urls.ValidRegion region then ErrMissingCredentials
         else ErrInvalidRegion region).
Proof.
  intros Hempty. unfold Client.New.
  destruct (Urls.ValidRegion region); cbn [negb]; [|reflexivity].
  destruct Hempty as [-> | ->].
  - reflexivity.
  - rewrite (bool_decide_eq_true_2 ("" = "") eq_refl), orb_true_r. reflexivity.
Qed.

Lemma New_fails_without_credentials_witness :
  Client.New (fun s => s) "" "s3cret" "eu" "42" false = inl ErrMissingCredentials /\
  Client.New (fun s => s) "svc" "" "mars" "42" true = inl (ErrInvalidRegion "mars").
Proof.
  split.
  - apply (New_fails_without_credentials (fun s => s) "" "s3cret" "eu" "42" false).
    left. reflexivity.
  - apply (New_fails_without_credentials (fun s => s) "svc" "" "mars" "42" true).
    right. reflexivity.
Defined.

(** ** Backoff *)

Lemma pow2Duration_exact (attempt : Z) :
  0 <= attempt <= 33 ->
  Int64.mul (Client.pow2Duration attempt) Time.Second = 2 ^ attempt * Time.Second.
Proof.
  intros Ha. unfold Client.pow2Duration, Client.baseBackoffSec.
  destruct (Z.ltb_spec attempt 0) as [|_]; [lia|].
  destruct (Z.ltb_spec attempt 63) as [_|]; [|lia].
  rewrite Z.mul_1_r. apply seconds_exact.
  assert (2 ^ attempt <= 2 ^ 33) by (apply Z.pow_le_mono_r; lia).
  assert (0 < 2 ^ attempt) by (apply Z.pow_pos_nonneg; lia).
  change (2 ^ 33) with 8589934592 in *. lia.
Qed.

(** C1, as the spec states it, fails where the wait does not fit a
    [time.Duration]: a [Retry-After] of 9223372037 seconds parses as a
    positive integer but yields a negative wait, and at attempt 34 the
    exponential wait is negative as well. *)
Lemma backoff_overflows :
  Strconv.Atoi "9223372037" = Some 9223372037 /\
  Client.backoff 0 (Samples.throttled ["9223372037"]) = -9223372036709551616 /\
  Client.backoff 0 (Samples.throttled ["9223372037"]) <> 9223372037 * Time.Second /\
  Client.backoff 34 (Samples.throttled []) <> 2 ^ 34 * Time.Second.
Proof.
  repeat split; try (vm_compute; reflexivity); vm_compute; discriminate.
Qed.

(** C1 (amended): when [Retry-After] parses as a positive integer [n] of at
    most 9223372036, the wait is exactly [n] seconds; when it is absent or
    does not parse as a positive integer, the wait at attempt [k], for
    [0 <= k <= 33], is exactly [2^k] seconds. *)
Theorem backoff_wait (attempt : Z) (resp : Http.Response) :
  let ra := Http.Get (Http.RespHeader resp) "Retry-After" in
  (forall n, Strconv.Atoi ra = Some n -> 0 < n <= 9223372036 ->
     Client.backoff attempt resp = n * Time.Second) /\
  ((forall n, Strconv.Atoi ra = Some n -> n <= 0) -> 0 <= attempt <= 33 ->
     Client.backoff attempt resp = 2 ^ attempt * Time.Second).
Proof.
  intros ra. unfold Client.backoff. fold ra. split.
  - intros n Hn Hpos.
    destruct (bool_decide (ra = "")) eqn:Hra.
    + apply bool_decide_eq_true_1 in Hra. rewrite Hra in Hn. discriminate Hn.
    + rewrite Hn. destruct (Z.ltb_spec 0 n) as [_|]; [|lia].
      apply seconds_exact. lia.
  - intros Hnone Ha.
    destruct (bool_decide (ra = "")); [by apply pow2Duration_exact|].
    destruct (Strconv.Atoi ra) as [secs|] eqn:Hs; [|by apply pow2Duration_exact].
    specialize (Hnone secs eq_refl).
    destruct (Z.ltb_spec 0 secs); [lia|]. by apply pow2Duration_exact.
Qed.

Lemma backoff_wait_witness :
  Client.backoff 0 (Samples.throttled ["5"]) = 5 * Time.Second /\
  Client.backoff 0 (Samples.throttled []) = 1 * Time.Second /\
  Client.backoff 1 (Samples.throttled []) = 2 * Time.Second /\
  Client.backoff 0 (Samples.throttled ["soon"]) = 1 * Time.Second.
Proof.
  split; [|split; [|split]].
  - apply (proj1 (backoff_wait 0 (Samples.throttled ["5"])) 5);
      [vm_compute; reflexivity | lia].
  - apply (proj2 (backoff_wait 0 (Samples.throttled [])));
      [intros n Hn; vm_compute in Hn; discriminate Hn | lia].
  - apply (proj2 (backoff_wait 1 (Samples.throttled [])));
      [intros n Hn; vm_compute in Hn; discriminate Hn | lia].
  - apply (proj2 (backoff_wait 0 (Samples.throttled ["soon"])));
      [intros n Hn; vm_compute in Hn; discriminate Hn | lia].
Defined.

(** ** The retry loop of [Client.do] *)
Section RetryFacts.
Import Http.
Variable encode : Values -> string.
Variable newRequestErr : string -> string -> option string.
Variable roundTrip : nat -> Request -> string + Response.

Local Abbreviation doLoop := (Client.doLoop encode newRequestErr roundTrip).
Local Abbreviation do := (Client.do encode newRequestErr roundTrip).

Lemma doLoop_unfold (fuel : nat) c method fullURL contentType form attempt body resp :
  doLoop (S fuel) c method fullURL contentType form attempt body resp =
  if negb (attempt <=? Client.maxRetries) then ret (inr resp)
  else
    match newRequestErr method fullURL with
    | Some cause => ret (inl (ErrCreatingRequest cause))
    | None =>
        let req := Client.buildRequest c method fullURL contentType body in
        Client.debugf c (DbgSend method fullURL) >>
        let* r := Client.Do roundTrip req in
        match r with
        | inl cause => ret (inl (ErrExecutingRequest cause))
        | inr resp' =>
            Client.debugf c (DbgRecv (StatusCode resp') (Status resp')) >>
            if negb (StatusCode resp' =? StatusTooManyRequests)
            then ret (inr (Some resp'))
            else if attempt <? Client.maxRetries
            then
              let wait := Client.backoff attempt resp' in
              Client.debugf c (DbgRetry wait) >>
              Client.Sleep wait >>
              let body' := if nonempty form then Some (encode form)
                           else Client.drained body in
              doLoop fuel c method fullURL contentType form (attempt + 1)
                body' (Some resp')
            else
              doLoop fuel c method fullURL contentType form (attempt + 1)
                (Client.drained body) (Some resp')
        end
    end.
Proof. reflexivity. Qed.

(** Past the last attempt the loop is left with [resp] as it stands. *)
Lemma doLoop_exit fuel c method fullURL contentType form attempt body resp w :
  Client.maxRetries < attempt ->
  doLoop fuel c method fullURL contentType form attempt body resp w = (inr resp, w).
Proof.
  intros Hlt. destruct fuel as [|fuel]; [reflexivity|].
  rewrite doLoop_unfold.
  destruct (Z.leb_spec attempt Client.maxRetries); [lia|]. reflexivity.
Qed.

(** Opens one iteration that reaches the server. *)
Ltac enter_iteration Hnew Hle :=
  rewrite doLoop_unfold;
  match type of Hle with
  | (?a <= ?m)%Z => destruct (Z.leb_spec a m); [|lia]
  end;
  cbn [negb]; rewrite Hnew; cbv zeta;
  unfold bind, ret, Client.debugf, Client.Do, Client.Sleep.

(** An answer other than 429 is returned at once. *)
Lemma doLoop_pass fuel c method fullURL contentType form attempt body resp w r :
  attempt <= Client.maxRetries ->
  newRequestErr method fullURL = None ->
  roundTrip (length (wire w))
    (Client.buildRequest c method fullURL contentType body) = inr r ->
  StatusCode r <> StatusTooManyRequests ->
  exists w1,
    doLoop (S fuel) c method fullURL contentType form attempt body resp w
      = (inr (Some r), w1) /\
    wire w1 = (wire w ++ [Client.buildRequest c method fullURL contentType body])%list /\
    slept w1 = slept w.
Proof.
  intros Hle Hnew Hrt Hst. enter_iteration Hnew Hle.
  destruct (Client.debug c); cbn; rewrite Hrt; cbn;
    (destruct (Z.eqb_spec (StatusCode r) StatusTooManyRequests) as [|_]; [done|]);
    cbn; eexists; (split; [reflexivity|]); split; reflexivity.
Qed.

(** A 429 before the last attempt: sleep for the backoff, then go round
    again with a fresh body reader. *)
Lemma doLoop_retry fuel c method fullURL contentType form attempt body resp w r :
  attempt < Client.maxRetries ->
  newRequestErr method fullURL = None ->
  roundTrip (length (wire w))
    (Client.buildRequest c method fullURL contentType body) = inr r ->
  StatusCode r = StatusTooManyRequests ->
  exists w1,
    doLoop (S fuel) c method fullURL contentType form attempt body resp w
      = doLoop fuel c method fullURL contentType form (attempt + 1)
          (if nonempty form then Some (encode form) else Client.drained body)
          (Some r) w1 /\
    wire w1 = (wire w ++ [Client.buildRequest c method fullURL contentType body])%list /\
    slept w1 = (slept w ++ [Client.backoff attempt r])%list.
Proof.
  intros Hlt Hnew Hrt Hst.
  assert (Hle : attempt <= Client.maxRetries) by lia.
  enter_iteration Hnew Hle.
  destruct (Client.debug c); cbn; rewrite Hrt; cbn; rewrite Hst; cbn;
    (destruct (Z.ltb_spec attempt Client.maxRetries); [|lia]);
    eexists; (split; [reflexivity|]); split; reflexivity.
Qed.

(** A 429 on the last attempt: no sleep, the response is returned. *)
Lemma doLoop_give_up fuel c method fullURL contentType form attempt body resp w r :
  attempt = Client.maxRetries ->
  newRequestErr method fullURL = None ->
  roundTrip (length (wire w))
    (Client.buildRequest c method fullURL contentType body) = inr r ->
  StatusCode r = StatusTooManyRequests ->
  exists w1,
    doLoop (S fuel) c method fullURL contentType form attempt body resp w
      = (inr (Some r), w1) /\
    wire w1 = (wire w ++ [Client.buildRequest c method fullURL contentType body])%list /\
    slept w1 = slept w.
Proof.
  intros Heq Hnew Hrt Hst.
  assert (Hle : attempt <= Client.maxRetries) by lia.
  enter_iteration Hnew Hle.
  destruct (Client.debug c); cbn; rewrite Hrt; cbn; rewrite Hst; cbn;
    (destruct (Z.ltb_spec attempt Client.maxRetries); [lia|]);
    rewrite doLoop_exit by lia;
    eexists; (split; [reflexivity|]); split; reflexivity.
Qed.

(** Whatever [doLoop] returns was either [resp] already (no iteration
    was run) or the answer of an exchange made by this call. *)
Lemma doLoop_served fuel c method fullURL contentType form :
  forall attempt body resp w o w',
    doLoop fuel c method fullURL contentType form attempt body resp w
      = (inr o, w') ->
    (o = resp /\ w' = w /\ (fuel = 0%nat \/ Client.maxRetries < attempt)) \/
    (exists x i req, o = Some x /\ (length (wire w) <= i)%nat /\
       (length (wire w) < length (wire w'))%nat /\ roundTrip i req = inr x).
Proof.
  induction fuel as [|fuel IH]; intros attempt body resp w o w' Hrun.
  { injection Hrun as <- <-. left. auto. }
  rewrite doLoop_unfold in Hrun.
  destruct (Z.leb_spec attempt Client.maxRetries) as [Hle|Hgt]; cbn [negb] in Hrun.
  2:{ injection Hrun as <- <-. left. auto. }
  destruct (newRequestErr method fullURL); [discriminate Hrun|].
  right. cbv zeta in Hrun.
  unfold bind, ret, Client.debugf, Client.Do, Client.Sleep in Hrun.
  set (req := Client.buildRequest c method fullURL contentType body) in *.
  assert (Hnext : forall x w1 body1,
    roundTrip (length (wire w)) req = inr x ->
    length (wire w1) = S (length (wire w)) ->
    doLoop fuel c method fullURL contentType form (attempt + 1) body1
      (Some x) w1 = (inr o, w') ->
    exists x' i req', o = Some x' /\ (length (wire w) <= i)%nat /\
      (length (wire w) < length (wire w'))%nat /\ roundTrip i req' = inr x').
  { intros x w1 body1 Hrt Hlen Hrec.
    apply IH in Hrec as [(-> & -> & _) | Hlater].
    - exists x, (length (wire w)), req. repeat split; [lia | lia | exact Hrt].
    - destruct Hlater as (x' & i & req' & -> & Hi & Hlt & Hx').
      exists x', i, req'. repeat split; [lia | lia | exact Hx']. }
  destruct (Client.debug c); cbn in Hrun;
    (destruct (roundTrip (length (wire w)) req) as [cause|x] eqn:Hrt;
     [discriminate Hrun|]);
    cbn in Hrun;
    (destruct (StatusCode x =? StatusTooManyRequests); cbn in Hrun;
     [ destruct (attempt <? Client.maxRetries);
       (eapply (Hnext x); [reflexivity| |exact Hrun]; cbn;
        rewrite length_app; cbn; lia)
     | injection Hrun as <- <-; exists x, (length (wire w)), req; cbn;
       rewrite length_app; cbn; repeat split; [lia | lia | exact Hrt] ]).
Qed.

(** [do] never returns a nil response with a nil error: a response it
    returns was served by an exchange of this call. *)
Lemma do_served c method family path query form w o w' :
  do c method family path query form w = (inr o, w') ->
  exists x i req, o = Some x /\ (length (wire w) <= i)%nat /\
    (length (wire w) < length (wire w'))%nat /\ roundTrip i req = inr x.
Proof.
  unfold Client.do. destruct (Urls.ResolveURL family (Client.region c)); [discriminate|].
  intros Hrun. apply doLoop_served in Hrun as [(_ & _ & [Hf | Hlt]) | Hs].
  - discriminate Hf.
  - unfold Client.maxRetries in Hlt. lia.
  - exact Hs.
Qed.

(** C2: when the first two exchanges of one send are both answered by 429,
    [do] makes exactly these two requests, sleeps once in between, and
    returns the second response. *)
Theorem do_gives_up_after_one_retry
    c method family path (query form : Values) base w r1 r2 :
  let fullURL := if nonempty query then base ++ path ++ "?" ++ encode query
                 else base ++ path in
  let contentType := if nonempty form then "application/x-www-form-urlencoded"
                     else "" in
  let body := if nonempty form then Some (encode form) else None in
  let req := Client.buildRequest c method fullURL contentType body in
  Urls.ResolveURL family (Client.region c) = inr base ->
  newRequestErr method fullURL = None ->
  roundTrip (length (wire w)) req = inr r1 ->
  StatusCode r1 = StatusTooManyRequests ->
  roundTrip (S (length (wire w))) req = inr r2 ->
  StatusCode r2 = StatusTooManyRequests ->
  exists w',
    do c method family path query form w = (inr (Some r2), w') /\
    wire w' = (wire w ++ [req; req])%list /\
    slept w' = (slept w ++ [Client.backoff 0 r1])%list.
Proof.
  intros fullURL contentType body req Hbase Hnew Hfirst H429 Hsecond H429'.
  unfold Client.do. rewrite Hbase. fold fullURL contentType body.
  change (Z.to_nat (Client.maxRetries + 2)) with 3%nat.
  destruct (doLoop_retry 2 c method fullURL contentType form 0 body None w r1)
    as (w1 & -> & Hwire1 & Hslept1); try assumption.
  { unfold Client.maxRetries. lia. }
  assert (Hbody : (if nonempty form then Some (encode form)
                   else Client.drained body) = body).
  { unfold body. destruct (nonempty form); reflexivity. }
  rewrite Hbody.
  destruct (doLoop_give_up 1 c method fullURL contentType form (0 + 1) body
              (Some r1) w1 r2) as (w2 & -> & Hwire2 & Hslept2); try assumption.
  { reflexivity. }
  { rewrite Hwire1, length_app. cbn [length].
    replace (length (wire w) + 1)%nat with (S (length (wire w))) by lia.
    exact Hsecond. }
  exists w2. split; [reflexivity|]. split.
  - rewrite Hwire2, Hwire1, <- app_assoc. reflexivity.
  - rewrite Hslept2, Hslept1. reflexivity.
Qed.
End RetryFacts.

(** ** The pagination loop *)
Section PaginationFacts.
Import Http Cmd Paging.
Variable encode : Values -> string.
Variable newRequestErr : string -> string -> option string.
Variable roundTrip : nat -> Request -> string + Response.
Variable Profile : Type.
Variable unmarshal : string -> option (engageResponse Profile).
Variable c : Client.Client.
Variable what : string.
Variable baseParams : Values.

Local Abbreviation paginate :=
  (Cmd.paginate encode newRequestErr roundTrip Profile unmarshal).
Local Abbreviation fetched :=
  (Paging.fetched encode newRequestErr roundTrip unmarshal c baseParams).
Local Abbreviation pagesSeen limit pageSize :=
  (Paging.pagesSeen encode newRequestErr roundTrip unmarshal c
     baseParams limit pageSize).

(** One turn of the loop on a decoded page: the status check, the
    bookkeeping and the three stop conditions, in the order of the code. *)
Lemma paginate_on_page fuel limit pageSize st w e w1 :
  fetched st w e w1 ->
  paginate (S fuel) c what baseParams limit pageSize st w =
    if negb (bool_decide (EStatus e = "ok")) && negb (bool_decide (EStatus e = ""))
    then (Some (inl (ErrEngageStatus (EStatus e))), w1)
    else if (0 <? limit) && (limit <=? len (appended st e))
    then (Some (inr (totalAfter st e,
                     take (Z.to_nat limit) (appended st e))), w1)
    else if totalAfter st e <=? len (appended st e)
    then (Some (inr (totalAfter st e, appended st e)), w1)
    else if len (Results e) <? pageSize
    then (Some (inr (totalAfter st e, appended st e)), w1)
    else paginate fuel c what baseParams limit pageSize (nextState st e) w1.
Proof.
  intros (resp & body & Hpost & Hread & Hjson).
  cbn [Cmd.paginate]. unfold bind at 1. rewrite Hpost, Hread, Hjson.
  unfold appended, totalAfter, nextState, ret.
  repeat match goal with |- context [if ?b then _ else _] =>
    destruct b; try reflexivity end.
Qed.

Lemma statusOK_check (e : engageResponse Profile) :
  statusOK e ->
  negb (bool_decide (EStatus e = "ok")) && negb (bool_decide (EStatus e = "")) = false.
Proof.
  intros [-> | ->]; reflexivity.
Qed.

Lemma paginate_goes_on fuel limit pageSize st w e w1 :
  fetched st w e w1 -> statusOK e -> goesOn limit pageSize st e ->
  paginate (S fuel) c what baseParams limit pageSize st w =
    paginate fuel c what baseParams limit pageSize (nextState st e) w1.
Proof.
  intros Hf Hok (Hcap & Htotal & Hfull).
  rewrite (paginate_on_page _ _ _ _ _ _ _ Hf), (statusOK_check _ Hok).
  destruct (Z.ltb_spec 0 limit), (Z.leb_spec limit (len (appended st e)));
    cbn [andb]; try (exfalso; apply Hcap; split; assumption);
    (destruct (Z.leb_spec (totalAfter st e) (len (appended st e)));
     [lia|]);
    (destruct (Z.ltb_spec (len (Results e)) pageSize); [lia|]); reflexivity.
Qed.

(** After [n] pages that let the loop go on, the run is where the run
    from the state and world reached would be. *)
Lemma paginate_after_pages limit pageSize n st w st' w' :
  pagesSeen limit pageSize n st w st' w' ->
  forall fuel,
    paginate (n + fuel) c what baseParams limit pageSize st w =
    paginate fuel c what baseParams limit pageSize st' w'.
Proof.
  induction 1 as [st w | n st w e w1 st' w' Hf Hok Hon _ IH]; intros fuel.
  - reflexivity.
  - cbn [Nat.add]. rewrite (paginate_goes_on _ _ _ _ _ _ _ Hf Hok Hon). apply IH.
Qed.

Lemma len_take_cap (limit : Z) (l : list Profile) :
  0 < limit -> limit <= len l -> len (take (Z.to_nat limit) l) = limit.
Proof.
  unfold len. intros Hpos Hle. rewrite length_take. lia.
Qed.

Lemma paginate_cap_turn fuel limit pageSize st w e w1 :
  fetched st w e w1 -> statusOK e ->
  0 < limit -> limit <= len (appended st e) ->
  paginate (S fuel) c what baseParams limit pageSize st w =
    (Some (inr (totalAfter st e,
                take (Z.to_nat limit) (appended st e))), w1).
Proof.
  intros Hf Hok Hpos Hcap.
  rewrite (paginate_on_page _ _ _ _ _ _ _ Hf), (statusOK_check _ Hok).
  destruct (Z.ltb_spec 0 limit); [|lia].
  destruct (Z.leb_spec limit (len (appended st e))); [|lia].
  reflexivity.
Qed.

(** C3: with a positive cap, as soon as a page brings the accumulator to
    the cap or beyond, the run ends in the world that page's request left
    (no further request) and returns the accumulator cut to exactly the
    cap. In particular, two pages of 100 records under a cap of 120 give
    the first 120 records, after the second page. *)
Theorem paginate_stops_at_cap :
  (forall limit pageSize n w0 st w e w1 fuel,
      pagesSeen limit pageSize n initState w0 st w ->
      fetched st w e w1 -> statusOK e ->
      0 < limit -> limit <= len (appended st e) ->
      paginate (n + S fuel) c what baseParams limit pageSize initState w0 =
        (Some (inr (totalAfter st e,
                    take (Z.to_nat limit) (appended st e))), w1) /\
      len (take (Z.to_nat limit) (appended st e)) = limit) /\
  (forall w0 e1 w1 e2 w2 fuel,
      fetched initState w0 e1 w1 -> statusOK e1 ->
      fetched (nextState initState e1) w1 e2 w2 -> statusOK e2 ->
      len (Results e1) = 100 -> len (Results e2) = 100 -> Total e1 = 250 ->
      paginate (2 + fuel) c what baseParams 120 100 initState w0 =
        (Some (inr (250, take 120 (Results e1 ++ Results e2))), w2) /\
      length (take 120 (Results e1 ++ Results e2)) = 120%nat).
Proof.
  split.
  - intros limit pageSize n w0 st w e w1 fuel Hseen Hf Hok Hpos Hcap. split.
    + rewrite (paginate_after_pages _ _ _ _ _ _ _ Hseen).
      by apply paginate_cap_turn.
    + by apply len_take_cap.
  - intros w0 e1 w1 e2 w2 fuel Hf1 Hok1 Hf2 Hok2 Hlen1 Hlen2 Htotal.
    unfold len in Hlen1, Hlen2. split.
    + change (2 + fuel)%nat with (S (S fuel)).
      rewrite (paginate_goes_on _ _ _ _ _ _ _ Hf1 Hok1).
      2:{ unfold goesOn, appended, totalAfter, len. cbn. rewrite Htotal. lia. }
      rewrite (paginate_cap_turn _ _ _ _ _ _ _ Hf2 Hok2).
      * unfold totalAfter, appended. cbn. rewrite Htotal. reflexivity.
      * lia.
      * unfold appended, len. cbn. rewrite length_app. lia.
    + rewrite length_take, length_app. lia.
Qed.

(** C4: when a page envelope carries a status other than "ok" and the
    empty string, the whole run fails with the status error and returns
    no records, however many pages were accumulated before. *)
Theorem paginate_fails_on_bad_status limit pageSize n w0 st w e w1 fuel :
  pagesSeen limit pageSize n initState w0 st w ->
  fetched st w e w1 ->
  EStatus e <> "ok" -> EStatus e <> "" ->
  paginate (n + S fuel) c what baseParams limit pageSize initState w0 =
    (Some (inl (ErrEngageStatus (EStatus e))), w1).
Proof.
  intros Hseen Hf Hok Hempty.
  rewrite (paginate_after_pages _ _ _ _ _ _ _ Hseen).
  rewrite (paginate_on_page _ _ _ _ _ _ _ Hf).
  rewrite (bool_decide_eq_false_2 _ Hok), (bool_decide_eq_false_2 _ Hempty).
  reflexivity.
Qed.

(** Once the server only serves short pages, the loop ends within the
    fuel given, whatever totals were reported. *)
Lemma paginate_ends_on_short_pages limit pageSize k :
  shortPagesFrom roundTrip unmarshal pageSize k ->
  forall fuel st w,
    (1 <= fuel)%nat -> (k < length (wire w) + fuel)%nat ->
    exists res w', paginate fuel c what baseParams limit pageSize st w = (Some res, w').
Proof.
  intros Hshort. induction fuel as [|fuel IH]; intros st w Hfuel Hk; [lia|].
  cbn [Cmd.paginate]. unfold bind at 1.
  destruct (Client.Post encode newRequestErr roundTrip c Urls.APIFamilyQuery
              "/engage" (pageParams baseParams st) w) as [r w1] eqn:Hpost.
  destruct r as [err | o]; [unfold ret; eauto|].
  apply do_served in Hpost as Hserved.
  destruct Hserved as (resp & i & req & -> & Hi & Hgrow & Hresp).
  destruct (readResponseBody (Body resp) (StatusCode resp)) as [err|body] eqn:Hread;
    [unfold ret; eauto|].
  destruct (unmarshal body) as [e|] eqn:Hjson; [|unfold ret; eauto].
  unfold ret.
  repeat match goal with
         | |- context [if ?b then (fun w => (Some ?x, w)) else _] =>
             destruct b eqn:?; [eauto|]
         end.
  apply IH.
  - destruct fuel as [|fuel]; [|lia]. exfalso.
    assert (Hlt : len (Results e) < pageSize).
    { apply (Hshort i req resp body e); try assumption. lia. }
    match goal with H : (len (Results e) <? pageSize) = false |- _ =>
      apply Z.ltb_ge in H; lia end.
  - lia.
Qed.

(** One turn either ends the run, with any fuel, or is a page after which
    the loop goes on. *)
Lemma paginate_turn_cases limit pageSize st w :
  (exists res w', forall fuel,
      paginate (S fuel) c what baseParams limit pageSize st w = (Some res, w')) \/
  (exists e w1,
      fetched st w e w1 /\ statusOK e /\ goesOn limit pageSize st e /\
      forall fuel,
        paginate (S fuel) c what baseParams limit pageSize st w =
        paginate fuel c what baseParams limit pageSize (nextState st e) w1).
Proof.
  destruct (Client.Post encode newRequestErr roundTrip c Urls.APIFamilyQuery
              "/engage" (pageParams baseParams st) w) as [r w1] eqn:Hpost.
  destruct r as [err | [resp|]].
  1,3: left; do 2 eexists; intros fuel; cbn [Cmd.paginate]; unfold bind at 1;
       rewrite Hpost; reflexivity.
  destruct (readResponseBody (Body resp) (StatusCode resp)) as [err|body] eqn:Hread.
  { left. do 2 eexists. intros fuel. cbn [Cmd.paginate]. unfold bind at 1.
    rewrite Hpost, Hread. reflexivity. }
  destruct (unmarshal body) as [e|] eqn:Hjson.
  2:{ left. do 2 eexists. intros fuel. cbn [Cmd.paginate]. unfold bind at 1.
      rewrite Hpost, Hread, Hjson. reflexivity. }
  assert (Hf : fetched st w e w1) by (exists resp, body; auto).
  pose proof (fun fuel => paginate_on_page fuel limit pageSize st w e w1 Hf) as Hturn.
  destruct (negb (bool_decide (EStatus e = "ok")) && negb (bool_decide (EStatus e = "")))
    eqn:Hstatus; [left; eauto|].
  destruct ((0 <? limit) && (limit <=? len (appended st e))) eqn:Hcap; [left; eauto|].
  destruct (totalAfter st e <=? len (appended st e)) eqn:Htotal; [left; eauto|].
  destruct (len (Results e) <? pageSize) eqn:Hshort; [left; eauto|].
  right. exists e, w1. split; [exact Hf|]. split; [|split; [|exact Hturn]].
  - unfold statusOK. apply andb_false_iff in Hstatus as [H | H];
      apply negb_false_iff, bool_decide_eq_true_1 in H; auto.
  - unfold goesOn. apply Z.leb_gt in Htotal. apply Z.ltb_ge in Hshort.
    split; [|split; assumption].
    intros [Hpos Hle]. apply andb_false_iff in Hcap as [H | H].
    + apply Z.ltb_ge in H. lia.
    + apply Z.leb_gt in H. lia.
Qed.

(** With a total already known, every further page that lets the loop go
    on brings the accumulator at least one record closer to it. *)
Lemma paginate_ends_below_total limit pageSize :
  1 <= pageSize ->
  forall m st w,
    0 <= totalFromAPI st ->
    totalFromAPI st - len (allResults st) <= Z.of_nat m ->
    exists res w',
      paginate (S m) c what baseParams limit pageSize st w = (Some res, w').
Proof.
  intros Hsize. induction m as [|m IH]; intros st w Hknown Hgap;
    (destruct (paginate_turn_cases limit pageSize st w)
       as [(res & w' & Hend) | (e & w1 & _ & _ & (_ & Hbelow & Hfull) & Hnext)];
     [exists res, w'; apply Hend|]);
    unfold totalAfter, appended, len in *;
    (destruct (Z.ltb_spec (totalFromAPI st) 0); [lia|]);
    rewrite length_app in Hbelow.
  - lia.
  - rewrite Hnext. apply IH; unfold nextState, totalAfter, appended, len; cbn.
    + destruct (Z.ltb_spec (totalFromAPI st) 0); lia.
    + destruct (Z.ltb_spec (totalFromAPI st) 0); [lia|].
      rewrite length_app. lia.
Qed.

(** With a page size of at least 1 the loop ends, whatever the server
    answers and whatever totals it reports. *)
Lemma paginate_always_ends limit pageSize st w :
  1 <= pageSize ->
  exists fuel res w',
    paginate fuel c what baseParams limit pageSize st w = (Some res, w').
Proof.
  intros Hsize.
  destruct (Z.ltb_spec (totalFromAPI st) 0) as [Hunknown | Hknown].
  - destruct (paginate_turn_cases limit pageSize st w)
      as [(res & w' & Hend) | (e & w1 & _ & _ & (_ & Hbelow & _) & Hnext)].
    + exists 1%nat, res, w'. apply Hend.
    + set (st1 := nextState st e).
      destruct (paginate_ends_below_total limit pageSize Hsize
                  (Z.to_nat (totalFromAPI st1 - len (allResults st1))) st1 w1)
        as (res & w' & Hend).
      * unfold st1, nextState, totalAfter. cbn.
        destruct (Z.ltb_spec (totalFromAPI st) 0); [|lia].
        unfold totalAfter in Hbelow.
        destruct (Z.ltb_spec (totalFromAPI st) 0); [|lia].
        unfold len in *. lia.
      * lia.
      * eexists (S (S _)), res, w'. rewrite Hnext. exact Hend.
  - destruct (paginate_ends_below_total limit pageSize Hsize
                (Z.to_nat (totalFromAPI st - len (allResults st))) st w)
      as (res & w' & Hend); [lia | lia |].
    eexists (S _), res, w'. exact Hend.
Qed.

(** C5: a first page of 50 records that reports a total of 0, under a page
    size of 100 and no cap, ends the run in the world its request left and
    returns the 50 records. No total makes the loop run forever: with a page
    size of at least 1 the loop ends for every server and every total
    reported, and it ends at the first short page at the latest. *)
Theorem paginate_survives_unreliable_total :
  (forall w0 e w1 fuel,
      fetched initState w0 e w1 -> statusOK e ->
      Total e = 0 -> len (Results e) = 50 ->
      paginate (S fuel) c what baseParams 0 100 initState w0 =
        (Some (inr (0, Results e)), w1)) /\
  (forall limit pageSize st w,
      1 <= pageSize ->
      exists fuel res w',
        paginate fuel c what baseParams limit pageSize st w = (Some res, w')) /\
  (forall limit pageSize k st w,
      shortPagesFrom roundTrip unmarshal pageSize k ->
      exists res w',
        paginate (S (k - length (wire w))) c what baseParams limit pageSize st w
          = (Some res, w')).
Proof.
  split; [|split].
  - intros w0 e w1 fuel Hf Hok Htotal Hlen.
    rewrite (paginate_on_page _ _ _ _ _ _ _ Hf), (statusOK_check _ Hok).
    unfold totalAfter, appended. cbn. rewrite Htotal.
    destruct (Z.leb_spec 0 (len (Results e))); [reflexivity|lia].
  - intros limit pageSize st w Hsize. by apply paginate_always_ends.
  - intros limit pageSize k st w Hshort.
    apply (paginate_ends_on_short_pages limit pageSize k Hshort); lia.
Qed.
End PaginationFacts.

(** Both commands end, whatever they are given and whatever the server
    does: the page size they accept is at least 1. *)
Lemma runProfilesQuery_ends b64 encode newRequestErr roundTrip (Profile : Type)
    (unmarshal : string -> option (Cmd.engageResponse Profile))
    csvToJSONArray cohortToJSON env where_ distinctID distinctIDs properties
    cohortID limit pageSize w :
  exists fuel res w',
    Cmd.runProfilesQuery b64 encode newRequestErr roundTrip Profile unmarshal
      csvToJSONArray cohortToJSON fuel env where_ distinctID distinctIDs
      properties cohortID limit pageSize w = (Some res, w').
Proof.
  unfold Cmd.runProfilesQuery.
  destruct (Z.ltb_spec pageSize 1); cbn [orb];
    [exists 0%nat; eexists; eexists; reflexivity|].
  destruct (Z.ltb_spec 1000 pageSize);
    [exists 0%nat; eexists; eexists; reflexivity|].
  destruct (Cmd.newClient b64 env);
    [exists 0%nat; eexists; eexists; reflexivity|].
  destruct (Cmd.addProjectID env ∅);
    [exists 0%nat; eexists; eexists; reflexivity|].
  apply paginate_always_ends. lia.
Qed.

Lemma runProfilesGroups_ends b64 encode newRequestErr roundTrip (Profile : Type)
    (unmarshal : string -> option (Cmd.engageResponse Profile))
    csvToJSONArray env groupKey where_ properties limit pageSize w :
  exists fuel res w',
    Cmd.runProfilesGroups b64 encode newRequestErr roundTrip Profile unmarshal
      csvToJSONArray fuel env groupKey where_ properties limit pageSize w
      = (Some res, w').
Proof.
  unfold Cmd.runProfilesGroups.
  destruct (Z.ltb_spec pageSize 1); cbn [orb];
    [exists 0%nat; eexists; eexists; reflexivity|].
  destruct (Z.ltb_spec 1000 pageSize);
    [exists 0%nat; eexists; eexists; reflexivity|].
  destruct (Cmd.newClient b64 env);
    [exists 0%nat; eexists; eexists; reflexivity|].
  destruct (Cmd.addProjectID env ∅);
    [exists 0%nat; eexists; eexists; reflexivity|].
  apply paginate_always_ends. lia.
Qed.

(** ** Examples of the retry and pagination theorems *)

Lemma do_gives_up_after_one_retry_witness :
  exists w',
    Client.do Samples.encode Samples.anyRequest Samples.alwaysThrottled
      Samples.client "GET" "query" "/segmentation" ∅ ∅ Http.World0
      = (inr (Some (Samples.throttled ["1"])), w') /\
    length (Http.wire w') = 2%nat /\
    Http.slept w' = [1 * Time.Second].
Proof.
  destruct (do_gives_up_after_one_retry Samples.encode Samples.anyRequest
              Samples.alwaysThrottled Samples.client "GET" "query"
              "/segmentation" ∅ ∅ "https://mixpanel.com/api/query" Http.World0
              (Samples.throttled ["1"]) (Samples.throttled ["1"]))
    as (w' & Hrun & Hwire & Hslept); try reflexivity.
  exists w'. split; [exact Hrun|]. split.
  - rewrite Hwire. reflexivity.
  - rewrite Hslept. reflexivity.
Defined.

Lemma paginate_stops_at_cap_witness :
  exists w',
    Cmd.paginate Samples.encode Samples.anyRequest
      (Samples.script ["full"; "full"; "short"]) nat Samples.unmarshal
      5 Samples.client "profiles" Samples.baseParams 120 100 Cmd.initState
      Http.World0
      = (Some (inr (250, take 120 (seq 0 100 ++ seq 0 100))), w') /\
    length (Http.wire w') = 2%nat /\
    length (take 120 (seq 0 100 ++ seq 0 100)) = 120%nat.
Proof.
  set (server := Samples.script ["full"; "full"; "short"]).
  set (e := Samples.pageOf 100 250 "ok").
  set (w1 := snd (Client.Post Samples.encode Samples.anyRequest server
                    Samples.client "query" "/engage"
                    (Cmd.pageParams Samples.baseParams (@Cmd.initState nat)) Http.World0)).
  set (w2 := snd (Client.Post Samples.encode Samples.anyRequest server
                    Samples.client "query" "/engage"
                    (Cmd.pageParams Samples.baseParams (Paging.nextState Cmd.initState e))
                    w1)).
  destruct (proj2 (paginate_stops_at_cap Samples.encode Samples.anyRequest server
                     nat Samples.unmarshal Samples.client "profiles"
                     Samples.baseParams) Http.World0 e w1 e w2 3%nat)
    as [Hrun Hlen].
  - exists (Samples.ok200 "full"), "full".
    split; [vm_compute; reflexivity|]. split; reflexivity.
  - left. reflexivity.
  - exists (Samples.ok200 "full"), "full".
    split; [vm_compute; reflexivity|]. split; reflexivity.
  - left. reflexivity.
  - reflexivity.
  - reflexivity.
  - reflexivity.
  - exists w2. split; [exact Hrun|]. split; [|exact Hlen].
    vm_compute. reflexivity.
Defined.

Lemma paginate_fails_on_bad_status_witness :
  exists w',
    Cmd.paginate Samples.encode Samples.anyRequest
      (Samples.script ["full"; "failed"]) nat Samples.unmarshal
      5 Samples.client "profiles" Samples.baseParams 0 100 Cmd.initState
      Http.World0
      = (Some (inl (ErrEngageStatus "error")), w') /\
    length (Http.wire w') = 2%nat.
Proof.
  set (server := Samples.script ["full"; "failed"]).
  set (e1 := Samples.pageOf 100 250 "ok").
  set (e2 := Samples.pageOf 0 250 "error").
  set (w1 := snd (Client.Post Samples.encode Samples.anyRequest server
                    Samples.client "query" "/engage"
                    (Cmd.pageParams Samples.baseParams (@Cmd.initState nat)) Http.World0)).
  set (st1 := Paging.nextState (@Cmd.initState nat) e1).
  set (w2 := snd (Client.Post Samples.encode Samples.anyRequest server
                    Samples.client "query" "/engage"
                    (Cmd.pageParams Samples.baseParams st1) w1)).
  exists w2. split.
  - apply (paginate_fails_on_bad_status Samples.encode Samples.anyRequest server
             nat Samples.unmarshal Samples.client "profiles" Samples.baseParams
             0 100 1 Http.World0 st1 w1 e2 w2 3).
    + apply Paging.seen_more with (e := e1) (w1 := w1).
      * exists (Samples.ok200 "full"), "full".
        split; [vm_compute; reflexivity|]. split; reflexivity.
      * left. reflexivity.
      * unfold Paging.goesOn. split; [|split].
        -- intros [Hcap _]. vm_compute in Hcap. discriminate Hcap.
        -- vm_compute. reflexivity.
        -- vm_compute. discriminate.
      * apply Paging.seen_none.
    + exists (Samples.ok200 "failed"), "failed".
      split; [vm_compute; reflexivity|]. split; reflexivity.
    + discriminate.
    + discriminate.
  - vm_compute. reflexivity.
Defined.

Lemma paginate_survives_unreliable_total_witness :
  (exists w',
     Cmd.paginate Samples.encode Samples.anyRequest
       (Samples.script ["lonely"]) nat Samples.unmarshal
       1 Samples.client "profiles" Samples.baseParams 0 100 Cmd.initState
       Http.World0
       = (Some (inr (0, seq 0 50)), w') /\
     length (Http.wire w') = 1%nat) /\
  (exists fuel res w',
     Cmd.paginate Samples.encode Samples.anyRequest
       (Samples.script ["full"; "full"; "short"]) nat Samples.unmarshal
       fuel Samples.client "profiles" Samples.baseParams 0 100 Cmd.initState
       Http.World0
       = (Some res, w')) /\
  (exists res w',
     Cmd.paginate Samples.encode Samples.anyRequest
       (Samples.script ["full"; "full"; "short"]) nat Samples.unmarshal
       3 Samples.client "profiles" Samples.baseParams 0 100 Cmd.initState
       Http.World0
       = (Some res, w')).
Proof.
  split; [|split].
  - set (server := Samples.script ["lonely"]).
    set (w1 := snd (Client.Post Samples.encode Samples.anyRequest server
                      Samples.client "query" "/engage"
                      (Cmd.pageParams Samples.baseParams (@Cmd.initState nat)) Http.World0)).
    exists w1. split; [|vm_compute; reflexivity].
    apply (proj1 (paginate_survives_unreliable_total Samples.encode
                    Samples.anyRequest server nat Samples.unmarshal Samples.client
                    "profiles" Samples.baseParams)
             Http.World0 (Samples.pageOf 50 0 "ok") w1 0%nat).
    + exists (Samples.ok200 "lonely"), "lonely".
      split; [vm_compute; reflexivity|]. split; reflexivity.
    + left. reflexivity.
    + reflexivity.
    + reflexivity.
  - apply (proj1 (proj2 (paginate_survives_unreliable_total Samples.encode
                    Samples.anyRequest (Samples.script ["full"; "full"; "short"])
                    nat Samples.unmarshal Samples.client
                    "profiles" Samples.baseParams))
             0 100 Cmd.initState Http.World0).
    lia.
  - apply (proj2 (proj2 (paginate_survives_unreliable_total Samples.encode
                    Samples.anyRequest (Samples.script ["full"; "full"; "short"])
                    nat Samples.unmarshal Samples.client
                    "profiles" Samples.baseParams))
             0 100 2%nat Cmd.initState Http.World0).
    intros i req resp body e Hi Hresp Hread Hjson.
    destruct i as [|[|[|i]]]; [lia | lia | | destruct i; discriminate Hresp].
    injection Hresp as <-. injection Hread as <-. injection Hjson as <-.
    reflexivity.
Defined.

(** ** Credentials and region in [newClient] *)

Lemma cut_absent (sep : ascii) (s : string) :
  Token.occurs sep s = false -> Strings.cut sep s = None.
Proof.
  induction s as [|ch s IH]; cbn -[bool_decide]; [reflexivity|].
  intros Hocc. apply orb_false_iff in Hocc as [-> Hrest].
  rewrite (IH Hrest). reflexivity.
Qed.

Lemma cut_first (sep : ascii) (before after : string) :
  Token.occurs sep before = false ->
  Strings.cut sep (before ++ String sep after) = Some (before, after).
Proof.
  induction before as [|ch before IH].
  - intros _. change ("" ++ String sep after) with (String sep after).
    cbn [Strings.cut]. rewrite bool_decide_eq_true_2; reflexivity.
  - intros Hocc. cbn [Token.occurs] in Hocc.
    apply orb_false_iff in Hocc as [Hch Hrest].
    change (String ch before ++ String sep after)
      with (String ch (before ++ String sep after)).
    cbn [Strings.cut]. rewrite Hch, (IH Hrest). reflexivity.
Qed.

(** C10, amended: a non-empty MP_TOKEN that has no colon, or nothing
    before its first colon, or nothing after it, makes [newClient] fail
    with the token-format error, whatever service_account and
    service_secret are configured. *)
Theorem newClient_rejects_malformed_token (b64 : string -> string) (env : Cmd.Env) :
  Cmd.Getenv env "MP_TOKEN" <> "" ->
  Token.malformed (Cmd.Getenv env "MP_TOKEN") ->
  Cmd.newClient b64 env = inl ErrTokenFormat.
Proof.
  intros Hset Hbad. unfold Cmd.newClient. cbv zeta.
  rewrite (bool_decide_eq_false_2 _ Hset). cbn [negb].
  unfold Strings.SplitN2.
  destruct Hbad as [Hnone | [[secret Hempty] | (account & Hacc & Hempty)]].
  - rewrite (cut_absent _ _ Hnone). reflexivity.
  - rewrite Hempty. reflexivity.
  - rewrite Hempty, (cut_first _ _ _ Hacc).
    rewrite (bool_decide_eq_true_2 ("" = "") eq_refl), orb_true_r. reflexivity.
Qed.

Lemma newClient_rejects_malformed_token_witness :
  Cmd.newClient Samples.b64 (Samples.configured "eu" "svc-s3cret") = inl ErrTokenFormat /\
  Cmd.newClient Samples.b64 (Samples.configured "eu" ":s3cret") = inl ErrTokenFormat /\
  Cmd.newClient Samples.b64 (Samples.configured "eu" "svc:") = inl ErrTokenFormat.
Proof.
  split; [|split].
  - apply (newClient_rejects_malformed_token Samples.b64
             (Samples.configured "eu" "svc-s3cret")).
    + discriminate.
    + left. reflexivity.
  - apply (newClient_rejects_malformed_token Samples.b64
             (Samples.configured "eu" ":s3cret")).
    + discriminate.
    + right. left. exists "s3cret". reflexivity.
  - apply (newClient_rejects_malformed_token Samples.b64
             (Samples.configured "eu" "svc:")).
    + discriminate.
    + right. right. exists "svc". split; reflexivity.
Defined.

(** C10 as written fails for an MP_TOKEN that is set to the empty string:
    it holds no colon, yet [newClient] takes it for unset and goes on with
    the configured service_account and service_secret. *)
Theorem empty_token_falls_back :
  Cmd.environ (Samples.configured "eu" "") !! "MP_TOKEN" = Some "" /\
  Token.malformed (Cmd.Getenv (Samples.configured "eu" "") "MP_TOKEN") /\
  Cmd.newClient Samples.b64 (Samples.configured "eu" "")
    = inr (Client.mkClient (Samples.b64 "svc:s3cret") "eu" "42" false
             (Int64.mul 120 Time.Second)).
Proof.
  split; [vm_compute; reflexivity|].
  split; [left; reflexivity | vm_compute; reflexivity].
Qed.

Lemma cut_Some (sep : ascii) (s before after : string) :
  Strings.cut sep s = Some (before, after) ->
  s = before ++ String sep after /\ Token.occurs sep before = false.
Proof.
  revert before. induction s as [|ch s IH]; intros before; cbn [Strings.cut];
    [discriminate|].
  destruct (bool_decide (ch = sep)) eqn:Hch.
  - intros [= <- <-]. apply bool_decide_eq_true_1 in Hch as ->.
    split; reflexivity.
  - destruct (Strings.cut sep s) as [[before' after']|]; [|discriminate].
    intros [= <- <-]. destruct (IH before' eq_refl) as [-> Hocc].
    split; [reflexivity|]. cbn [Token.occurs]. rewrite Hch, Hocc. reflexivity.
Qed.

Lemma newClient_cases (b64 : string -> string) (env : Cmd.Env) :
  Cmd.newClient b64 env = inl ErrTokenFormat \/
  exists account secret,
    Cmd.newClient b64 env =
      Client.New b64 account secret
        (if bool_decide (Cmd.GetString env "region" = "") then Urls.RegionUS
         else Cmd.GetString env "region")
        (Cmd.GetString env "project_id") (Cmd.isDebug env).
Proof.
  unfold Cmd.newClient. cbv zeta.
  destruct (negb (bool_decide (Cmd.Getenv env "MP_TOKEN" = ""))).
  - destruct (Strings.SplitN2 (Cmd.Getenv env "MP_TOKEN") ":")
      as [|account [|secret [|]]]; auto.
    destruct (bool_decide (account = "") || bool_decide (secret = "")); eauto.
  - eauto.
Qed.

Lemma New_us (b64 : string -> string) (account secret projectID : string)
    (debug : bool) :
  Client.New b64 account secret Urls.RegionUS projectID debug = inl ErrMissingCredentials \/
  exists c, Client.New b64 account secret Urls.RegionUS projectID debug = inr c /\
            Client.region c = "us".
Proof.
  unfold Client.New. change (negb (Urls.ValidRegion Urls.RegionUS)) with false.
  cbv iota.
  destruct (bool_decide (account = "") || bool_decide (secret = "")); eauto.
Qed.

Lemma newClient_with_credentials (b64 : string -> string) (env : Cmd.Env)
    (account secret : string) :
  Token.credentials env account secret ->
  Cmd.newClient b64 env =
    Client.New b64 account secret
      (if bool_decide (Cmd.GetString env "region" = "") then Urls.RegionUS
       else Cmd.GetString env "region")
      (Cmd.GetString env "project_id") (Cmd.isDebug env).
Proof.
  intros [(Htoken & -> & -> & _ & _) | (Htoken & Hacc & Hsa & Hss)];
    unfold Cmd.newClient; cbv zeta.
  - rewrite Htoken. reflexivity.
  - assert (Hset : Cmd.Getenv env "MP_TOKEN" <> "").
    { rewrite Htoken. destruct account; discriminate. }
    rewrite (bool_decide_eq_false_2 _ Hset). cbn [negb]. unfold Strings.SplitN2.
    rewrite Htoken, (cut_first _ _ _ Hacc).
    rewrite (bool_decide_eq_false_2 _ Hsa), (bool_decide_eq_false_2 _ Hss).
    reflexivity.
Qed.

Lemma newClient_built_from (b64 : string -> string) (env : Cmd.Env)
    (c : Client.Client) :
  Cmd.newClient b64 env = inr c ->
  exists account secret, Token.credentials env account secret.
Proof.
  unfold Cmd.newClient. cbv zeta.
  destruct (bool_decide (Cmd.Getenv env "MP_TOKEN" = "")) eqn:Htoken; cbn [negb].
  - apply bool_decide_eq_true_1 in Htoken. unfold Client.New.
    destruct (negb (Urls.ValidRegion _)); [discriminate|].
    destruct (bool_decide (Cmd.GetString env "service_account" = "")) eqn:Hsa;
      [discriminate|].
    destruct (bool_decide (Cmd.GetString env "service_secret" = "")) eqn:Hss;
      [discriminate|].
    intros _. apply bool_decide_eq_false_1 in Hsa, Hss.
    exists (Cmd.GetString env "service_account"), (Cmd.GetString env "service_secret").
    left. auto.
  - unfold Strings.SplitN2.
    destruct (Strings.cut ":" (Cmd.Getenv env "MP_TOKEN")) as [[account secret]|]
      eqn:Hcut; [|discriminate].
    destruct (bool_decide (account = "")) eqn:Hsa; [discriminate|].
    destruct (bool_decide (secret = "")) eqn:Hss; [discriminate|].
    intros _. apply bool_decide_eq_false_1 in Hsa, Hss.
    apply cut_Some in Hcut as [Hparts Hocc].
    exists account, secret. right. unfold Token.wellFormed. auto.
Qed.

(** C9, amended: with no region configured and credentials at hand,
    [newClient] does not fail: it builds the client of these credentials
    for the region "us", with the configured project id. Every client it
    returns with no region configured has the region "us", resolves the
    four families to the US URLs and was built from credentials at hand;
    and when it fails, it is for the token format or for missing
    credentials, never for the region. *)
Theorem newClient_defaults_to_us (b64 : string -> string) (env : Cmd.Env) :
  Cmd.GetString env "region" = "" ->
  (forall account secret,
     Token.credentials env account secret ->
     Cmd.newClient b64 env =
       inr (Client.mkClient (b64 (account ++ ":" ++ secret)) "us"
              (Cmd.GetString env "project_id") (Cmd.isDebug env)
              (Int64.mul 120 Time.Second))) /\
  (forall c, Cmd.newClient b64 env = inr c ->
     (exists account secret, Token.credentials env account secret) /\
     Client.region c = "us" /\
     Urls.ResolveURL "query" (Client.region c) = inr "https://mixpanel.com/api/query" /\
     Urls.ResolveURL "export" (Client.region c) = inr "https://data.mixpanel.com/api/2.0" /\
     Urls.ResolveURL "app" (Client.region c) = inr "https://mixpanel.com/api/app" /\
     Urls.ResolveURL "ingestion" (Client.region c) = inr "https://api.mixpanel.com") /\
  (forall err, Cmd.newClient b64 env = inl err ->
     err = ErrTokenFormat \/ err = ErrMissingCredentials).
Proof.
  intros Hregion.
  assert (Hcases : Cmd.newClient b64 env = inl ErrTokenFormat \/
                   Cmd.newClient b64 env = inl ErrMissingCredentials \/
                   exists c, Cmd.newClient b64 env = inr c /\ Client.region c = "us").
  { destruct (newClient_cases b64 env) as [Htok | (account & secret & Hnew)]; [auto|].
    rewrite Hregion, (bool_decide_eq_true_2 ("" = "") eq_refl) in Hnew.
    rewrite Hnew. right. apply New_us. }
  split; [|split].
  - intros account secret Hcreds.
    rewrite (newClient_with_credentials b64 env account secret Hcreds).
    rewrite Hregion, (bool_decide_eq_true_2 ("" = "") eq_refl).
    assert (Hsa : account <> "" /\ secret <> "").
    { destruct Hcreds as [(_ & _ & _ & Hsa & Hss) | (_ & _ & Hsa & Hss)]; auto. }
    unfold Client.New.
    change (negb (Urls.ValidRegion Urls.RegionUS)) with false. cbv iota.
    rewrite (bool_decide_eq_false_2 _ (proj1 Hsa)),
      (bool_decide_eq_false_2 _ (proj2 Hsa)).
    reflexivity.
  - intros c Hc. split; [exact (newClient_built_from b64 env c Hc)|].
    rewrite Hc in Hcases.
    destruct Hcases as [H | [H | (c' & H & Hus)]]; try discriminate H.
    injection H as ->. rewrite Hus. repeat split; vm_compute; reflexivity.
  - intros err Herr. rewrite Herr in Hcases.
    destruct Hcases as [H | [H | (c' & H & _)]]; [| |discriminate H].
    + injection H as ->. auto.
    + injection H as ->. auto.
Qed.

Lemma newClient_defaults_to_us_witness :
  Cmd.newClient Samples.b64 (Samples.configured "" "")
    = inr (Client.mkClient (Samples.b64 "svc:s3cret") "us" "42" false
             (Int64.mul 120 Time.Second)) /\
  Cmd.newClient Samples.b64 (Samples.configured "" "tok:p:w")
    = inr (Client.mkClient (Samples.b64 "tok:p:w") "us" "42" false
             (Int64.mul 120 Time.Second)).
Proof.
  split.
  - apply (proj1 (newClient_defaults_to_us Samples.b64 (Samples.configured "" "")
                    eq_refl) "svc" "s3cret").
    left. repeat split; discriminate.
  - apply (proj1 (newClient_defaults_to_us Samples.b64
                    (Samples.configured "" "tok:p:w") eq_refl) "tok" "p:w").
    right. repeat split; discriminate.
Defined.

(** C9 as written fails where no credentials are at hand: with no region
    configured, [newClient] fails for the missing credentials, and with a
    malformed MP_TOKEN for the token format. *)
Theorem newClient_without_region_can_fail :
  Cmd.GetString (Cmd.mkEnv ∅ ∅) "region" = "" /\
  Cmd.newClient Samples.b64 (Cmd.mkEnv ∅ ∅) = inl ErrMissingCredentials /\
  Cmd.GetString (Samples.configured "" "svc-s3cret") "region" = "" /\
  Cmd.newClient Samples.b64 (Samples.configured "" "svc-s3cret") = inl ErrTokenFormat.
Proof. repeat split; vm_compute; reflexivity. Qed.

(** ** Region letter case *)

(** The lower-casing of [PersistentPreRunE] decides what it accepts. *)
Lemma PersistentPreRunE_checks_lower_case (mapLower : string -> string)
    (env : Cmd.Env) :
  Cmd.GetString env "region" <> "" ->
  Cmd.PersistentPreRunE mapLower env =
    if bool_decide (Strings.ToLower mapLower (Cmd.GetString env "region")
                    ∈ Urls.regions)
    then None
    else Some (ErrInvalidRegion
                 (Strings.ToLower mapLower (Cmd.GetString env "region"))).
Proof.
  intros Hset. unfold Cmd.PersistentPreRunE. cbv zeta.
  rewrite (bool_decide_eq_false_2 _ Hset). cbn [negb].
  set (r := Strings.ToLower mapLower (Cmd.GetString env "region")).
  unfold Urls.regions, Urls.RegionUS, Urls.RegionEU, Urls.RegionIN.
  destruct (decide (r = "us")) as [-> | Hus]; [reflexivity|].
  destruct (decide (r = "eu")) as [-> | Heu]; [reflexivity|].
  destruct (decide (r = "in")) as [-> | Hin]; [reflexivity|].
  rewrite !bool_decide_eq_false_2 by assumption. cbn [negb andb].
  rewrite bool_decide_eq_false_2; [reflexivity|].
  intros Hin'. repeat (apply elem_of_cons in Hin' as [? | Hin']; [contradiction|]).
  by apply elem_of_nil in Hin'.
Qed.

(** C6 fails on the code at the region "US": the start-up check accepts
    it, but [newClient] hands the value as typed to [New], which refuses
    it; [Config.Set], on its side, stores the lower-cased "us", which
    [newClient] accepts. *)
Theorem upper_case_region_accepted_then_refused (mapLower : string -> string) :
  Cmd.PersistentPreRunE mapLower (Samples.configured "US" "") = None /\
  Cmd.newClient Samples.b64 (Samples.configured "US" "") = inl (ErrInvalidRegion "US") /\
  Config.Set_ mapLower ∅ "region" "US" = inr {[ "region" := "us" ]} /\
  exists c, Cmd.newClient Samples.b64 (Samples.configured "us" "") = inr c /\
            Client.region c = "us".
Proof.
  split; [vm_compute; reflexivity|].
  split; [vm_compute; reflexivity|].
  split; [vm_compute; reflexivity|].
  eexists. split; vm_compute; reflexivity.
Qed.

(** * Further properties *)

Example Str_samples :
  Str.Split "," "a,b,,c" = ["a"; "b"; ""; "c"] /\
  Str.Split "," "" = [""] /\
  Str.Split "," "," = [""; ""] /\
  Str.TrimSpace "  a b	" = "a b" /\
  Str.TrimSpace (Str.bytes [194; 160; 97; 226; 128; 137]%N) = "a" /\
  Str.TrimSpace (Str.bytes [160; 97; 194]%N) = Str.bytes [160; 97; 194]%N /\
  Str.TrimSpace "   " = "" /\
  Str.Join ["a"; "b"; "c"] ", " = "a, b, c" /\
  CmdMore.splitCSV " a , ,b,, c d " = ["a"; "b"; "c d"] /\
  CmdMore.splitCSV "" = [] /\
  ConfigView.mask "s3cr3t" = "s3cr****" /\
  ConfigView.mask "abcd" = "****" /\
  Reader.Read "hello" 2 = ("he", false, "llo") /\
  Reader.Read "hello" 5 = ("hello", true, "") /\
  Reader.Read "hello" 0 = ("", false, "hello") /\
  Reader.Read "" 8 = ("", true, "").
Proof. vm_compute. repeat split; reflexivity. Qed.

(** ** What one send puts on the wire *)
Section SendFacts.
Import Http.
Variable encode : Values -> string.
Variable newRequestErr : string -> string -> option string.
Variable roundTrip : nat -> Request -> string + Response.
Variable c : Client.Client.
Variable method fullURL contentType : string.
Variable form : Values.

Local Abbreviation doLoop := (Client.doLoop encode newRequestErr roundTrip).
Local Abbreviation body0 := (if nonempty form then Some (encode form) else None).
Local Abbreviation req0 := (Client.buildRequest c method fullURL contentType body0).

(** The requests of one run of the loop are copies of one request, at most
    one per attempt left; with fuel enough it sleeps exactly once between
    two requests and never otherwise; it writes no debug line when [debug]
    is off. *)
Lemma doLoop_trace fuel :
  forall attempt body resp w r w',
    0 <= attempt ->
    (attempt <= Client.maxRetries -> body = body0) ->
    doLoop fuel c method fullURL contentType form attempt body resp w = (r, w') ->
    exists k waits,
      (k <= Z.to_nat (Client.maxRetries + 1 - attempt))%nat /\
      wire w' = (wire w ++ repeat req0 k)%list /\
      slept w' = (slept w ++ waits)%list /\
      (Client.debug c = false -> stderr w' = stderr w) /\
      (attempt <= Client.maxRetries -> (1 <= fuel)%nat ->
       newRequestErr method fullURL = None -> (1 <= k)%nat) /\
      ((Z.to_nat (Client.maxRetries + 1 - attempt) <= fuel)%nat ->
       length waits = pred k).
Proof.
  induction fuel as [|fuel IH]; intros attempt body resp w r w' Hpos Hbody Hrun.
  { injection Hrun as <- <-. exists 0%nat, []. cbn. rewrite !app_nil_r.
    repeat split; auto; lia. }
  rewrite doLoop_unfold in Hrun.
  destruct (Z.leb_spec attempt Client.maxRetries) as [Hle|Hgt]; cbn [negb] in Hrun.
  2:{ injection Hrun as <- <-. exists 0%nat, []. cbn. rewrite !app_nil_r.
      repeat split; auto; lia. }
  rewrite (Hbody Hle) in Hrun. clear Hbody body.
  destruct (newRequestErr method fullURL) eqn:Hnew.
  { injection Hrun as <- <-. exists 0%nat, []. cbn. rewrite !app_nil_r.
    repeat split; auto; try lia; discriminate. }
  cbv zeta in Hrun.
  unfold bind, ret, Client.debugf, Client.Do, Client.Sleep in Hrun.
  unfold Client.maxRetries in *.
  assert (Hone : forall w1, wire w1 = (wire w ++ [req0])%list ->
                   slept w1 = slept w ->
                   (Client.debug c = false -> stderr w1 = stderr w) ->
                   exists k waits,
                     (k <= Z.to_nat (1 + 1 - attempt))%nat /\
                     wire w1 = (wire w ++ repeat req0 k)%list /\
                     slept w1 = (slept w ++ waits)%list /\
                     (Client.debug c = false -> stderr w1 = stderr w) /\
                     (attempt <= 1 -> (1 <= S fuel)%nat ->
                      @None string = None -> (1 <= k)%nat) /\
                     ((Z.to_nat (1 + 1 - attempt) <= S fuel)%nat ->
                      length waits = pred k)).
  { intros w1 Hw Hs He. exists 1%nat, []. rewrite Hw, Hs, app_nil_r. cbn.
    repeat split; auto; lia. }
  destruct (Client.debug c) eqn:Hdebug; cbn in Hrun;
    (destruct (roundTrip (length (wire w)) req0) as [cause|x];
     [injection Hrun as <- <-; apply Hone; cbn; auto; discriminate|]);
    cbn in Hrun;
    (destruct (StatusCode x =? StatusTooManyRequests); cbn in Hrun;
     [|injection Hrun as <- <-; apply Hone; cbn; auto; discriminate]);
    (destruct (Z.ltb_spec attempt 1);
     [ apply IH in Hrun; [|lia|intros _; destruct (nonempty form); reflexivity];
       destruct Hrun as (k & waits & Hk & Hwire & Hslept & Herr & Hsent & Hwaits);
       cbn in *;
       exists (S k), (Client.backoff attempt x :: waits);
       rewrite Hwire, Hslept, <- !app_assoc; cbn;
       (repeat split;
        [ lia | intros Hoff; try discriminate Hoff; auto | lia
        | intros Hfuel; specialize (Hsent ltac:(lia) ltac:(lia) eq_refl);
          specialize (Hwaits ltac:(lia)); lia ])
     | rewrite doLoop_exit in Hrun by (unfold Client.maxRetries; lia);
       injection Hrun as <- <-; apply Hone; cbn; auto; discriminate ]).
Qed.

(** The loop fails only on building or on executing a request. *)
Lemma doLoop_errors fuel :
  forall attempt body resp w err w',
    doLoop fuel c method fullURL contentType form attempt body resp w = (inl err, w') ->
    (exists cause, err = ErrCreatingRequest cause) \/
    (exists cause, err = ErrExecutingRequest cause).
Proof.
  induction fuel as [|fuel IH]; intros attempt body resp w err w' Hrun;
    [discriminate Hrun|].
  rewrite doLoop_unfold in Hrun.
  destruct (negb (attempt <=? Client.maxRetries)); [discriminate Hrun|].
  destruct (newRequestErr method fullURL) as [cause|].
  { injection Hrun as <- _. eauto. }
  cbv zeta in Hrun.
  unfold bind, ret, Client.debugf, Client.Do, Client.Sleep in Hrun.
  destruct (Client.debug c); cbn in Hrun;
    (destruct (roundTrip (length (wire w))
                 (Client.buildRequest c method fullURL contentType body))
       as [cause|x]; [injection Hrun as <- _; eauto|]);
    cbn in Hrun;
    (destruct (StatusCode x =? StatusTooManyRequests); cbn in Hrun;
     [|discriminate Hrun]);
    destruct (attempt <? Client.maxRetries); eapply IH; exact Hrun.
Qed.

(** A transport failure ends the loop at once. *)
Lemma doLoop_fail fuel attempt body resp w cause :
  attempt <= Client.maxRetries ->
  newRequestErr method fullURL = None ->
  roundTrip (length (wire w))
    (Client.buildRequest c method fullURL contentType body) = inl cause ->
  exists w1,
    doLoop (S fuel) c method fullURL contentType form attempt body resp w
      = (inl (ErrExecutingRequest cause), w1) /\
    wire w1 = (wire w ++ [Client.buildRequest c method fullURL contentType body])%list /\
    slept w1 = slept w.
Proof.
  intros Hle Hnew Hrt. rewrite doLoop_unfold.
  destruct (Z.leb_spec attempt Client.maxRetries); [|lia].
  cbn [negb]. rewrite Hnew. cbv zeta.
  unfold bind, ret, Client.debugf, Client.Do, Client.Sleep.
  destruct (Client.debug c); cbn; rewrite Hrt; cbn;
    eexists; (split; [reflexivity|]); split; reflexivity.
Qed.
End SendFacts.

Section DoFacts.
Import Http.
Variable encode : Values -> string.
Variable newRequestErr : string -> string -> option string.
Variable roundTrip : nat -> Request -> string + Response.

Local Abbreviation do := (Client.do encode newRequestErr roundTrip).

(** The URL, content type, body and request of one send, as [do] sets
    them up from the base URL. *)
Local Abbreviation urlOf base path query :=
  (if nonempty query then base ++ path ++ "?" ++ encode query else base ++ path).
Local Abbreviation typeOf form :=
  (if nonempty form then "application/x-www-form-urlencoded" else "").
Local Abbreviation bodyOf form :=
  (if nonempty form then Some (encode form) else None).
Local Abbreviation requestOf c method base path query form :=
  (Client.buildRequest c method (urlOf base path query) (typeOf form) (bodyOf form)).

Lemma do_trace c method family path (query form : Values) base w :
  Urls.ResolveURL family (Client.region c) = inr base ->
  exists k waits,
    (k <= 2)%nat /\
    wire (snd (do c method family path query form w))
      = (wire w ++ repeat (requestOf c method base path query form) k)%list /\
    slept (snd (do c method family path query form w)) = (slept w ++ waits)%list /\
    length waits = pred k /\
    (Client.debug c = false ->
     stderr (snd (do c method family path query form w)) = stderr w).
Proof.
  intros Hbase. unfold Client.do. rewrite Hbase.
  destruct (Client.doLoop encode newRequestErr roundTrip
              (Z.to_nat (Client.maxRetries + 2)) c method
              (urlOf base path query) (typeOf form) form 0 (bodyOf form) None w)
    as [r w'] eqn:Hrun.
  apply doLoop_trace in Hrun as (k & waits & Hk & Hwire & Hslept & Herr & _ & Hwaits);
    [|lia|auto].
  exists k, waits. cbn [snd]. unfold Client.maxRetries in *.
  repeat split; [lia | exact Hwire | exact Hslept | apply Hwaits; lia | exact Herr].
Qed.

(** X1: one send puts at most two requests on the wire, all of them the
    same request (same method, URL, headers and body, so that a retried
    POST carries its whole body again); it sleeps exactly once when it
    sends two and never otherwise; and it writes nothing to standard error
    when debugging is off. *)
Theorem do_sends_one_request_at_most_twice
    c method family path (query form : Values) w :
  exists k req waits,
    (k <= 2)%nat /\
    wire (snd (do c method family path query form w)) = (wire w ++ repeat req k)%list /\
    Method req = method /\
    slept (snd (do c method family path query form w)) = (slept w ++ waits)%list /\
    length waits = pred k /\
    (Client.debug c = false ->
     stderr (snd (do c method family path query form w)) = stderr w).
Proof.
  destruct (Urls.ResolveURL family (Client.region c)) as [err|base] eqn:Hbase.
  - exists 0%nat, (mkRequest method "" ∅ None), [].
    unfold Client.do. rewrite Hbase. cbn. rewrite !app_nil_r.
    repeat split; auto; lia.
  - destruct (do_trace c method family path query form base w Hbase)
      as (k & waits & Hk & Hwire & Hslept & Hwaits & Herr).
    exists k, (requestOf c method base path query form), waits.
    repeat split; auto.
Qed.

(** X2: a transport failure is not retried: when the first exchange
    fails, [do] returns the failure, having sent that one request and
    slept not at all. *)
Theorem do_does_not_retry_transport_failure
    c method family path (query form : Values) base w cause :
  Urls.ResolveURL family (Client.region c) = inr base ->
  newRequestErr method (urlOf base path query) = None ->
  roundTrip (length (wire w)) (requestOf c method base path query form) = inl cause ->
  exists w',
    do c method family path query form w = (inl (ErrExecutingRequest cause), w') /\
    wire w' = (wire w ++ [requestOf c method base path query form])%list /\
    slept w' = slept w.
Proof.
  intros Hbase Hnew Hfail. unfold Client.do. rewrite Hbase.
  change (Z.to_nat (Client.maxRetries + 2)) with 3%nat.
  apply doLoop_fail; [unfold Client.maxRetries; lia | exact Hnew | exact Hfail].
Qed.

(** X3: only 429 is retried: any other first answer, an error status
    included, is returned as it is after that one request, without sleep. *)
Theorem do_returns_other_status_at_once
    c method family path (query form : Values) base w r :
  Urls.ResolveURL family (Client.region c) = inr base ->
  newRequestErr method (urlOf base path query) = None ->
  roundTrip (length (wire w)) (requestOf c method base path query form) = inr r ->
  StatusCode r <> StatusTooManyRequests ->
  exists w',
    do c method family path query form w = (inr (Some r), w') /\
    wire w' = (wire w ++ [requestOf c method base path query form])%list /\
    slept w' = slept w.
Proof.
  intros Hbase Hnew Hresp Hstatus. unfold Client.do. rewrite Hbase.
  change (Z.to_nat (Client.maxRetries + 2)) with 3%nat.
  apply doLoop_pass; [unfold Client.maxRetries; lia | exact Hnew | exact Hresp | exact Hstatus].
Qed.

(** X4: a 429 followed by any other answer: [do] sleeps for the backoff of
    attempt 0, sends the same request again and returns the second answer. *)
Theorem do_retry_returns_second_answer
    c method family path (query form : Values) base w r1 r2 :
  Urls.ResolveURL family (Client.region c) = inr base ->
  newRequestErr method (urlOf base path query) = None ->
  roundTrip (length (wire w)) (requestOf c method base path query form) = inr r1 ->
  StatusCode r1 = StatusTooManyRequests ->
  roundTrip (S (length (wire w))) (requestOf c method base path query form) = inr r2 ->
  StatusCode r2 <> StatusTooManyRequests ->
  exists w',
    do c method family path query form w = (inr (Some r2), w') /\
    wire w' = (wire w ++ [requestOf c method base path query form;
                          requestOf c method base path query form])%list /\
    slept w' = (slept w ++ [Client.backoff 0 r1])%list.
Proof.
  intros Hbase Hnew Hfirst H429 Hsecond Hother. unfold Client.do. rewrite Hbase.
  change (Z.to_nat (Client.maxRetries + 2)) with 3%nat.
  destruct (doLoop_retry encode newRequestErr roundTrip 2 c method
              (urlOf base path query) (typeOf form) form 0 (bodyOf form) None w r1)
    as (w1 & -> & Hwire1 & Hslept1); try assumption.
  { unfold Client.maxRetries. lia. }
  assert (Hbody : (if nonempty form then Some (encode form)
                   else Client.drained (bodyOf form)) = bodyOf form).
  { destruct (nonempty form); reflexivity. }
  rewrite Hbody.
  destruct (doLoop_pass encode newRequestErr roundTrip 1 c method
              (urlOf base path query) (typeOf form) form (0 + 1) (bodyOf form)
              (Some r1) w1 r2) as (w2 & -> & Hwire2 & Hslept2); try assumption.
  { unfold Client.maxRetries. lia. }
  { rewrite Hwire1, length_app. cbn [length].
    replace (length (wire w) + 1)%nat with (S (length (wire w))) by lia.
    exact Hsecond. }
  exists w2. split; [reflexivity|]. split.
  - rewrite Hwire2, Hwire1, <- app_assoc. reflexivity.
  - rewrite Hslept2, Hslept1. reflexivity.
Qed.

Lemma ResolveURL_https family region base :
  Urls.ResolveURL family region = inr base ->
  exists rest, base = "https://" ++ rest.
Proof.
  unfold Urls.ResolveURL, Urls.baseURLs.
  destruct (_ !! family) as [row|] eqn:Hrow; [|discriminate].
  apply elem_of_list_to_map_2 in Hrow.
  destruct (row !! region) as [url|] eqn:Hurl; [|discriminate].
  intros [= <-].
  repeat (apply elem_of_cons in Hrow as [Heq | Hrow];
          [ apply (f_equal snd) in Heq; cbn [snd] in Heq; subst row;
            apply elem_of_list_to_map_2 in Hurl;
            repeat (apply elem_of_cons in Hurl as [Hu | Hurl];
                    [ apply (f_equal snd) in Hu; cbn [snd] in Hu; subst url;
                      eexists; reflexivity | ]);
            by apply elem_of_nil in Hurl | ]).
  by apply elem_of_nil in Hrow.
Qed.

Lemma sent_by_do c method family path (query form : Values) w req :
  req ∈ drop (length (wire w)) (wire (snd (do c method family path query form w))) ->
  exists base,
    Urls.ResolveURL family (Client.region c) = inr base /\
    req = requestOf c method base path query form.
Proof.
  destruct (Urls.ResolveURL family (Client.region c)) as [err|base] eqn:Hbase.
  - unfold Client.do. rewrite Hbase. cbn. rewrite drop_all.
    intros Hin. by apply elem_of_nil in Hin.
  - destruct (do_trace c method family path query form base w Hbase)
      as (k & waits & _ & -> & _).
    rewrite drop_app_length. intros Hin.
    apply list_elem_of_In, repeat_spec in Hin. eauto.
Qed.

(** X5: every request one send puts on the wire carries the Basic
    authorisation of the client, asks for JSON and gzip, and goes to an
    https URL. *)
Theorem do_requests_are_authenticated_https
    c method family path (query form : Values) w req :
  req ∈ drop (length (wire w)) (wire (snd (do c method family path query form w))) ->
  Http.Get (ReqHeader req) "Authorization" = "Basic " ++ Client.auth c /\
  Http.Get (ReqHeader req) "Accept" = "application/json" /\
  Http.Get (ReqHeader req) "Accept-Encoding" = "gzip" /\
  exists rest, URL req = "https://" ++ rest.
Proof.
  intros Hin. apply sent_by_do in Hin as (base & Hbase & ->).
  apply ResolveURL_https in Hbase as [rest ->].
  unfold Client.buildRequest, Http.Get, Set_. cbn [ReqHeader URL].
  repeat split.
  - destruct (bool_decide (typeOf form = ""));
      repeat (rewrite lookup_insert_ne by discriminate);
      rewrite lookup_insert_eq; reflexivity.
  - destruct (bool_decide (typeOf form = ""));
      repeat (rewrite lookup_insert_ne by discriminate);
      rewrite lookup_insert_eq; reflexivity.
  - destruct (bool_decide (typeOf form = ""));
      repeat (rewrite lookup_insert_ne by discriminate);
      rewrite lookup_insert_eq; reflexivity.
  - destruct (nonempty query); eexists; reflexivity.
Qed.

Lemma nonempty_empty : nonempty ∅ = false.
Proof. unfold nonempty. rewrite bool_decide_eq_true_2; reflexivity. Qed.

(** X6: [Get] sends its parameters in the URL, after a question mark when
    there are any, with no body and no content type; [Post] sends them as
    the body, with the form content type when there are any, and leaves
    the URL bare. *)
Theorem Get_and_Post_place_the_parameters c family path (params : Values) w req :
  (req ∈ drop (length (wire w))
           (wire (snd (Client.Get encode newRequestErr roundTrip c family path params w))) ->
   exists base,
     Urls.ResolveURL family (Client.region c) = inr base /\
     Method req = "GET" /\
     URL req = (if nonempty params then base ++ path ++ "?" ++ encode params
                else base ++ path) /\
     ReqBody req = None /\
     ReqHeader req !! "Content-Type" = None) /\
  (req ∈ drop (length (wire w))
           (wire (snd (Client.Post encode newRequestErr roundTrip c family path params w))) ->
   exists base,
     Urls.ResolveURL family (Client.region c) = inr base /\
     Method req = "POST" /\
     URL req = base ++ path /\
     ReqBody req = (if nonempty params then Some (encode params) else None) /\
     ReqHeader req !! "Content-Type" =
       (if nonempty params then Some ["application/x-www-form-urlencoded"] else None)).
Proof.
  split; intros Hin; apply sent_by_do in Hin as (base & Hbase & ->);
    exists base; (split; [exact Hbase|]);
    rewrite ?nonempty_empty; unfold Client.buildRequest, Set_; cbn.
  - repeat split.
  - destruct (nonempty params); repeat split.
Qed.

(** X7: a client that [New] returns resolves each of the four families, so
    that a send with it fails only on building or on executing a request,
    and a send that does not fail returns a response. *)
Theorem New_client_sends_to_every_family
    (b64 : string -> string) account secret region projectID debug c
    method family path (query form : Values) w :
  Client.New b64 account secret region projectID debug = inr c ->
  family ∈ Urls.families ->
  (exists base, Urls.ResolveURL family (Client.region c) = inr base) /\
  match fst (do c method family path query form w) with
  | inl err => (exists cause, err = ErrCreatingRequest cause) \/
               (exists cause, err = ErrExecutingRequest cause)
  | inr o => exists resp, o = Some resp
  end.
Proof.
  intros Hnew Hfamily.
  assert (Hregion : Client.region c ∈ Urls.regions).
  { unfold Client.New in Hnew.
    destruct (Urls.ValidRegion region) eqn:Hvalid; [|discriminate Hnew].
    cbn [negb] in Hnew.
    destruct (bool_decide (account = "") || bool_decide (secret = ""));
      [discriminate Hnew|].
    injection Hnew as <-. cbn [Client.region].
    unfold Urls.ValidRegion in Hvalid. unfold Urls.regions.
    apply orb_true_iff in Hvalid as [Hvalid | Hin].
    - apply orb_true_iff in Hvalid as [Hus | Heu].
      + apply bool_decide_eq_true_1 in Hus as ->. apply elem_of_cons. by left.
      + apply bool_decide_eq_true_1 in Heu as ->. do 1 apply elem_of_cons, or_intror.
        apply elem_of_cons. by left.
    - apply bool_decide_eq_true_1 in Hin as ->. do 2 apply elem_of_cons, or_intror.
      apply elem_of_cons. by left. }
  destruct (ResolveURL_inside_table family (Client.region c) Hfamily Hregion)
    as [base Hbase].
  split; [eauto|].
  destruct (do c method family path query form w) as [r w'] eqn:Hrun. cbn [fst].
  destruct r as [err | o].
  - unfold Client.do in Hrun. rewrite Hbase in Hrun.
    eapply doLoop_errors. exact Hrun.
  - apply do_served in Hrun as (x & _ & _ & -> & _). eauto.
Qed.
End DoFacts.

(** ** The body reader *)

Lemma take_drop (n : nat) (s : string) : Str.take n s ++ Str.drop n s = s.
Proof.
  revert s. induction n as [|n IH]; intros [|ch s]; cbn; try reflexivity.
  change (String ch (Str.take n s) ++ Str.drop n s)
    with (String ch (Str.take n s ++ Str.drop n s)).
  by rewrite IH.
Qed.

Lemma length_drop_str (n : nat) (s : string) :
  String.length (Str.drop n s) = (String.length s - n)%nat.
Proof.
  revert s. induction n as [|n IH]; intros [|ch s]; cbn; try reflexivity.
  apply IH.
Qed.

Lemma length_zero_empty (s : string) : String.length s = 0%nat -> s = "".
Proof. destruct s; [reflexivity | discriminate]. Qed.

Lemma append_empty_r (s : string) : s ++ "" = s.
Proof.
  induction s as [|ch s IH]; [reflexivity|].
  change (String ch s ++ "") with (String ch (s ++ "")). by rewrite IH.
Qed.

Lemma append_assoc_str (a b d : string) : (a ++ b) ++ d = a ++ (b ++ d).
Proof.
  induction a as [|ch a IH]; [reflexivity|].
  change ((String ch a ++ b) ++ d) with (String ch ((a ++ b) ++ d)).
  change (String ch a ++ (b ++ d)) with (String ch (a ++ (b ++ d))).
  by rewrite IH.
Qed.

(** X8: whatever the sizes of the buffers, the bytes read so far followed
    by what the reader still holds are the string it was made from: no
    byte is lost, repeated or reordered; and [io.EOF] is returned exactly
    when nothing is left. *)
Theorem readWith_keeps_the_bytes (rooms : list nat) (s : string) :
  match Reader.readWith rooms s with
  | (got, eof, rest) =>
      got ++ rest = s /\
      (eof = true -> rest = "") /\
      (rooms <> [] -> rest = "" -> eof = true)
  end.
Proof.
  revert s. induction rooms as [|room rooms IH]; intros s.
  - cbn. repeat split; [discriminate | congruence].
  - cbn [Reader.readWith]. unfold Reader.Read.
    set (n := Nat.min room (String.length s)).
    destruct (bool_decide (String.length (Str.drop n s) = 0%nat)) eqn:Heof.
    + apply bool_decide_eq_true_1, length_zero_empty in Heof.
      repeat split; auto. apply take_drop.
    + apply bool_decide_eq_false_1 in Heof.
      specialize (IH (Str.drop n s)).
      destruct rooms as [|room' rooms].
      * cbn. rewrite append_empty_r.
        split; [apply take_drop|]. split; [discriminate|].
        intros _ Hrest. rewrite Hrest in Heof. by destruct Heof.
      * destruct (Reader.readWith (room' :: rooms) (Str.drop n s))
          as [[more eof] rest].
        destruct IH as (Hall & Hend & Hlast).
        split; [by rewrite append_assoc_str, Hall, take_drop|].
        split; [exact Hend|].
        intros _ Hrest. by apply Hlast.
Qed.

Lemma readWith_keeps_the_bytes_witness :
  fst (fst (Reader.readWith [2; 2]%nat "hello")) ++ snd (Reader.readWith [2; 2]%nat "hello")
    = "hello" /\
  (snd (Reader.readWith [2; 0; 2; 7]%nat "hello") = "" ->
   snd (fst (Reader.readWith [2; 0; 2; 7]%nat "hello")) = true).
Proof.
  pose proof (readWith_keeps_the_bytes [2; 2]%nat "hello") as Hpart.
  pose proof (readWith_keeps_the_bytes [2; 0; 2; 7]%nat "hello") as Hfull.
  destruct (Reader.readWith [2; 2]%nat "hello") as [[got eof] rest].
  destruct (Reader.readWith [2; 0; 2; 7]%nat "hello") as [[got' eof'] rest'].
  split.
  - exact (proj1 Hpart).
  - apply (proj2 (proj2 Hfull)). discriminate.
Defined.

(** X9: buffers whose sizes add up to the length of the string, or more,
    read it whole and end on [io.EOF]. *)
Theorem readWith_reads_all (rooms : list nat) (s : string) :
  rooms <> [] ->
  (String.length s <= list_sum rooms)%nat ->
  Reader.readWith rooms s = (s, true, "").
Proof.
  revert s. induction rooms as [|room rooms IH]; intros s Hne Hsum; [done|].
  cbn [Reader.readWith]. unfold Reader.Read.
  change (list_sum (room :: rooms)) with (room + list_sum rooms)%nat in Hsum.
  set (n := Nat.min room (String.length s)).
  destruct (bool_decide (String.length (Str.drop n s) = 0%nat)) eqn:Heof.
  - apply bool_decide_eq_true_1, length_zero_empty in Heof.
    pose proof (take_drop n s) as Hs. rewrite Heof, append_empty_r in Hs.
    by rewrite Heof, Hs.
  - apply bool_decide_eq_false_1 in Heof.
    rewrite length_drop_str in Heof.
    assert (Hroom : n = room) by (unfold n in *; lia).
    rewrite IH.
    + rewrite take_drop. reflexivity.
    + intros ->. cbn in Hsum. lia.
    + rewrite length_drop_str. unfold n. lia.
Qed.

Lemma readWith_reads_all_witness :
  Reader.readWith [3; 4]%nat "payload" = ("payload", true, "").
Proof.
  apply (readWith_reads_all [3; 4]%nat "payload"); [discriminate | cbn; lia].
Defined.

(** ** Splitting comma-separated lists *)

Lemma length_append_str (a b : string) :
  String.length (a ++ b) = (String.length a + String.length b)%nat.
Proof.
  induction a as [|ch a IH]; [reflexivity|].
  change (String ch a ++ b) with (String ch (a ++ b)). cbn. by rewrite IH.
Qed.

Lemma occurs_append (c : ascii) (a b : string) :
  Token.occurs c (a ++ b) = Token.occurs c a || Token.occurs c b.
Proof.
  induction a as [|ch a IH]; [reflexivity|].
  change (String ch a ++ b) with (String ch (a ++ b)).
  cbn [Token.occurs]. by rewrite IH, orb_assoc.
Qed.

Lemma rev_append (a b : string) : Str.rev (a ++ b) = Str.rev b ++ Str.rev a.
Proof.
  induction a as [|ch a IH].
  - cbn [Str.rev]. change ("" ++ b) with b. by rewrite append_empty_r.
  - change (String ch a ++ b) with (String ch (a ++ b)).
    cbn [Str.rev]. by rewrite IH, append_assoc_str.
Qed.

Lemma rev_rev (s : string) : Str.rev (Str.rev s) = s.
Proof.
  induction s as [|ch s IH]; [reflexivity|].
  cbn [Str.rev]. rewrite rev_append, IH. reflexivity.
Qed.

Lemma stripPrefix_spec (p s rest : string) :
  Str.stripPrefix p s = Some rest <-> s = p ++ rest.
Proof.
  revert s. induction p as [|a p IH]; intros s.
  - cbn. change ("" ++ rest) with rest. split; congruence.
  - destruct s as [|b s]; cbn [Str.stripPrefix].
    + split; discriminate.
    + change (String a p ++ rest) with (String a (p ++ rest)).
      destruct (decide (a = b)) as [-> | Hne].
      * rewrite bool_decide_eq_true_2 by reflexivity. rewrite IH.
        split; [intros ->; reflexivity | intros [= ->]; reflexivity].
      * rewrite bool_decide_eq_false_2 by assumption.
        split; [discriminate | intros [= Hab _]; congruence].
Qed.

Lemma stripSuffix_spec (p s rest : string) :
  Str.stripSuffix p s = Some rest <-> s = rest ++ p.
Proof.
  unfold Str.stripSuffix. split.
  - destruct (Str.stripPrefix (Str.rev p) (Str.rev s)) as [r|] eqn:Hr; [|discriminate].
    intros [= <-]. apply stripPrefix_spec in Hr.
    apply (f_equal Str.rev) in Hr. by rewrite rev_rev, rev_append, rev_rev in Hr.
  - intros ->. rewrite rev_append.
    rewrite (proj2 (stripPrefix_spec (Str.rev p) (Str.rev p ++ Str.rev rest) (Str.rev rest)) eq_refl).
    cbn. by rewrite rev_rev.
Qed.

Lemma firstOf_Some {A} (f : string -> option A) (ps : list string) (a : A) :
  Str.firstOf f ps = Some a -> exists p, p ∈ ps /\ f p = Some a.
Proof.
  induction ps as [|p ps IH]; [discriminate|]. cbn.
  destruct (f p) as [a'|] eqn:Hp.
  - intros [= <-]. exists p. split; [apply elem_of_cons; by left | exact Hp].
  - intros Hrest. destruct (IH Hrest) as (q & Hq & Hfq).
    exists q. split; [apply elem_of_cons; by right | exact Hfq].
Qed.

Lemma firstOf_None {A} (f : string -> option A) (ps : list string) :
  Str.firstOf f ps = None <-> forall p, p ∈ ps -> f p = None.
Proof.
  induction ps as [|p ps IH]; cbn.
  - split; [intros _ q Hq; by apply elem_of_nil in Hq | reflexivity].
  - destruct (f p) as [a|] eqn:Hp.
    + split; [discriminate|]. intros Hall.
      rewrite (Hall p) in Hp; [discriminate | apply elem_of_cons; by left].
    + rewrite IH. split.
      * intros Hall q Hq. apply elem_of_cons in Hq as [-> | Hq]; auto.
      * intros Hall q Hq. apply Hall, elem_of_cons. by right.
Qed.

(** Every white space rune takes at least one byte and holds no comma. *)
Lemma spaces_shape (sp : string) :
  sp ∈ Str.spaces ->
  (1 <= String.length sp)%nat /\ Token.occurs "," sp = false.
Proof.
  unfold Str.spaces. cbn [map]. intros Hin.
  repeat (apply elem_of_cons in Hin as [-> | Hin]; [split; [cbn; lia | reflexivity]|]).
  by apply elem_of_nil in Hin.
Qed.

Lemma leadingSpace_Some (s rest : string) :
  Str.leadingSpace s = Some rest ->
  exists sp, sp ∈ Str.spaces /\ s = sp ++ rest.
Proof.
  intros H. apply firstOf_Some in H as (sp & Hsp & Hstrip).
  apply stripPrefix_spec in Hstrip. eauto.
Qed.

Lemma trailingSpace_Some (s rest : string) :
  Str.trailingSpace s = Some rest ->
  exists sp, sp ∈ Str.spaces /\ s = rest ++ sp.
Proof.
  intros H. apply firstOf_Some in H as (sp & Hsp & Hstrip).
  apply stripSuffix_spec in Hstrip. eauto.
Qed.

Lemma trimLeftN_done (fuel : nat) (s : string) :
  (String.length s <= fuel)%nat -> Str.leadingSpace (Str.trimLeftN fuel s) = None.
Proof.
  revert s. induction fuel as [|fuel IH]; intros s Hlen; cbn [Str.trimLeftN].
  - rewrite (length_zero_empty s) by lia. reflexivity.
  - destruct (Str.leadingSpace s) as [rest|] eqn:Hs; [|exact Hs].
    apply IH. apply leadingSpace_Some in Hs as (sp & Hsp & ->).
    apply spaces_shape in Hsp as [Hsp _].
    rewrite length_append_str in Hlen. lia.
Qed.

Lemma trimRightN_done (fuel : nat) (s : string) :
  (String.length s <= fuel)%nat -> Str.trailingSpace (Str.trimRightN fuel s) = None.
Proof.
  revert s. induction fuel as [|fuel IH]; intros s Hlen; cbn [Str.trimRightN].
  - rewrite (length_zero_empty s) by lia. reflexivity.
  - destruct (Str.trailingSpace s) as [rest|] eqn:Hs; [|exact Hs].
    apply IH. apply trailingSpace_Some in Hs as (sp & Hsp & ->).
    apply spaces_shape in Hsp as [Hsp _].
    rewrite length_append_str in Hlen. lia.
Qed.

Lemma trimRightN_keeps_left (fuel : nat) (s : string) :
  Str.leadingSpace s = None -> Str.leadingSpace (Str.trimRightN fuel s) = None.
Proof.
  revert s. induction fuel as [|fuel IH]; intros s Hs; cbn [Str.trimRightN]; [exact Hs|].
  destruct (Str.trailingSpace s) as [rest|] eqn:Ht; [|exact Hs].
  apply IH. apply trailingSpace_Some in Ht as (sp & _ & ->).
  apply firstOf_None. intros sp' Hsp'.
  destruct (Str.stripPrefix sp' rest) as [x|] eqn:Hx; [|reflexivity].
  apply stripPrefix_spec in Hx as ->.
  pose proof (proj1 (firstOf_None _ _) Hs sp' Hsp') as Hnone. cbn beta in Hnone.
  rewrite append_assoc_str in Hnone.
  rewrite (proj2 (stripPrefix_spec sp' (sp' ++ x ++ sp) (x ++ sp)) eq_refl) in Hnone.
  discriminate Hnone.
Qed.

Lemma trimLeftN_no (c : ascii) (fuel : nat) (s : string) :
  Token.occurs c s = false -> Token.occurs c (Str.trimLeftN fuel s) = false.
Proof.
  revert s. induction fuel as [|fuel IH]; intros s Hs; cbn [Str.trimLeftN]; [exact Hs|].
  destruct (Str.leadingSpace s) as [rest|] eqn:Hl; [|exact Hs].
  apply IH. apply leadingSpace_Some in Hl as (sp & _ & ->).
  rewrite occurs_append in Hs. by apply orb_false_iff in Hs as [_ ?].
Qed.

Lemma trimRightN_no (c : ascii) (fuel : nat) (s : string) :
  Token.occurs c s = false -> Token.occurs c (Str.trimRightN fuel s) = false.
Proof.
  revert s. induction fuel as [|fuel IH]; intros s Hs; cbn [Str.trimRightN]; [exact Hs|].
  destruct (Str.trailingSpace s) as [rest|] eqn:Hl; [|exact Hs].
  apply IH. apply trailingSpace_Some in Hl as (sp & _ & ->).
  rewrite occurs_append in Hs. by apply orb_false_iff in Hs as [? _].
Qed.

Lemma Split_no_sep (sep : ascii) (s q : string) :
  q ∈ Str.Split sep s -> Token.occurs sep q = false.
Proof.
  revert q. induction s as [|ch s IH]; intros q; cbn [Str.Split].
  - intros Hq. apply list_elem_of_singleton in Hq as ->. reflexivity.
  - destruct (bool_decide (ch = sep)) eqn:Hch.
    + intros Hq. apply elem_of_cons in Hq as [-> | Hq]; [reflexivity | by apply IH].
    + destruct (Str.Split sep s) as [|part parts].
      * intros Hq. apply list_elem_of_singleton in Hq as ->.
        cbn. by rewrite Hch.
      * intros Hq. apply elem_of_cons in Hq as [-> | Hq].
        -- cbn [Token.occurs]. rewrite Hch. apply IH, elem_of_cons. by left.
        -- apply IH, elem_of_cons. by right.
Qed.

(** X10: every part [splitCSV] returns is clean: not empty, without
    comma, and without white space at either end. *)
Theorem splitCSV_parts_are_clean (s p : string) :
  p ∈ CmdMore.splitCSV s -> Csv.clean p.
Proof.
  unfold CmdMore.splitCSV. destruct (bool_decide (s = "")).
  { intros Hp. by apply elem_of_nil in Hp. }
  intros Hp. apply list_elem_of_filter in Hp as [Hne Hp].
  apply list_elem_of_In, in_map_iff in Hp as (q & <- & Hq).
  apply list_elem_of_In, Split_no_sep in Hq.
  split; [exact Hne|]. unfold Str.TrimSpace. split; [|split].
  - by apply trimRightN_no, trimLeftN_no.
  - apply trimRightN_keeps_left, trimLeftN_done. lia.
  - apply trimRightN_done. lia.
Qed.

Lemma splitCSV_parts_are_clean_witness : Csv.clean "b c".
Proof.
  apply (splitCSV_parts_are_clean " a,  b c ,," "b c").
  vm_compute. apply elem_of_cons. right. apply elem_of_cons. by left.
Defined.

Lemma Split_whole (sep : ascii) (x : string) :
  Token.occurs sep x = false -> Str.Split sep x = [x].
Proof.
  induction x as [|ch x IH]; [reflexivity|].
  cbn [Token.occurs Str.Split]. intros Hocc.
  apply orb_false_iff in Hocc as [-> Hrest]. by rewrite (IH Hrest).
Qed.

Lemma Split_at_sep (sep : ascii) (x rest : string) :
  Token.occurs sep x = false ->
  Str.Split sep (x ++ String sep rest) = x :: Str.Split sep rest.
Proof.
  induction x as [|ch x IH]; intros Hocc.
  - change ("" ++ String sep rest) with (String sep rest).
    cbn [Str.Split]. by rewrite bool_decide_eq_true_2.
  - change (String ch x ++ String sep rest) with (String ch (x ++ String sep rest)).
    cbn [Token.occurs] in Hocc. apply orb_false_iff in Hocc as [Hch Hrest].
    cbn [Str.Split]. by rewrite Hch, (IH Hrest).
Qed.

Lemma Split_Join (sep : ascii) (items : list string) :
  items <> [] ->
  (forall p, p ∈ items -> Token.occurs sep p = false) ->
  Str.Split sep (Str.Join items (String sep "")) = items.
Proof.
  unfold Str.Join. induction items as [|x items IH]; intros Hne Hall; [done|].
  destruct items as [|y items].
  - cbn. apply Split_whole, Hall, elem_of_cons. by left.
  - change (String.concat (String sep "") (x :: y :: items))
      with (x ++ String sep (String.concat (String sep "") (y :: items))).
    rewrite Split_at_sep by (apply Hall, elem_of_cons; by left).
    rewrite IH; [reflexivity | discriminate |].
    intros p Hp. apply Hall, elem_of_cons. by right.
Qed.

Lemma TrimSpace_clean (p : string) :
  Str.leadingSpace p = None -> Str.trailingSpace p = None -> Str.TrimSpace p = p.
Proof.
  intros Hl Hr. unfold Str.TrimSpace.
  assert (Hleft : Str.trimLeftN (String.length p) p = p).
  { destruct (String.length p); cbn [Str.trimLeftN]; [reflexivity | by rewrite Hl]. }
  rewrite Hleft.
  destruct (String.length p); cbn [Str.trimRightN]; [reflexivity | by rewrite Hr].
Qed.

(** X11: joining clean items with commas and splitting the result gives
    the items back, in order. *)
Theorem splitCSV_of_Join (items : list string) :
  (forall p, p ∈ items -> Csv.clean p) ->
  CmdMore.splitCSV (Str.Join items ",") = items.
Proof.
  intros Hclean. unfold CmdMore.splitCSV.
  destruct items as [|x items]; [reflexivity|].
  assert (Hne : Str.Join (x :: items) "," <> "").
  { destruct (Hclean x) as (Hx & _); [apply elem_of_cons; by left|].
    unfold Str.Join. destruct items; cbn; [exact Hx|].
    destruct x; [done | discriminate]. }
  rewrite (bool_decide_eq_false_2 _ Hne).
  rewrite Split_Join; [|discriminate|intros p Hp; by destruct (Hclean p Hp) as (_ & ? & _)].
  generalize (x :: items), Hclean. clear.
  induction l as [|p l IH]; intros Hclean; [reflexivity|].
  destruct (Hclean p) as (Hp & _ & Hl & Hr); [apply elem_of_cons; by left|].
  cbn [map]. rewrite (TrimSpace_clean p Hl Hr), filter_cons_True by exact Hp.
  f_equal. apply IH. intros q Hq. apply Hclean, elem_of_cons. by right.
Qed.

Lemma splitCSV_of_Join_witness :
  CmdMore.splitCSV (Str.Join ["Signup"; "Log in"; "$purchase"] ",")
    = ["Signup"; "Log in"; "$purchase"].
Proof.
  apply (splitCSV_of_Join ["Signup"; "Log in"; "$purchase"]).
  intros p Hp.
  repeat (apply elem_of_cons in Hp as [-> | Hp];
          [repeat split; try discriminate; vm_compute; reflexivity|]).
  by apply elem_of_nil in Hp.
Defined.

Lemma asciiSpace_leading (c : ascii) (s : string) :
  Csv.asciiSpace c = true -> Str.leadingSpace (String c s) = Some s.
Proof.
  unfold Csv.asciiSpace. intros Hc. apply bool_decide_eq_true_1 in Hc. cbn [map] in Hc.
  repeat (apply elem_of_cons in Hc as [-> | Hc]; [reflexivity|]).
  by apply elem_of_nil in Hc.
Qed.

Lemma TrimSpace_spaces_only (q : string) :
  Csv.allBytes Csv.asciiSpace q = true -> Str.TrimSpace q = "".
Proof.
  intros Hq. unfold Str.TrimSpace.
  assert (Hleft : forall fuel, (String.length q <= fuel)%nat -> Str.trimLeftN fuel q = "").
  { induction q as [|ch q IH]; intros fuel Hlen.
    - destruct fuel; reflexivity.
    - cbn [Csv.allBytes] in Hq. apply andb_true_iff in Hq as [Hch Hrest].
      destruct fuel as [|fuel]; [cbn in Hlen; lia|].
      cbn [Str.trimLeftN]. rewrite (asciiSpace_leading ch q Hch).
      apply IH; [exact Hrest | cbn in Hlen; lia]. }
  rewrite Hleft by lia. reflexivity.
Qed.

Lemma Split_blank (s q : string) :
  Csv.blank s = true -> q ∈ Str.Split "," s -> Csv.allBytes Csv.asciiSpace q = true.
Proof.
  unfold Csv.blank. revert q. induction s as [|ch s IH]; intros q Hs; cbn [Str.Split].
  - intros Hq. apply list_elem_of_singleton in Hq as ->. reflexivity.
  - cbn [Csv.allBytes] in Hs. apply andb_true_iff in Hs as [Hch Hs].
    unfold Csv.blankByte in Hch.
    destruct (bool_decide (ch = ","%char)) eqn:Hcomma.
    + intros Hq. apply elem_of_cons in Hq as [-> | Hq]; [reflexivity | by apply IH].
    + cbn [orb] in Hch.
      destruct (Str.Split "," s) as [|part parts].
      * intros Hq. apply list_elem_of_singleton in Hq as ->.
        cbn [Csv.allBytes]. by rewrite Hch.
      * intros Hq. apply elem_of_cons in Hq as [-> | Hq].
        -- cbn [Csv.allBytes]. rewrite Hch. apply IH; [exact Hs|].
           apply elem_of_cons. by left.
        -- apply IH; [exact Hs|]. apply elem_of_cons. by right.
Qed.

Lemma splitCSV_blank (s : string) : Csv.blank s = true -> CmdMore.splitCSV s = [].
Proof.
  intros Hs. unfold CmdMore.splitCSV. destruct (bool_decide (s = "")); [reflexivity|].
  assert (Hparts : forall q, q ∈ Str.Split "," s -> Str.TrimSpace q = "").
  { intros q Hq. by apply TrimSpace_spaces_only, (Split_blank s). }
  induction (Str.Split "," s) as [|q l IH]; [reflexivity|].
  cbn [map]. rewrite (Hparts q) by (apply elem_of_cons; by left).
  rewrite filter_cons_False by (intros H; by apply H).
  apply IH. intros q' Hq'. apply Hparts, elem_of_cons. by right.
Qed.

(** X12: given distinct IDs made of commas and white space only,
    [runActivity] fails, with the credentials error if there is one and
    with its own error otherwise, and sends no request. *)
Theorem runActivity_needs_an_ID
    (b64 : string -> string) encode newRequestErr roundTrip toJSONArray
    (Result : Type) (unmarshal : string -> option Result)
    env distinctIDs from to w :
  Csv.blank distinctIDs = true ->
  CmdMore.runActivity b64 encode newRequestErr roundTrip toJSONArray Result
    unmarshal env distinctIDs from to w
  = (match Cmd.newClient b64 env with
     | inl err => inl (CmdMore.ActPassed err)
     | inr _ => inl CmdMore.ActNoIDs
     end, w).
Proof.
  intros Hblank. unfold CmdMore.runActivity.
  destruct (Cmd.newClient b64 env); [reflexivity|].
  rewrite (splitCSV_blank _ Hblank). reflexivity.
Qed.

Lemma runActivity_needs_an_ID_witness :
  CmdMore.runActivity Samples.b64 Samples.encode Samples.anyRequest
    (Samples.script ["{}"]) (fun ids => Str.Join ids ",") string (fun body => Some body)
    (Samples.configured "eu" "") " , ,, " "2024-01-01" "2024-01-31" Http.World0
  = (inl CmdMore.ActNoIDs, Http.World0).
Proof.
  apply (runActivity_needs_an_ID Samples.b64 Samples.encode Samples.anyRequest
           (Samples.script ["{}"]) (fun ids => Str.Join ids ",") string
           (fun body => Some body) (Samples.configured "eu" "")
           " , ,, " "2024-01-01" "2024-01-31" Http.World0).
  reflexivity.
Defined.

(** ** The configuration store *)

Lemma knownKeys_known (key : string) :
  key ∈ ConfigView.KnownKeyNames -> exists d, Config.knownKeys !! key = Some d.
Proof.
  unfold ConfigView.KnownKeyNames. intros Hin.
  repeat (apply elem_of_cons in Hin as [-> | Hin]; [eexists; reflexivity|]).
  by apply elem_of_nil in Hin.
Qed.


Lemma lower_region_check (r : string) :
  negb (bool_decide (r = "us")) && negb (bool_decide (r = "eu"))
    && negb (bool_decide (r = "in")) = negb (bool_decide (r ∈ Urls.regions)).
Proof.
  unfold Urls.regions, Urls.RegionUS, Urls.RegionEU, Urls.RegionIN.
  destruct (decide (r = "us")) as [-> | Hus]; [reflexivity|].
  destruct (decide (r = "eu")) as [-> | Heu]; [reflexivity|].
  destruct (decide (r = "in")) as [-> | Hin]; [reflexivity|].
  rewrite !bool_decide_eq_false_2 by assumption. cbn [negb andb].
  rewrite bool_decide_eq_false_2; [reflexivity|].
  intros Hin'. repeat (apply elem_of_cons in Hin' as [? | Hin']; [contradiction|]).
  by apply elem_of_nil in Hin'.
Qed.




Lemma Set_region_stored (mapLower : string -> string)
    (store store' : gmap string string) (value : string) :
  Config.Set_ mapLower store "region" value = inr store' ->
  Strings.ToLower mapLower value ∈ Urls.regions /\
  store' = <["region" := Strings.ToLower mapLower value]> store.
Proof.
  unfold Config.Set_.
  destruct (knownKeys_known "region") as [d ->].
  { unfold ConfigView.KnownKeyNames. apply elem_of_cons. right.
    apply elem_of_cons. by left. }
  change (bool_decide ("region" = Config.KeyRegion)) with true. cbv iota zeta.
  rewrite lower_region_check.
  destruct (bool_decide (Strings.ToLower mapLower value ∈ Urls.regions))
    eqn:Hvalid; cbn [negb]; [|discriminate].
  intros [= <-]. split; [by apply bool_decide_eq_true_1 in Hvalid | reflexivity].
Qed.

(** X14: a region that [Config.Set] stores is one that the start-up check
    and [New] accept: where the settings read are the stored ones, the
    check passes and, with credentials, [New] builds a client for the
    region. *)
Theorem stored_region_is_accepted
    (mapLower : string -> string)
    (write : gmap string string -> option string)
    (store store' : gmap string string) (value : string)
    (environ : gmap string string) (b64 : string -> string)
    (account secret projectID : string) (debug : bool) :
  ConfigView.Set_ mapLower write store "region" value = (None, store') ->
  account <> "" -> secret <> "" ->
  Cmd.PersistentPreRunE mapLower (Cmd.mkEnv store' environ) = None /\
  exists c,
    Client.New b64 account secret (ConfigView.Get store' "region") projectID debug
      = inr c /\
    Client.region c = Strings.ToLower mapLower value.
Proof.
  intros Hset Haccount Hsecret. unfold ConfigView.Set_ in Hset.
  destruct (Config.Set_ mapLower store "region" value) as [err | store'']
    eqn:Hchecks; [discriminate|].
  injection Hset as _ ->.
  apply Set_region_stored in Hchecks as [Hvalid ->].
  unfold Cmd.PersistentPreRunE, Cmd.GetString, Client.New, ConfigView.Get.
  cbn [Cmd.viper]. rewrite lookup_insert_eq. cbn [default].
  rewrite (bool_decide_eq_false_2 _ Haccount), (bool_decide_eq_false_2 _ Hsecret).
  cbn [orb].
  unfold Urls.regions, Urls.RegionUS, Urls.RegionEU, Urls.RegionIN in Hvalid.
  repeat (apply elem_of_cons in Hvalid as [-> | Hvalid];
          [split; [reflexivity | eexists; split; reflexivity]|]).
  by apply elem_of_nil in Hvalid.
Qed.

Lemma stored_region_is_accepted_witness :
  let dotted := Str.bytes [196; 176; 78]%N in
  let store' := <["region" := "in"]> MoreSamples.store in
  ConfigView.Set_ MoreSamples.dottedI (fun _ => None) MoreSamples.store
    "region" dotted = (None, store') /\
  Cmd.PersistentPreRunE MoreSamples.dottedI (Cmd.mkEnv store' ∅) = None /\
  exists c, Client.New Samples.b64 "svc" "s3cret" (ConfigView.Get store' "region")
              "42" false = inr c /\
            Client.region c = "in".
Proof.
  intros dotted store'.
  assert (Hset : ConfigView.Set_ MoreSamples.dottedI (fun _ => None)
                   MoreSamples.store "region" dotted = (None, store'))
    by (vm_compute; reflexivity).
  split; [exact Hset|].
  apply (stored_region_is_accepted MoreSamples.dottedI (fun _ => None)
           MoreSamples.store store' dotted ∅ Samples.b64
           "svc" "s3cret" "42" false Hset); discriminate.
Defined.

Lemma listKey_cases (store : gmap string string) (key : string) :
  ConfigView.listKey store key =
    if bool_decide (ConfigView.Get store key = "") then []
    else [ConfigView.mkEntry key
            (if bool_decide (key = "service_secret")
             then ConfigView.mask (ConfigView.Get store key)
             else ConfigView.Get store key)].
Proof.
  unfold ConfigView.listKey. cbv zeta.
  destruct (bool_decide (ConfigView.Get store key = "")); [reflexivity|].
  unfold ConfigView.sensitiveKeys, Config.KeyServiceSecret.
  destruct (decide (key = "service_secret")) as [-> | Hne].
  - reflexivity.
  - rewrite (bool_decide_eq_false_2 _ Hne).
    rewrite not_elem_of_list_to_map_1; [reflexivity|].
    cbn. intros Hin. apply list_elem_of_singleton in Hin. congruence.
Qed.

(** X15: the listing shows the known keys that are set, in the order of
    [KnownKeyNames], each with the value stored, except that the secret is
    shown masked. *)
Theorem List_shows_set_keys_and_masks_secret (store : gmap string string) :
  map ConfigView.Key (ConfigView.List store)
    = filter (fun k => ConfigView.Get store k <> "") ConfigView.KnownKeyNames /\
  forall e, e ∈ ConfigView.List store ->
    ConfigView.Value e =
      if bool_decide (ConfigView.Key e = "service_secret")
      then ConfigView.mask (ConfigView.Get store (ConfigView.Key e))
      else ConfigView.Get store (ConfigView.Key e).
Proof.
  unfold ConfigView.List, ConfigView.KnownKeyNames. cbn [flat_map].
  rewrite !listKey_cases. split.
  - rewrite !filter_cons, filter_nil.
    repeat case_bool_decide; repeat case_decide; try contradiction; reflexivity.
  - intros e He.
    repeat (apply elem_of_app in He as [He | He];
            [ destruct (bool_decide (ConfigView.Get store _ = ""));
              [by apply elem_of_nil in He|];
              apply list_elem_of_singleton in He as ->; reflexivity | ]).
    by apply elem_of_nil in He.
Qed.

Lemma List_shows_set_keys_and_masks_secret_witness :
  ConfigView.List MoreSamples.store =
    [ ConfigView.mkEntry "project_id" "42";
      ConfigView.mkEntry "service_account" "svc";
      ConfigView.mkEntry "service_secret" "s3cr****" ] /\
  ConfigView.Value (ConfigView.mkEntry "service_secret" "s3cr****")
    = ConfigView.mask "s3cr3t-value".
Proof.
  split; [vm_compute; reflexivity|].
  apply (proj2 (List_shows_set_keys_and_masks_secret MoreSamples.store)
           (ConfigView.mkEntry "service_secret" "s3cr****")).
  vm_compute. do 2 (apply elem_of_cons; right). apply elem_of_cons. by left.
Defined.

(** X16: the listing shows of a secret its first four bytes at most: two
    secrets longer than four bytes that start alike are listed alike. *)
Theorem List_hides_the_secret (store : gmap string string) (s1 s2 : string) :
  (4 < String.length s1)%nat -> (4 < String.length s2)%nat ->
  Str.take 4 s1 = Str.take 4 s2 ->
  ConfigView.List (<["service_secret" := s1]> store)
    = ConfigView.List (<["service_secret" := s2]> store).
Proof.
  intros Hlong1 Hlong2 Hprefix.
  unfold ConfigView.List, ConfigView.KnownKeyNames. cbn [flat_map].
  rewrite !listKey_cases. unfold ConfigView.Get, ConfigView.mask.
  unfold Config.KeyProjectID, Config.KeyRegion, Config.KeyServiceAccount,
    Config.KeyServiceSecret.
  rewrite !lookup_insert_eq.
  rewrite !(lookup_insert_ne _ "service_secret") by discriminate.
  cbn [from_option id].
  destruct (Nat.leb_spec (String.length s1) 4); [lia|].
  destruct (Nat.leb_spec (String.length s2) 4); [lia|].
  rewrite Hprefix.
  rewrite (bool_decide_eq_false_2 (s1 = "")) by (intros ->; cbn in Hlong1; lia).
  rewrite (bool_decide_eq_false_2 (s2 = "")) by (intros ->; cbn in Hlong2; lia).
  reflexivity.
Qed.

Lemma List_hides_the_secret_witness :
  ConfigView.List (<["service_secret" := "s3cr3t-value"]> MoreSamples.store)
    = ConfigView.List (<["service_secret" := "s3cr-another-one"]> MoreSamples.store).
Proof.
  apply (List_hides_the_secret MoreSamples.store "s3cr3t-value" "s3cr-another-one");
    [cbn; lia | cbn; lia | reflexivity].
Defined.

(** ** Field filters *)
Section FilterFacts.
Variable V : Type.

Lemma pick_from (data acc : gmap string V) (fields : list string) (k : string) :
  foldl (fun filtered f =>
           match data !! f with
           | Some val => <[f := val]> filtered
           | None => filtered
           end) acc fields !! k
  = if bool_decide (k ∈ fields)
    then match data !! k with Some v => Some v | None => acc !! k end
    else acc !! k.
Proof.
  revert acc. induction fields as [|f fields IH]; intros acc; cbn [foldl].
  - rewrite bool_decide_eq_false_2; [reflexivity | apply not_elem_of_nil].
  - rewrite IH. destruct (decide (k ∈ fields)) as [Hin | Hout].
    + rewrite !bool_decide_eq_true_2; [|apply elem_of_cons; by right|exact Hin].
      destruct (data !! k) as [v|] eqn:Hk; [reflexivity|].
      destruct (data !! f) as [val|] eqn:Hf; [|reflexivity].
      rewrite lookup_insert_ne; [reflexivity | congruence].
    + rewrite (bool_decide_eq_false_2 (k ∈ fields)) by exact Hout.
      destruct (decide (k = f)) as [-> | Hne].
      * rewrite bool_decide_eq_true_2 by (apply elem_of_cons; by left).
        destruct (data !! f) as [val|]; [by rewrite lookup_insert_eq | reflexivity].
      * rewrite bool_decide_eq_false_2.
        -- destruct (data !! f); [by rewrite lookup_insert_ne | reflexivity].
        -- intros Hin. apply elem_of_cons in Hin as [? | ?]; contradiction.
Qed.

Lemma pick_lookup (data : gmap string V) (fields : list string) (k : string) :
  Output.pick data fields !! k = if bool_decide (k ∈ fields) then data !! k else None.
Proof.
  unfold Output.pick. rewrite pick_from, lookup_empty.
  destruct (bool_decide (k ∈ fields)); [|reflexivity].
  destruct (data !! k); reflexivity.
Qed.

(** X17: with fields given, [FilterFieldsSingle] keeps of an object
    exactly the listed fields it has, each with its value; with no field
    given it returns the object as it is. *)
Theorem FilterFieldsSingle_lookup (data : gmap string V) (fields : list string)
    (k : string) :
  Output.FilterFieldsSingle data fields !! k =
    if bool_decide (fields = []) then data !! k
    else if bool_decide (k ∈ fields) then data !! k else None.
Proof.
  destruct fields as [|f fields]; [reflexivity|].
  rewrite (bool_decide_eq_false_2 (f :: fields = [])) by discriminate.
  apply pick_lookup.
Qed.

(** X18: [FilterFields] filters each object as [FilterFieldsSingle] does,
    keeping their number and order, and filtering twice by the same fields
    changes nothing more. *)
Theorem FilterFields_pointwise_idempotent
    (data : list (gmap string V)) (fields : list string) :
  Output.FilterFields data fields
    = map (fun item => Output.FilterFieldsSingle item fields) data /\
  length (Output.FilterFields data fields) = length data /\
  Output.FilterFields (Output.FilterFields data fields) fields
    = Output.FilterFields data fields.
Proof.
  destruct fields as [|f fields].
  - cbn. rewrite map_id. auto.
  - cbn [Output.FilterFields Output.FilterFieldsSingle].
    split; [reflexivity|]. split; [apply length_map|].
    rewrite map_map. apply map_ext. intros item.
    apply map_eq. intros k. rewrite !pick_lookup.
    destruct (bool_decide (k ∈ f :: fields)); reflexivity.
Qed.
End FilterFacts.

(** ** More on the pagination loop *)
Section PaginationMore.
Import Http Cmd Paging.
Variable encode : Values -> string.
Variable newRequestErr : string -> string -> option string.
Variable roundTrip : nat -> Request -> string + Response.
Variable Profile : Type.
Variable unmarshal : string -> option (engageResponse Profile).
Variable c : Client.Client.
Variable what : string.
Variable baseParams : Values.

Local Abbreviation paginate :=
  (Cmd.paginate encode newRequestErr roundTrip Profile unmarshal).
Local Abbreviation fetched :=
  (Paging.fetched encode newRequestErr roundTrip unmarshal c baseParams).
Local Abbreviation pagesSeen limit pageSize :=
  (Paging.pagesSeen encode newRequestErr roundTrip unmarshal c
     baseParams limit pageSize).
Local Abbreviation Post st :=
  (Client.Post encode newRequestErr roundTrip c Urls.APIFamilyQuery "/engage"
     (pageParams baseParams st)).

(** One turn of the loop on whatever [Post] returns, up to the decoding of
    the body. *)
Lemma paginate_on_answer fuel limit pageSize st w r w1 :
  Post st w = (r, w1) ->
  paginate (S fuel) c what baseParams limit pageSize st w =
    match r with
    | inl err => (Some (inl (ErrQuerying what (page st) err)), w1)
    | inr None => (Some (inl ErrNilResponse), w1)
    | inr (Some resp) =>
        match readResponseBody (Body resp) (StatusCode resp) with
        | inl err => (Some (inl err), w1)
        | inr body =>
            match unmarshal body with
            | None => (Some (inl (ErrParsing what)), w1)
            | Some e =>
                paginate (S fuel) c what baseParams limit pageSize st w
            end
        end
    end.
Proof.
  intros Hpost. destruct r as [err | [resp|]].
  - cbn [Cmd.paginate]. unfold bind at 1. by rewrite Hpost.
  - destruct (readResponseBody (Body resp) (StatusCode resp)) as [err|body] eqn:Hread.
    + cbn [Cmd.paginate]. unfold bind at 1. by rewrite Hpost, Hread.
    + destruct (unmarshal body) eqn:Hjson; [reflexivity|].
      cbn [Cmd.paginate]. unfold bind at 1. by rewrite Hpost, Hread, Hjson.
  - cbn [Cmd.paginate]. unfold bind at 1. by rewrite Hpost.
Qed.

Lemma pagesSeen_page limit pageSize n st0 w0 st w :
  pagesSeen limit pageSize n st0 w0 st w -> page st = page st0 + Z.of_nat n.
Proof.
  induction 1 as [st w | n st w e w1 st' w' _ _ _ _ IH]; [lia|].
  rewrite IH. unfold nextState. cbn [page]. lia.
Qed.


(** X20: when a request of the run fails, the error names the page asked
    for, which is the number of pages read before it. *)
Theorem paginate_names_the_failed_page limit pageSize n w0 st w err w1 fuel :
  pagesSeen limit pageSize n initState w0 st w ->
  Post st w = (inl err, w1) ->
  paginate (n + S fuel) c what baseParams limit pageSize initState w0
    = (Some (inl (ErrQuerying what (Z.of_nat n) err)), w1).
Proof.
  intros Hseen Hpost.
  rewrite (paginate_after_pages _ _ _ _ _ _ _ _ _ _ _ _ _ _ _ Hseen).
  rewrite (paginate_on_answer fuel limit pageSize st w _ w1 Hpost).
  rewrite (pagesSeen_page _ _ _ _ _ _ _ Hseen). reflexivity.
Qed.

(** X21: with a positive cap, a run never returns more records than the
    cap. *)
Theorem paginate_respects_the_cap limit pageSize fuel w total records w' :
  0 < limit ->
  paginate fuel c what baseParams limit pageSize initState w
    = (Some (inr (total, records)), w') ->
  len records <= limit.
Proof.
  intros Hcap.
  assert (Hgen : forall fuel st w,
             len (allResults st) <= limit ->
             paginate fuel c what baseParams limit pageSize st w
               = (Some (inr (total, records)), w') ->
             len records <= limit).
  { clear fuel w. induction fuel as [|fuel IH]; intros st w Hacc Hrun; [discriminate Hrun|].
    destruct (Post st w) as [r w1] eqn:Hpost.
    rewrite (paginate_on_answer fuel limit pageSize st w r w1 Hpost) in Hrun.
    destruct r as [err | [resp|]]; try discriminate Hrun.
    destruct (readResponseBody (Body resp) (StatusCode resp)) as [err|body] eqn:Hread;
      [discriminate Hrun|].
    destruct (unmarshal body) as [e|] eqn:Hjson; [|discriminate Hrun].
    assert (Hf : fetched st w e w1) by (exists resp, body; auto).
    rewrite (paginate_on_page _ _ _ _ _ _ _ _ _ _ _ _ _ _ _ Hf) in Hrun.
    destruct (negb _ && negb _); [discriminate Hrun|].
    destruct (Z.ltb_spec 0 limit); [|lia]. cbn [andb] in Hrun.
    destruct (Z.leb_spec limit (len (appended st e))) as [Hreach|Hbelow].
    - injection Hrun as _ <- _. unfold len in *. rewrite length_take. lia.
    - destruct (totalAfter st e <=? len (appended st e));
        [injection Hrun as _ <- _; lia|].
      destruct (len (Results e) <? pageSize);
        [injection Hrun as _ <- _; lia|].
      apply IH in Hrun; [exact Hrun|]. unfold nextState. cbn [allResults]. lia. }
  apply Hgen. unfold initState, len. cbn. lia.
Qed.

(** X22: the total a run returns is the total of its first page, whatever
    the later pages report. *)
Theorem paginate_reports_the_first_total
    limit pageSize fuel w0 e1 w1 total records w' :
  fetched initState w0 e1 w1 ->
  paginate fuel c what baseParams limit pageSize initState w0
    = (Some (inr (total, records)), w') ->
  total = Total e1.
Proof.
  intros Hfirst Hrun.
  assert (Hgen : forall fuel st w,
             0 <= totalFromAPI st ->
             paginate fuel c what baseParams limit pageSize st w
               = (Some (inr (total, records)), w') ->
             total = totalFromAPI st).
  { clear. induction fuel as [|fuel IH]; intros st w Hknown Hrun; [discriminate Hrun|].
    destruct (Post st w) as [r w1] eqn:Hpost.
    rewrite (paginate_on_answer fuel limit pageSize st w r w1 Hpost) in Hrun.
    destruct r as [err | [resp|]]; try discriminate Hrun.
    destruct (readResponseBody (Body resp) (StatusCode resp)) as [err|body] eqn:Hread;
      [discriminate Hrun|].
    destruct (unmarshal body) as [e|] eqn:Hjson; [|discriminate Hrun].
    assert (Hf : fetched st w e w1) by (exists resp, body; auto).
    rewrite (paginate_on_page _ _ _ _ _ _ _ _ _ _ _ _ _ _ _ Hf) in Hrun.
    assert (Htotal : totalAfter st e = totalFromAPI st).
    { unfold totalAfter. destruct (Z.ltb_spec (totalFromAPI st) 0); [lia|reflexivity]. }
    rewrite Htotal in Hrun.
    destruct (negb _ && negb _); [discriminate Hrun|].
    destruct (_ && _); [by injection Hrun as <- _ _|].
    destruct (_ <=? _); [by injection Hrun as <- _ _|].
    destruct (_ <? _); [by injection Hrun as <- _ _|].
    apply IH in Hrun; [|unfold nextState; cbn [totalFromAPI]; lia].
    rewrite Hrun. unfold nextState. cbn [totalFromAPI]. exact Htotal. }
  destruct fuel as [|fuel]; [discriminate Hrun|].
  rewrite (paginate_on_page _ _ _ _ _ _ _ _ _ _ _ _ _ _ _ Hfirst) in Hrun.
  assert (Htotal : totalAfter initState e1 = Total e1) by reflexivity.
  rewrite Htotal in Hrun.
  destruct (negb _ && negb _); [discriminate Hrun|].
  destruct (_ && _); [by injection Hrun as <- _ _|].
  destruct (Z.leb_spec (Total e1) (len (appended initState e1))) as [|Hbelow];
    [by injection Hrun as <- _ _|].
  destruct (_ <? _); [by injection Hrun as <- _ _|].
  apply Hgen in Hrun; [|unfold nextState; cbn [totalFromAPI]; rewrite Htotal; unfold len in *; lia].
  rewrite Hrun. unfold nextState. cbn [totalFromAPI]. exact Htotal.
Qed.

End PaginationMore.

(** ** Checks made before anything is sent *)

(** X24: a page size outside 1..1000, a failure to build the client, or a
    missing project id stops both profile commands before any request:
    they return the first of these errors and leave the world as it was. *)
Theorem profiles_commands_check_before_sending
    (b64 : string -> string) encode newRequestErr roundTrip (Profile : Type)
    (unmarshal : string -> option (Cmd.engageResponse Profile))
    csvToJSONArray cohortToJSON fuel env
    where_ distinctID distinctIDs properties groupKey cohortID limit pageSize w :
  (pageSize < 1 \/ 1000 < pageSize \/
   (exists err, Cmd.newClient b64 env = inl err) \/
   Cmd.GetString env "project_id" = "") ->
  let firstError :=
    if (pageSize <? 1) || (1000 <? pageSize) then ErrPageSize
    else match Cmd.newClient b64 env with
         | inl err => err
         | inr _ => ErrProjectIDRequired
         end in
  Cmd.runProfilesQuery b64 encode newRequestErr roundTrip Profile unmarshal
    csvToJSONArray cohortToJSON fuel env where_ distinctID distinctIDs
    properties cohortID limit pageSize w = (Some (inl firstError), w) /\
  Cmd.runProfilesGroups b64 encode newRequestErr roundTrip Profile unmarshal
    csvToJSONArray fuel env groupKey where_ properties limit pageSize w
    = (Some (inl firstError), w).
Proof.
  intros Hbad firstError. unfold firstError, Cmd.runProfilesQuery, Cmd.runProfilesGroups.
  destruct ((pageSize <? 1) || (1000 <? pageSize)) eqn:Hsize; [split; reflexivity|].
  apply orb_false_iff in Hsize as [Hlow Hhigh].
  apply Z.ltb_ge in Hlow. apply Z.ltb_ge in Hhigh.
  destruct (Cmd.newClient b64 env) as [err|c] eqn:Hclient; [split; reflexivity|].
  destruct Hbad as [? | [? | [[err Herr] | Hpid]]]; [lia | lia | discriminate Herr |].
  unfold Cmd.addProjectID, Cmd.requireProjectID. cbv zeta. rewrite Hpid.
  split; reflexivity.
Qed.

Lemma profiles_commands_check_before_sending_witness :
  Cmd.runProfilesQuery Samples.b64 Samples.encode Samples.anyRequest
    (Samples.script ["full"]) nat Samples.unmarshal (fun s => s) (fun _ => "")
    5 (Samples.configured "eu" "") "" "" "" "" 0 0 5000 Http.World0
  = (Some (inl ErrPageSize), Http.World0) /\
  Cmd.runProfilesGroups Samples.b64 Samples.encode Samples.anyRequest
    (Samples.script ["full"]) nat Samples.unmarshal (fun s => s)
    5 (Samples.configured "eu" "nocolon") "companies" "" "" 0 100 Http.World0
  = (Some (inl ErrTokenFormat), Http.World0).
Proof.
  split.
  - apply (profiles_commands_check_before_sending Samples.b64 Samples.encode
             Samples.anyRequest (Samples.script ["full"]) nat Samples.unmarshal
             (fun s => s) (fun _ => "") 5 (Samples.configured "eu" "")
             "" "" "" "" "" 0 0 5000 Http.World0).
    right. left. lia.
  - apply (profiles_commands_check_before_sending Samples.b64 Samples.encode
             Samples.anyRequest (Samples.script ["full"]) nat Samples.unmarshal
             (fun s => s) (fun _ => "") 5 (Samples.configured "eu" "nocolon")
             "" "" "" "" "companies" 0 0 100 Http.World0).
    right. right. left. eexists. reflexivity.
Defined.

(** ** The MP_TOKEN override *)

(** X25: a well-formed MP_TOKEN replaces the configured account and
    secret altogether: [newClient] is [New] on the two parts of the token,
    and the client it builds authenticates with the encoded token itself. A
    secret may hold colons: the token is cut at its first colon only. *)
Theorem newClient_uses_the_token
    (b64 : string -> string) (env : Cmd.Env) (account secret : string) :
  Token.wellFormed (Cmd.Getenv env "MP_TOKEN") account secret ->
  Cmd.newClient b64 env =
    Client.New b64 account secret
      (if bool_decide (Cmd.GetString env "region" = "") then "us"
       else Cmd.GetString env "region")
      (Cmd.GetString env "project_id") (Cmd.isDebug env) /\
  forall c, Cmd.newClient b64 env = inr c ->
    Client.auth c = b64 (Cmd.Getenv env "MP_TOKEN").
Proof.
  intros (Htoken & Hacc & Haccount & Hsecret).
  assert (Hnew : Cmd.newClient b64 env =
                 Client.New b64 account secret
                   (if bool_decide (Cmd.GetString env "region" = "") then "us"
                    else Cmd.GetString env "region")
                   (Cmd.GetString env "project_id") (Cmd.isDebug env)).
  { unfold Cmd.newClient. cbv zeta.
    assert (Hset : Cmd.Getenv env "MP_TOKEN" <> "").
    { rewrite Htoken. destruct account; discriminate. }
    rewrite (bool_decide_eq_false_2 _ Hset). cbn [negb]. unfold Strings.SplitN2.
    rewrite Htoken, (cut_first _ _ _ Hacc).
    rewrite (bool_decide_eq_false_2 _ Haccount), (bool_decide_eq_false_2 _ Hsecret).
    reflexivity. }
  split; [exact Hnew|].
  intros c Hc. rewrite Hnew in Hc. unfold Client.New in Hc.
  destruct (negb _); [discriminate Hc|].
  destruct (_ || _); [discriminate Hc|].
  injection Hc as <-. cbn [Client.auth]. rewrite Htoken. reflexivity.
Qed.

Lemma newClient_uses_the_token_witness :
  exists c,
    Cmd.newClient Samples.b64 (Samples.configured "eu" "robot:pa:ss") = inr c /\
    Client.auth c = "robot:pa:ss".
Proof.
  destruct (newClient_uses_the_token Samples.b64 (Samples.configured "eu" "robot:pa:ss")
              "robot" "pa:ss") as [Hnew Hauth].
  { repeat split; discriminate. }
  destruct (Cmd.newClient Samples.b64 (Samples.configured "eu" "robot:pa:ss"))
    as [err|c] eqn:Hc; [vm_compute in Hc; discriminate Hc|].
  exists c. split; [reflexivity|]. apply (Hauth c eq_refl).
Defined.

(** ** Examples of the further properties *)

Lemma do_does_not_retry_transport_failure_witness :
  exists w',
    Client.do Samples.encode Samples.anyRequest (Samples.script [])
      Samples.client "GET" "export" "/export" Samples.baseParams ∅ Http.World0
      = (inl (ErrExecutingRequest "connection refused"), w') /\
    length (Http.wire w') = 1%nat /\ Http.slept w' = [].
Proof.
  destruct (do_does_not_retry_transport_failure Samples.encode Samples.anyRequest
              (Samples.script []) Samples.client "GET" "export" "/export"
              Samples.baseParams ∅ "https://data.mixpanel.com/api/2.0" Http.World0
              "connection refused") as (w' & Hrun & Hwire & Hslept);
    try reflexivity.
  exists w'. split; [exact Hrun|]. split; [by rewrite Hwire | exact Hslept].
Defined.

Lemma do_returns_other_status_at_once_witness :
  exists w' resp,
    Client.do Samples.encode Samples.anyRequest (MoreSamples.answering 503)
      Samples.client "POST" "query" "/engage" ∅ Samples.baseParams Http.World0
      = (inr (Some resp), w') /\
    Http.StatusCode resp = 503 /\
    length (Http.wire w') = 1%nat /\ Http.slept w' = [].
Proof.
  destruct (do_returns_other_status_at_once Samples.encode Samples.anyRequest
              (MoreSamples.answering 503) Samples.client "POST" "query" "/engage"
              ∅ Samples.baseParams "https://mixpanel.com/api/query" Http.World0
              (Http.mkResponse 503 "" ∅ (inr "sorry")))
    as (w' & Hrun & Hwire & Hslept); try reflexivity.
  { discriminate. }
  exists w', (Http.mkResponse 503 "" ∅ (inr "sorry")).
  split; [exact Hrun|]. split; [reflexivity|].
  split; [by rewrite Hwire | exact Hslept].
Defined.

Lemma do_retry_returns_second_answer_witness :
  exists w',
    Client.do Samples.encode Samples.anyRequest MoreSamples.throttledOnce
      Samples.client "POST" "query" "/engage" ∅ Samples.baseParams Http.World0
      = (inr (Some (Samples.ok200 "done")), w') /\
    length (Http.wire w') = 2%nat /\
    Http.slept w' = [3 * Time.Second].
Proof.
  destruct (do_retry_returns_second_answer Samples.encode Samples.anyRequest
              MoreSamples.throttledOnce Samples.client "POST" "query" "/engage"
              ∅ Samples.baseParams "https://mixpanel.com/api/query" Http.World0
              (Samples.throttled ["3"]) (Samples.ok200 "done"))
    as (w' & Hrun & Hwire & Hslept); try reflexivity.
  { discriminate. }
  exists w'. split; [exact Hrun|]. split; [by rewrite Hwire | by rewrite Hslept].
Defined.

Lemma do_sends_one_request_at_most_twice_witness :
  Http.stderr (snd (Client.do Samples.encode Samples.anyRequest
                      Samples.alwaysThrottled Samples.client "GET" "query"
                      "/segmentation" Samples.baseParams ∅ Http.World0)) = [].
Proof.
  destruct (do_sends_one_request_at_most_twice Samples.encode Samples.anyRequest
              Samples.alwaysThrottled Samples.client "GET" "query" "/segmentation"
              Samples.baseParams ∅ Http.World0)
    as (k & req & waits & _ & _ & _ & _ & _ & Hquiet).
  apply Hquiet. reflexivity.
Defined.

Lemma do_requests_are_authenticated_https_witness :
  let req := Client.buildRequest Samples.client "GET"
               "https://mixpanel.com/api/query/segmentation" "" None in
  Http.Get (Http.ReqHeader req) "Authorization" = "Basic svc:s3cret" /\
  exists rest, Http.URL req = "https://" ++ rest.
Proof.
  intros req.
  destruct (do_requests_are_authenticated_https Samples.encode Samples.anyRequest
              Samples.alwaysThrottled Samples.client "GET" "query" "/segmentation"
              ∅ ∅ Http.World0 req) as (Hauth & _ & _ & Hurl).
  { vm_compute. apply elem_of_cons. by left. }
  split; [exact Hauth | exact Hurl].
Defined.

Lemma Get_and_Post_place_the_parameters_witness :
  let req := Client.buildRequest Samples.client "POST"
               "https://mixpanel.com/api/query/engage"
               "application/x-www-form-urlencoded"
               (Some (Samples.encode Samples.baseParams)) in
  exists base,
    Urls.ResolveURL "query" "us" = inr base /\
    Http.URL req = base ++ "/engage" /\
    Http.ReqBody req = Some (Samples.encode Samples.baseParams).
Proof.
  intros req.
  destruct (proj2 (Get_and_Post_place_the_parameters Samples.encode
                     Samples.anyRequest (MoreSamples.answering 200) Samples.client
                     "query" "/engage" Samples.baseParams Http.World0 req))
    as (base & Hbase & _ & Hurl & Hbody & _).
  { vm_compute. apply elem_of_cons. by left. }
  exists base. split; [exact Hbase|]. split; [exact Hurl|]. exact Hbody.
Defined.

Lemma New_client_sends_to_every_family_witness :
  exists base, Urls.ResolveURL "ingestion" "in" = inr base.
Proof.
  destruct (New_client_sends_to_every_family Samples.encode Samples.anyRequest
              (Samples.script []) Samples.b64 "svc" "s3cret" "in" "42" false
              (Client.mkClient "svc:s3cret" "in" "42" false (Int64.mul 120 Time.Second))
              "GET" "ingestion" "/lookup-tables" ∅ ∅ Http.World0 eq_refl)
    as [Hbase _].
  { unfold Urls.families. do 3 (apply elem_of_cons; right). apply elem_of_cons. by left. }
  exact Hbase.
Defined.


Lemma paginate_names_the_failed_page_witness :
  exists w',
    Cmd.paginate Samples.encode Samples.anyRequest (Samples.script ["full"])
      nat Samples.unmarshal 3 Samples.client "profiles" Samples.baseParams
      0 100 Cmd.initState Http.World0
    = (Some (inl (ErrQuerying "profiles" 1
                    (ErrExecutingRequest "connection refused"))), w').
Proof.
  set (server := Samples.script ["full"]).
  set (e1 := Samples.pageOf 100 250 "ok").
  set (w1 := snd (Client.Post Samples.encode Samples.anyRequest server
                    Samples.client "query" "/engage"
                    (Cmd.pageParams Samples.baseParams (@Cmd.initState nat)) Http.World0)).
  set (st1 := Paging.nextState (@Cmd.initState nat) e1).
  set (w2 := snd (Client.Post Samples.encode Samples.anyRequest server
                    Samples.client "query" "/engage"
                    (Cmd.pageParams Samples.baseParams st1) w1)).
  exists w2.
  apply (paginate_names_the_failed_page Samples.encode Samples.anyRequest server
           nat Samples.unmarshal Samples.client "profiles" Samples.baseParams
           0 100 1 Http.World0 st1 w1 (ErrExecutingRequest "connection refused") w2 1).
  - apply Paging.seen_more with (e := e1) (w1 := w1).
    + exists (Samples.ok200 "full"), "full".
      split; [vm_compute; reflexivity|]. split; reflexivity.
    + left. reflexivity.
    + unfold Paging.goesOn. split; [|split].
      * intros [Hcap _]. vm_compute in Hcap. discriminate Hcap.
      * vm_compute. reflexivity.
      * vm_compute. discriminate.
    + apply Paging.seen_none.
  - vm_compute. reflexivity.
Defined.

Lemma paginate_respects_the_cap_witness :
  Cmd.len (take 120 (seq 0 100 ++ seq 0 100)) <= 120.
Proof.
  set (server := Samples.script ["full"; "full"; "short"]).
  destruct (Cmd.paginate Samples.encode Samples.anyRequest server nat
              Samples.unmarshal 5 Samples.client "profiles" Samples.baseParams
              120 100 Cmd.initState Http.World0) as [res w'] eqn:Hrun.
  apply (paginate_respects_the_cap Samples.encode Samples.anyRequest server nat
           Samples.unmarshal Samples.client "profiles" Samples.baseParams
           120 100 5 Http.World0 250 (take 120 (seq 0 100 ++ seq 0 100)) w').
  - lia.
  - rewrite Hrun. vm_compute in Hrun. injection Hrun as <- _. vm_compute. reflexivity.
Defined.

Lemma paginate_reports_the_first_total_witness :
  match fst (Cmd.paginate Samples.encode Samples.anyRequest
               (Samples.script ["full"; "full"; "short"]) nat Samples.unmarshal 5
               Samples.client "profiles" Samples.baseParams 0 100 Cmd.initState
               Http.World0) with
  | Some (inr (total, _)) => total = 250
  | _ => False
  end.
Proof.
  set (server := Samples.script ["full"; "full"; "short"]).
  set (w1 := snd (Client.Post Samples.encode Samples.anyRequest server
                    Samples.client "query" "/engage"
                    (Cmd.pageParams Samples.baseParams (@Cmd.initState nat)) Http.World0)).
  destruct (Cmd.paginate Samples.encode Samples.anyRequest server nat
              Samples.unmarshal 5 Samples.client "profiles" Samples.baseParams
              0 100 Cmd.initState Http.World0)
    as [[[err | [total records]] |] w'] eqn:Hrun; cbn [fst].
  - vm_compute in Hrun. discriminate.
  - apply (paginate_reports_the_first_total Samples.encode Samples.anyRequest server
             nat Samples.unmarshal Samples.client "profiles" Samples.baseParams
             0 100 5 Http.World0 (Samples.pageOf 100 250 "ok") w1 total records w');
      [|exact Hrun].
    exists (Samples.ok200 "full"), "full".
    split; [vm_compute; reflexivity|]. split; reflexivity.
  - vm_compute in Hrun. discriminate.
Defined.


(** ** Tab-separated output *)

Lemma occurs_Join (c sep : ascii) (cells : list string) :
  sep <> c ->
  (forall cell, cell ∈ cells -> Token.occurs c cell = false) ->
  Token.occurs c (Str.Join cells (String sep "")) = false.
Proof.
  intros Hsep. unfold Str.Join. induction cells as [|x cells IH]; intros Hall; [reflexivity|].
  destruct cells as [|y cells].
  - cbn. apply Hall, elem_of_cons. by left.
  - change (String.concat (String sep "") (x :: y :: cells))
      with (x ++ String sep (String.concat (String sep "") (y :: cells))).
    rewrite occurs_append. cbn [Token.occurs].
    rewrite (Hall x) by (apply elem_of_cons; by left).
    rewrite (bool_decide_eq_false_2 _ Hsep), IH; [reflexivity|].
    intros cell Hcell. apply Hall, elem_of_cons. by right.
Qed.

Lemma Split_lines (rows : list (list string)) :
  (forall r, r ∈ rows -> Table.plain r) ->
  Str.Split Table.newline (String.concat "" (map Table.line rows))
    = (map (fun r => Str.Join r (String Table.tab "")) rows ++ [""])%list.
Proof.
  induction rows as [|r rows IH]; intros Hplain; [reflexivity|].
  assert (Hstep : String.concat "" (map Table.line (r :: rows))
                  = Str.Join r (String Table.tab "")
                    ++ String Table.newline (String.concat "" (map Table.line rows))).
  { cbn [map]. unfold Table.line at 1.
    destruct (map Table.line rows) as [|l ls] eqn:Hrest.
    - cbn. reflexivity.
    - change (String.concat "" ((Str.Join r (String Table.tab "") ++ String Table.newline "")
                                  :: l :: ls))
        with ((Str.Join r (String Table.tab "") ++ String Table.newline "")
                ++ "" ++ String.concat "" (l :: ls)).
      rewrite append_assoc_str. reflexivity. }
  rewrite Hstep, Split_at_sep.
  - cbn [map app]. f_equal. apply IH. intros r' Hr'. apply Hplain, elem_of_cons. by right.
  - apply occurs_Join; [discriminate|].
    intros cell Hcell. destruct (Hplain r) as [_ Hcells]; [apply elem_of_cons; by left|].
    by destruct (Hcells cell Hcell).
Qed.

(** X26: off a terminal, [PrintTable] writes one line per row, the
    headers first, each ended by a line feed; when every row has at least
    one cell and no cell holds a tab or a line feed, cutting the output at
    the line feeds and each line at the tabs gives the headers and rows
    back. *)
Theorem PrintTable_writes_parseable_TSV
    (render : list string -> list (list string) -> string)
    (headers : list string) (rows : list (list string)) :
  (forall r, r ∈ headers :: rows -> Table.plain r) ->
  map (Str.Split Table.tab)
      (removelast (Str.Split Table.newline (Table.PrintTable render headers rows false)))
    = headers :: rows.
Proof.
  intros Hplain. unfold Table.PrintTable, Table.printTSV. cbn [negb].
  assert (Hall : Str.Split Table.newline
                   (Table.line headers ++ String.concat "" (map Table.line rows))
                 = (map (fun r => Str.Join r (String Table.tab "")) (headers :: rows)
                      ++ [""])%list).
  { rewrite <- (Split_lines (headers :: rows) Hplain). f_equal.
    cbn [map]. destruct (map Table.line rows); cbn; [by rewrite append_empty_r|reflexivity]. }
  rewrite Hall, removelast_last, map_map.
  generalize (headers :: rows), Hplain. clear.
  induction l as [|r l IH]; intros Hplain; [reflexivity|].
  cbn [map]. f_equal.
  - destruct (Hplain r) as [Hne Hcells]; [apply elem_of_cons; by left|].
    apply Split_Join; [exact Hne|].
    intros cell Hcell. by destruct (Hcells cell Hcell).
  - apply IH. intros r' Hr'. apply Hplain, elem_of_cons. by right.
Qed.

Lemma PrintTable_writes_parseable_TSV_witness :
  map (Str.Split Table.tab)
      (removelast (Str.Split Table.newline
         (Table.PrintTable (fun _ _ => "") ["NAME"; "ID"] [["Daily users"; "7"]; [""; "8"]] false)))
    = [["NAME"; "ID"]; ["Daily users"; "7"]; [""; "8"]].
Proof.
  apply (PrintTable_writes_parseable_TSV (fun _ _ => "") ["NAME"; "ID"]
           [["Daily users"; "7"]; [""; "8"]]).
  intros r Hr.
  repeat (apply elem_of_cons in Hr as [-> | Hr];
          [ split; [discriminate|]; intros cell Hcell;
            repeat (apply elem_of_cons in Hcell as [-> | Hcell]; [split; reflexivity|]);
            by apply elem_of_nil in Hcell | ]).
  by apply elem_of_nil in Hr.
Defined.

(** ** Key properties of an activity stream *)

Example discoverKeyProperties_sample :
  Activity.discoverKeyProperties
    [ Activity.event ["time"; "city"; "plan"];
      Activity.JString "not an event";
      Activity.event ["time"; "plan"; "browser"];
      Activity.event ["plan"; "city"; "$insert_id"; "a"; "b"; "c"] ]
  = ["plan"; "city"; "a"; "b"; "browser"].
Proof. vm_compute. reflexivity. Qed.

(** The order of Go strings: byte by byte, a proper prefix first. *)
Lemma ascii_compare_refl (a : ascii) : Ascii.compare a a = Eq.
Proof. unfold Ascii.compare. apply N.compare_refl. Qed.

Lemma ascii_compare_Lt_trans (a b c : ascii) :
  Ascii.compare a b = Lt -> Ascii.compare b c = Lt -> Ascii.compare a c = Lt.
Proof.
  unfold Ascii.compare. rewrite !N.compare_lt_iff. apply N.lt_trans.
Qed.

Lemma compare_refl (s : string) : String.compare s s = Eq.
Proof.
  induction s as [|a s IH]; [reflexivity|].
  cbn [String.compare]. rewrite ascii_compare_refl. exact IH.
Qed.

Lemma compare_Lt_trans (s1 s2 s3 : string) :
  String.compare s1 s2 = Lt -> String.compare s2 s3 = Lt ->
  String.compare s1 s3 = Lt.
Proof.
  revert s2 s3. induction s1 as [|a s1 IH]; intros [|b s2] [|c s3];
    cbn [String.compare]; try congruence.
  destruct (Ascii.compare a b) eqn:Hab; try discriminate;
    destruct (Ascii.compare b c) eqn:Hbc; try discriminate; intros H12 H23.
  - apply Ascii.compare_eq_iff in Hab, Hbc. subst.
    rewrite ascii_compare_refl. eauto.
  - apply Ascii.compare_eq_iff in Hab. subst. rewrite Hbc. reflexivity.
  - apply Ascii.compare_eq_iff in Hbc. subst. rewrite Hab. reflexivity.
  - rewrite (ascii_compare_Lt_trans a b c Hab Hbc). reflexivity.
Qed.

Lemma ltb_irrefl (s : string) : String.ltb s s = false.
Proof. unfold String.ltb. rewrite compare_refl. reflexivity. Qed.

Lemma ltb_trans (s1 s2 s3 : string) :
  String.ltb s1 s2 = true -> String.ltb s2 s3 = true -> String.ltb s1 s3 = true.
Proof.
  unfold String.ltb. intros H12 H23.
  rewrite (compare_Lt_trans s1 s2 s3); [reflexivity| |].
  - destruct (String.compare s1 s2); congruence.
  - destruct (String.compare s2 s3); congruence.
Qed.

Lemma ltb_cases (s1 s2 : string) :
  String.ltb s1 s2 = true \/ s1 = s2 \/ String.ltb s2 s1 = true.
Proof.
  unfold String.ltb. rewrite (String.compare_antisym s2 s1).
  destruct (String.compare s1 s2) eqn:Hcmp; cbn; auto.
  right. left. apply String.compare_eq_iff. exact Hcmp.
Qed.

Lemma ltb_asym (s1 s2 : string) :
  String.ltb s1 s2 = true -> String.ltb s2 s1 = false.
Proof.
  unfold String.ltb. rewrite (String.compare_antisym s2 s1).
  destruct (String.compare s1 s2); cbn; congruence.
Qed.

(** [less] is a strict total order on pairs of a name and a count. *)
Lemma less_cases (a b : string * nat) :
  Activity.less a b = true <->
  (b.2 < a.2)%nat \/ (a.2 = b.2 /\ String.ltb a.1 b.1 = true).
Proof.
  unfold Activity.less.
  destruct (Nat.eqb_spec a.2 b.2) as [Heq|Hne]; cbn [negb].
  - split; [auto|]. intros [Hlt|[_ Hlt]]; [lia | exact Hlt].
  - rewrite Nat.ltb_lt. split; [auto|]. intros [Hlt|[Heq _]]; [exact Hlt | contradiction].
Qed.

Lemma before_cases (a b : string * nat) :
  Activity.before a b <->
  (b.2 < a.2)%nat \/ (a.2 = b.2 /\ String.ltb b.1 a.1 = false).
Proof.
  unfold Activity.before. rewrite <- Bool.not_true_iff_false, less_cases.
  destruct (String.ltb b.1 a.1); split.
  - intros Hno. left. lia.
  - intros [Hlt|[_ Hno]] [Hlt'|[Heq _]]; try lia; discriminate.
  - intros Hno. destruct (Nat.lt_trichotomy a.2 b.2) as [Hlt|[Heq|Hgt]];
      [exfalso; apply Hno; left; exact Hlt | right; auto | left; exact Hgt].
  - intros [Hlt|[Heq _]] [Hlt'|[_ Hno]]; try lia; discriminate.
Qed.

Lemma before_total : Total Activity.before.
Proof.
  intros a b. rewrite !before_cases.
  destruct (Nat.lt_trichotomy a.2 b.2) as [Hlt|[Heq|Hgt]]; [right; left; exact Hlt| |left; left; exact Hgt].
  destruct (String.ltb b.1 a.1) eqn:Hba.
  - right. right. split; [congruence|]. apply ltb_asym. exact Hba.
  - left. right. auto.
Qed.

Lemma before_trans : Transitive Activity.before.
Proof.
  intros a b c. rewrite !before_cases.
  intros [Hab|[Hab Hab']] [Hbc|[Hbc Hbc']]; try (left; lia).
  right. split; [congruence|].
  destruct (String.ltb c.1 a.1) eqn:Hca; [|reflexivity].
  destruct (ltb_cases b.1 a.1) as [Hlt|[Heq|Hlt]]; [congruence| |].
  - rewrite <- Heq in Hca. congruence.
  - rewrite (ltb_trans c.1 a.1 b.1 Hca Hlt) in Hbc'. discriminate.
Qed.

Lemma before_antisym : AntiSymm (=) Activity.before.
Proof.
  intros [n1 c1] [n2 c2]. rewrite !before_cases. cbn [fst snd].
  intros [H1|[H1 H1']] [H2|[H2 H2']]; try lia. subst c2.
  destruct (ltb_cases n1 n2) as [Hlt|[Heq|Hlt]]; congruence.
Qed.

Section ActivityFacts.
Context {number : Type}.
Implicit Types (events : list (Activity.json number)) (name : string).

(** One pass of the inner loop: a name of [props] that is not excluded has
    its count raised by one, every other count stays. *)
Lemma countProps_lookup (props : gmap string (Activity.json number))
    (propCount : gmap string nat) name :
  Activity.countProps props propCount !! name =
    if Activity.excluded name then propCount !! name
    else match props !! name with
         | Some _ => Some (S (default 0%nat (propCount !! name)))
         | None => propCount !! name
         end.
Proof.
  unfold Activity.countProps. revert name.
  refine (map_fold_weak_ind
            (fun r (m : gmap string (Activity.json number)) => forall name,
               r !! name =
                 if Activity.excluded name then propCount !! name
                 else match m !! name with
                      | Some _ => Some (S (default 0%nat (propCount !! name)))
                      | None => propCount !! name
                      end) _ _ _ _ props).
  - intros name. rewrite lookup_empty. destruct (Activity.excluded name); reflexivity.
  - intros i x m r Hfresh IH name.
    destruct (decide (name = i)) as [->|Hne].
    + rewrite lookup_insert_eq. specialize (IH i). rewrite Hfresh in IH.
      destruct (Activity.excluded i) eqn:Hex; [exact IH|].
      rewrite lookup_insert_eq, IH. reflexivity.
    + rewrite (lookup_insert_ne m) by congruence. rewrite <- IH.
      destruct (Activity.excluded i); [reflexivity|].
      rewrite lookup_insert_ne by congruence. reflexivity.
Qed.

Lemma hasProperty_cases name (ev : Activity.json number) :
  Activity.hasProperty name ev = true <->
  exists props, Activity.properties ev = Some props /\ is_Some (props !! name).
Proof.
  unfold Activity.hasProperty. destruct (Activity.properties ev) as [props|].
  - rewrite bool_decide_eq_true. split; [eauto|]. intros (? & [= <-] & H). exact H.
  - split; [discriminate|]. intros (? & [=] & _).
Qed.

(** The whole loop, from any counts to start with. *)
Lemma loop_lookup (l : list (Activity.json number)) (propCount : gmap string nat) name :
  foldl (fun propCount ev =>
           match Activity.properties ev with
           | Some props => Activity.countProps props propCount
           | None => propCount
           end) propCount l !! name =
    if Activity.excluded name then propCount !! name
    else match length (filter (fun ev => Activity.hasProperty name ev = true) l) with
         | O => propCount !! name
         | S n => Some (S n + default 0%nat (propCount !! name))%nat
         end.
Proof.
  revert propCount. induction l as [|ev l IH]; intros propCount.
  - cbn. destruct (Activity.excluded name); reflexivity.
  - cbn [foldl]. rewrite IH. clear IH.
    destruct (Activity.excluded name) eqn:Hex.
    + destruct (Activity.properties ev); [|reflexivity].
      rewrite countProps_lookup, Hex. reflexivity.
    + rewrite filter_cons.
      destruct (Activity.properties ev) as [props|] eqn:Hprops.
      * rewrite countProps_lookup, Hex.
        destruct (props !! name) as [v|] eqn:Hv.
        -- rewrite decide_True
             by (unfold Activity.hasProperty; rewrite Hprops;
                 apply bool_decide_eq_true; rewrite Hv; eauto).
           cbn [length].
           destruct (length _); unfold default; cbn [from_option id];
             f_equal; lia.
        -- rewrite decide_False
             by (unfold Activity.hasProperty; rewrite Hprops, Hv;
                 rewrite bool_decide_eq_true; intros [? [=]]).
           reflexivity.
      * rewrite decide_False
          by (unfold Activity.hasProperty; rewrite Hprops; discriminate).
        reflexivity.
Qed.

(** After the loop the map holds, for every name that is not excluded and
    is found at all, the number of scanned events that have it. *)
Lemma scan_lookup events name n :
  Activity.scan events !! name = Some n <->
  Activity.excluded name = false /\ n = Activity.frequency name events /\ (0 < n)%nat.
Proof.
  unfold Activity.scan, Activity.frequency. rewrite loop_lookup, lookup_empty.
  destruct (Activity.excluded name).
  - split; [discriminate | intros [[=] _]].
  - destruct (length _) as [|k].
    + split; [discriminate | intros (_ & -> & Hlt); lia].
    + cbn [default]. rewrite Nat.add_0_r. split.
      * intros [= <-]. repeat split; lia.
      * intros (_ & -> & _). reflexivity.
Qed.

Lemma freqs_elem events name n :
  (name, n) ∈ Activity.freqs events <->
  Activity.excluded name = false /\ n = Activity.frequency name events /\ (0 < n)%nat.
Proof.
  unfold Activity.freqs. rewrite merge_sort_Permutation, elem_of_map_to_list.
  apply scan_lookup.
Qed.

Lemma freqs_sorted events : StronglySorted Activity.before (Activity.freqs events).
Proof.
  exact (@StronglySorted_merge_sort _ Activity.before _ before_trans before_total _).
Qed.

Lemma freqs_NoDup events : NoDup (map fst (Activity.freqs events)).
Proof.
  unfold Activity.freqs.
  assert (Hperm : map fst (merge_sort Activity.before (map_to_list (Activity.scan events)))
                  ≡ₚ map fst (map_to_list (Activity.scan events)))
    by (apply Permutation_map, merge_sort_Permutation).
  rewrite Hperm. apply (NoDup_fst_map_to_list (Activity.scan events)).
Qed.

Lemma elem_of_map_fst (l : list (string * nat)) name :
  name ∈ map fst l <-> exists n, (name, n) ∈ l.
Proof.
  rewrite list_elem_of_In, in_map_iff. split.
  - intros ([name' n] & <- & Hin). exists n. apply list_elem_of_In. exact Hin.
  - intros (n & Hin). exists (name, n). split; [reflexivity|].
    apply list_elem_of_In. exact Hin.
Qed.

Lemma before_names (a b : string) (n m : nat) :
  a <> b -> Activity.before (a, n) (b, m) ->
  (m < n)%nat \/ (n = m /\ String.ltb a b = true).
Proof.
  intros Hne Hbefore. apply before_cases in Hbefore. cbn [fst snd] in Hbefore.
  destruct Hbefore as [Hlt|[Heq Hno]]; [left; exact Hlt|].
  right. split; [exact Heq|].
  destruct (ltb_cases a b) as [Hlt|[Heq'|Hlt]]; congruence.
Qed.
End ActivityFacts.

Section DiscoverFacts.
Context {number : Type}.
Implicit Types (events : list (Activity.json number)) (name : string).

Lemma frequency_found events name :
  (0 < Activity.frequency name events)%nat ->
  exists ev, ev ∈ take 20 events /\ Activity.hasProperty name ev = true.
Proof.
  unfold Activity.frequency.
  destruct (filter _ (take 20 events)) as [|ev l] eqn:Hfilter; cbn [length]; [lia|].
  intros _. exists ev.
  assert (Hin : ev ∈ filter (fun ev => Activity.hasProperty name ev = true)
                       (take 20 events)) by (rewrite Hfilter; left).
  apply list_elem_of_filter in Hin. destruct Hin as [Hhas Hin]. auto.
Qed.

Lemma top_elem events name :
  name ∈ Activity.discoverKeyProperties events ->
  (name, Activity.frequency name events) ∈ take 5 (Activity.freqs events) /\
  Activity.excluded name = false /\ (0 < Activity.frequency name events)%nat.
Proof.
  unfold Activity.discoverKeyProperties. rewrite elem_of_map_fst. intros (n & Hin).
  assert (Hall : (name, n) ∈ Activity.freqs events).
  { rewrite <- (firstn_skipn 5 (Activity.freqs events)). apply elem_of_app. left. exact Hin. }
  apply freqs_elem in Hall. destruct Hall as (Hex & -> & Hpos). auto.
Qed.

Lemma top_NoDup events : NoDup (Activity.discoverKeyProperties events).
Proof.
  unfold Activity.discoverKeyProperties. rewrite <- firstn_map.
  apply (sublist_NoDup _ (map fst (Activity.freqs events)));
    [apply freqs_NoDup | apply sublist_take].
Qed.

(** X27: what [discoverKeyProperties] returns are at most five names,
    all different, none of them one of the six internal names, and each
    one a property of one of the first twenty events. *)
Theorem discoverKeyProperties_returns_found_names events :
  (length (Activity.discoverKeyProperties events) <= 5)%nat /\
  NoDup (Activity.discoverKeyProperties events) /\
  forall name, name ∈ Activity.discoverKeyProperties events ->
    (name ∉ ["time"; "distinct_id"; "$distinct_id"; "$import"; "$insert_id";
             "mp_processing_time_ms"]) /\
    exists ev props, ev ∈ take 20 events /\
                     Activity.properties ev = Some props /\
                     is_Some (props !! name).
Proof.
  split; [|split].
  - unfold Activity.discoverKeyProperties.
    rewrite length_map, length_take. lia.
  - apply top_NoDup.
  - intros name Hin. apply top_elem in Hin. destruct Hin as (_ & Hex & Hpos).
    split.
    + intros Hinternal. repeat (apply elem_of_cons in Hinternal as [->|Hinternal];
        [vm_compute in Hex; discriminate|]).
      inversion Hinternal.
    + apply frequency_found in Hpos. destruct Hpos as (ev & Hev & Hhas).
      apply hasProperty_cases in Hhas. destruct Hhas as (props & Hprops & Hname).
      eauto.
Qed.

(** X28: a name that is eligible (not internal, found among the first
    twenty events) is left out only when five names are returned and each of
    them is found in more of these events, or in as many and has the smaller
    name in byte order. *)
Theorem discoverKeyProperties_leaves_out_only_lower_ranks events name' :
  Activity.excluded name' = false ->
  (0 < Activity.frequency name' events)%nat ->
  name' ∉ Activity.discoverKeyProperties events ->
  length (Activity.discoverKeyProperties events) = 5%nat /\
  forall name, name ∈ Activity.discoverKeyProperties events ->
    (Activity.frequency name' events < Activity.frequency name events)%nat \/
    (Activity.frequency name events = Activity.frequency name' events /\
     String.ltb name name' = true).
Proof.
  intros Hex Hpos Hout.
  assert (Hall : (name', Activity.frequency name' events) ∈ Activity.freqs events)
    by (apply freqs_elem; auto).
  pose proof (freqs_sorted events) as Hsorted.
  rewrite <- (firstn_skipn 5 (Activity.freqs events)) in Hall, Hsorted.
  apply elem_of_app in Hall. destruct Hall as [Htop|Hrest].
  { exfalso. apply Hout. unfold Activity.discoverKeyProperties.
    apply elem_of_map_fst. eauto. }
  split.
  - unfold Activity.discoverKeyProperties. rewrite length_map, length_take.
    assert (5 < length (Activity.freqs events))%nat; [|lia].
    destruct (Nat.lt_ge_cases 5 (length (Activity.freqs events))) as [Hlt|Hge]; [exact Hlt|].
    rewrite drop_ge in Hrest by lia. inversion Hrest.
  - intros name Hin.
    assert (Hne : name <> name') by (intros ->; contradiction).
    apply top_elem in Hin. destruct Hin as (Hin & _ & _).
    apply (before_names name name' _ _ Hne).
    apply (StronglySorted_app_1_elem_of _ _ _ _ _ Hsorted Hin Hrest).
Qed.

Lemma lookup_map {A B} (f : A -> B) (l : list A) (i : nat) :
  map f l !! i = f <$> (l !! i).
Proof. apply (list_lookup_fmap f l i). Qed.

Lemma StronglySorted_lookup {A} (R : relation A) (l : list A) (i j : nat) (a b : A) :
  StronglySorted R l -> (i < j)%nat -> l !! i = Some a -> l !! j = Some b -> R a b.
Proof.
  intros Hsorted. revert i j. induction Hsorted as [|x l Hsorted IH Hall]; intros i j Hlt Hi Hj.
  - discriminate.
  - destruct j as [|j]; [lia|]. cbn in Hj. destruct i as [|i].
    + injection Hi as <-. rewrite Forall_forall in Hall. apply Hall.
      eapply list_elem_of_lookup_2. exact Hj.
    + cbn in Hi. apply (IH i j); [lia | exact Hi | exact Hj].
Qed.

(** X29: the names come in the order of the ranking: an earlier name is
    found in more of the scanned events than a later one, or in as many
    and is the smaller name in byte order. *)
Theorem discoverKeyProperties_is_ranked events (i j : nat) (a b : string) :
  (i < j)%nat ->
  Activity.discoverKeyProperties events !! i = Some a ->
  Activity.discoverKeyProperties events !! j = Some b ->
  (Activity.frequency b events < Activity.frequency a events)%nat \/
  (Activity.frequency a events = Activity.frequency b events /\
   String.ltb a b = true).
Proof.
  intros Hlt Hi Hj.
  assert (Hne : a <> b).
  { intros ->. pose proof (NoDup_lookup _ _ _ _ (top_NoDup events) Hi Hj). lia. }
  unfold Activity.discoverKeyProperties in Hi, Hj.
  rewrite lookup_map in Hi, Hj.
  destruct (take 5 (Activity.freqs events) !! i) as [[a' n]|] eqn:Hi'; [|discriminate].
  destruct (take 5 (Activity.freqs events) !! j) as [[b' m]|] eqn:Hj'; [|discriminate].
  cbn in Hi, Hj. injection Hi as ->. injection Hj as ->.
  apply lookup_take_Some in Hi', Hj'. destruct Hi' as [Hi' _], Hj' as [Hj' _].
  assert (Hn : n = Activity.frequency a events)
    by (apply (freqs_elem events a n); eapply list_elem_of_lookup_2; exact Hi').
  assert (Hm : m = Activity.frequency b events)
    by (apply (freqs_elem events b m); eapply list_elem_of_lookup_2; exact Hj').
  subst n m. apply (before_names a b _ _ Hne).
  exact (StronglySorted_lookup _ _ i j _ _ (freqs_sorted events) Hlt Hi' Hj').
Qed.

(** X30: the result depends neither on the order in which the map is
    walked nor on the sorting method: whatever slice holds the entries of
    the map, each once, and is sorted by [less], its first five names are
    the result. *)
Theorem discoverKeyProperties_any_sorted_slice events (slice : list (string * nat)) :
  slice ≡ₚ map_to_list (Activity.scan events) ->
  (forall i j a b, (i < j)%nat -> slice !! i = Some a -> slice !! j = Some b ->
                   Activity.less b a = false) ->
  map fst (take 5 slice) = Activity.discoverKeyProperties events.
Proof.
  intros Hperm Hsorted. unfold Activity.discoverKeyProperties.
  f_equal. f_equal.
  apply (@StronglySorted_unique _ Activity.before before_antisym).
  - clear Hperm. induction slice as [|x slice IH]; constructor.
    + apply IH. intros i j a b Hlt Hi Hj.
      apply (Hsorted (S i) (S j) a b); [lia | exact Hi | exact Hj].
    + apply Forall_forall. intros y Hy.
      apply list_elem_of_lookup_1 in Hy. destruct Hy as (j & Hj).
      apply (Hsorted 0%nat (S j) x y); [lia | reflexivity | exact Hj].
  - apply freqs_sorted.
  - rewrite Hperm. unfold Activity.freqs. symmetry. apply merge_sort_Permutation.
Qed.
End DiscoverFacts.

Lemma discoverKeyProperties_leaves_out_only_lower_ranks_witness :
  let events := [ Activity.event ["time"; "city"; "plan"];
                  Activity.JString "not an event";
                  Activity.event ["time"; "plan"; "browser"];
                  Activity.event ["plan"; "city"; "$insert_id"; "a"; "b"; "c"] ] in
  Activity.discoverKeyProperties events = ["plan"; "city"; "a"; "b"; "browser"] /\
  forall name, name ∈ Activity.discoverKeyProperties events ->
    (Activity.frequency "c" events < Activity.frequency name events)%nat \/
    (Activity.frequency name events = Activity.frequency "c" events /\
     String.ltb name "c" = true).
Proof.
  intros events. split; [vm_compute; reflexivity|].
  apply (discoverKeyProperties_leaves_out_only_lower_ranks events "c").
  - vm_compute. reflexivity.
  - apply Nat.ltb_lt. vm_compute. reflexivity.
  - replace (Activity.discoverKeyProperties events)
      with ["plan"; "city"; "a"; "b"; "browser"] by (vm_compute; reflexivity).
    intros Hin. repeat (apply elem_of_cons in Hin as [[=]|Hin]). inversion Hin.
Defined.

Lemma discoverKeyProperties_is_ranked_witness :
  let events := [ Activity.event ["time"; "city"; "plan"];
                  Activity.event ["time"; "plan"; "browser"];
                  Activity.event ["browser"; "plan"] ] in
  (Activity.frequency "city" events < Activity.frequency "browser" events)%nat \/
  (Activity.frequency "browser" events = Activity.frequency "city" events /\
   String.ltb "browser" "city" = true).
Proof.
  intros events.
  apply (discoverKeyProperties_is_ranked events 1 2 "browser" "city").
  - lia.
  - vm_compute. reflexivity.
  - vm_compute. reflexivity.
Defined.

Lemma discoverKeyProperties_any_sorted_slice_witness :
  let events := [ Activity.event ["time"; "city"; "plan"];
                  Activity.event ["time"; "plan"; "browser"];
                  Activity.event ["browser"; "plan"] ] in
  map fst (take 5 [("plan", 3%nat); ("browser", 2%nat); ("city", 1%nat)])
  = Activity.discoverKeyProperties events.
Proof.
  intros events.
  apply (discoverKeyProperties_any_sorted_slice events
           [("plan", 3%nat); ("browser", 2%nat); ("city", 1%nat)]).
  - apply (bool_decide_unpack _). vm_compute. exact I.
  - intros i j a b Hlt Hi Hj.
    destruct i as [|[|[|i]]]; destruct j as [|[|[|j]]]; try lia;
      try discriminate; cbn in Hi, Hj; injection Hi as <-; injection Hj as <-;
      vm_compute; reflexivity.
Defined.
